(** * Sentinel: the confirmation helper and the PAM module

    A shallow embedding of the security-relevant code of the repository:
    - [src/helper/window.hpp], [src/helper/window.cpp]  (module [Confirm]),
    - [src/helper/session_lock.hpp], [src/helper/session_lock.cpp]
      (module [Wayland]),
    - [src/helper/main.cpp]  (module [Helper]),
    - [src/pam/pam_sentinel.c]  (module [Pam]).

    Conventions.  Integers of the C and C++ code are modelled in [Z]; [/] on
    them is [Z.quot] (truncation towards zero).  Bytes and C strings are
    [list ascii]; configuration strings are [string].  Calls into GTK, GLib,
    libc and the kernel are explicit: their results are read from an
    environment record, their effects are recorded in a trace of calls or in
    the fields of the object they act on. *)

From Stdlib Require Import ZArith List String Ascii Bool Lia.
From Stdlib Require Import DecimalString DecimalZ.
From Stdlib Require DecimalFacts.
Import ListNotations.
Open Scope string_scope.
Open Scope list_scope.
Open Scope Z_scope.

(** ** Bytes *)

Definition NUL : ascii := "000"%char.
Definition LF : ascii := "010"%char.
Definition CR : ascii := "013"%char.

Definition bytes (s : string) : list ascii := list_ascii_of_string s.

(** * [namespace confirm]: the dialog window *)

Module Confirm.

(** [enum class Result] *)
Inductive Result : Type := Allow | Deny | Timeout.

Definition to_string (result : Result) : string :=
  match result with
  | Allow => "ALLOW"
  | Deny => "DENY"
  | Timeout => "TIMEOUT"
  end.

Definition Result_eqb (a b : Result) : bool :=
  match a, b with
  | Allow, Allow | Deny, Deny | Timeout, Timeout => true
  | _, _ => false
  end.

(** [struct WindowParams], with the defaults of the header. *)
Record WindowParams : Type := mkParams {
  wp_title : string;
  wp_message : string;
  wp_secondary : string;
  wp_process_exe : option string;
  wp_timeout : Z;              (* std::chrono::seconds *)
  wp_min_display_time : Z;     (* std::chrono::milliseconds *)
  wp_randomize : bool
}.

Definition default_params : WindowParams :=
  {| wp_title := "Authentication Required";
     wp_message := "An application is requesting elevated privileges.";
     wp_secondary := "Click Allow to continue or Deny to cancel.";
     wp_process_exe := None;
     wp_timeout := 30;
     wp_min_display_time := 500;
     wp_randomize := false |}.

(** [struct _ConfirmWindow].  The state and parameter members are those of
    the source.  Of the widgets only what the handlers change is kept: the
    sensitivity of the allow button, the count shown by the timer label, the
    fraction shown by the progress bar (numerator and denominator, the source
    divides them as doubles), the visibility of the countdown and the order of
    the two buttons.  [timer_source] and [destroyed] are the state GLib and
    GTK keep for the object: whether the timeout source installed by
    [g_timeout_add] still exists, and whether the window was destroyed. *)
Record ConfirmWindow : Type := mkWindow {
  start_time : Z;              (* gint64, microseconds *)
  timer_id : Z;                (* guint, 0 when there is no timer *)
  allow_enabled : bool;
  result_sent : bool;
  timeout : Z;
  min_display_time : Z;
  randomize : bool;
  on_result : bool;            (* the std::function holds a callable *)
  allow_button_sensitive : bool;
  timer_label : Z;
  progress_bar : Z * Z;
  countdown_visible : bool;
  allow_button_first : bool;
  timer_source : bool;
  destroyed : bool
}.

Definition set_result_sent (self : ConfirmWindow) (b : bool) : ConfirmWindow :=
  {| start_time := start_time self; timer_id := timer_id self;
     allow_enabled := allow_enabled self; result_sent := b;
     timeout := timeout self; min_display_time := min_display_time self;
     randomize := randomize self; on_result := on_result self;
     allow_button_sensitive := allow_button_sensitive self;
     timer_label := timer_label self; progress_bar := progress_bar self;
     countdown_visible := countdown_visible self;
     allow_button_first := allow_button_first self;
     timer_source := timer_source self; destroyed := destroyed self |}.

(** [self->allow_enabled = true; gtk_widget_set_sensitive(allow_button, TRUE)] *)
Definition enable_allow (self : ConfirmWindow) : ConfirmWindow :=
  {| start_time := start_time self; timer_id := timer_id self;
     allow_enabled := true; result_sent := result_sent self;
     timeout := timeout self; min_display_time := min_display_time self;
     randomize := randomize self; on_result := on_result self;
     allow_button_sensitive := true;
     timer_label := timer_label self; progress_bar := progress_bar self;
     countdown_visible := countdown_visible self;
     allow_button_first := allow_button_first self;
     timer_source := timer_source self; destroyed := destroyed self |}.

(** [gtk_label_set_text(timer_label, ...); gtk_progress_bar_set_fraction(...)] *)
Definition show_countdown (self : ConfirmWindow) (remaining : Z) (fraction : Z * Z)
  : ConfirmWindow :=
  {| start_time := start_time self; timer_id := timer_id self;
     allow_enabled := allow_enabled self; result_sent := result_sent self;
     timeout := timeout self; min_display_time := min_display_time self;
     randomize := randomize self; on_result := on_result self;
     allow_button_sensitive := allow_button_sensitive self;
     timer_label := remaining; progress_bar := fraction;
     countdown_visible := countdown_visible self;
     allow_button_first := allow_button_first self;
     timer_source := timer_source self; destroyed := destroyed self |}.

(** GLib drops a timeout source whose callback returned [G_SOURCE_REMOVE]. *)
Definition drop_timer_source (self : ConfirmWindow) : ConfirmWindow :=
  {| start_time := start_time self; timer_id := timer_id self;
     allow_enabled := allow_enabled self; result_sent := result_sent self;
     timeout := timeout self; min_display_time := min_display_time self;
     randomize := randomize self; on_result := on_result self;
     allow_button_sensitive := allow_button_sensitive self;
     timer_label := timer_label self; progress_bar := progress_bar self;
     countdown_visible := countdown_visible self;
     allow_button_first := allow_button_first self;
     timer_source := false; destroyed := destroyed self |}.

(** [confirm_window_dispose]: removes the timer when [timer_id != 0]. *)
Definition confirm_window_dispose (self : ConfirmWindow) : ConfirmWindow :=
  if timer_id self =? 0 then self
  else
    {| start_time := start_time self; timer_id := 0;
       allow_enabled := allow_enabled self; result_sent := result_sent self;
       timeout := timeout self; min_display_time := min_display_time self;
       randomize := randomize self; on_result := on_result self;
       allow_button_sensitive := allow_button_sensitive self;
       timer_label := timer_label self; progress_bar := progress_bar self;
       countdown_visible := countdown_visible self;
       allow_button_first := allow_button_first self;
       timer_source := false; destroyed := destroyed self |}.

(** [gtk_window_destroy]: runs dispose and marks the window destroyed. *)
Definition gtk_window_destroy (self : ConfirmWindow) : ConfirmWindow :=
  let self := confirm_window_dispose self in
  {| start_time := start_time self; timer_id := timer_id self;
     allow_enabled := allow_enabled self; result_sent := result_sent self;
     timeout := timeout self; min_display_time := min_display_time self;
     randomize := randomize self; on_result := on_result self;
     allow_button_sensitive := allow_button_sensitive self;
     timer_label := timer_label self; progress_bar := progress_bar self;
     countdown_visible := countdown_visible self;
     allow_button_first := allow_button_first self;
     timer_source := timer_source self; destroyed := true |}.

(** A handler returns the window and the list of results it passed to the
    [on_result] callback, in call order. *)
Definition Handled : Type := (ConfirmWindow * list Result)%type.

(** [on_close_request], over the [send_result] it calls.  The [bool] is the
    returned gboolean, always FALSE: the default handler goes on. *)
Definition on_close_request_with
    (send : ConfirmWindow -> Result -> option Handled)
    (self : ConfirmWindow) : option (Handled * bool) :=
  if negb (result_sent self) then
    match send self Deny with
    | Some h => Some (h, false)
    | None => None
    end
  else Some ((self, []), false).

(** [gtk_window_close]: emits "close-request" to the connected handler and
    destroys the window unless the handler returned TRUE. *)
Definition gtk_window_close_with
    (close_request : ConfirmWindow -> option (Handled * bool))
    (self : ConfirmWindow) : option Handled :=
  match close_request self with
  | Some ((self', calls), stop) =>
      Some (if stop then self' else gtk_window_destroy self', calls)
  | None => None
  end.

(** [send_result].  It closes the window, the close request runs
    [on_close_request], and that calls [send_result] again when no result was
    sent: the recursion is cut by [fuel], [None] is fuel exhausted. *)
Fixpoint send_result_rec (fuel : nat) (self : ConfirmWindow) (result : Result)
  : option Handled :=
  match fuel with
  | O => None
  | S fuel' =>
      if result_sent self then Some (self, [])
      else
        let self1 := set_result_sent self true in
        let calls := if on_result self1 then [result] else [] in
        match gtk_window_close_with
                (on_close_request_with (send_result_rec fuel')) self1 with
        | Some (self2, calls2) => Some (self2, calls ++ calls2)
        | None => None
        end
  end.

(** Two levels are enough ([send_result_rec_enough] below). *)
Definition send_result (self : ConfirmWindow) (result : Result) : Handled :=
  match send_result_rec 2 self result with
  | Some h => h
  | None => (self, [])
  end.

Definition elapsed_ms (self : ConfirmWindow) (now : Z) : Z :=
  Z.quot (now - start_time self) 1000.

(** [on_allow_clicked]; [now] is what [g_get_monotonic_time] returns. *)
Definition on_allow_clicked (self : ConfirmWindow) (now : Z) : Handled :=
  if negb (allow_enabled self) then (self, [])
  else if elapsed_ms self now <? min_display_time self then (self, [])
  else send_result self Allow.

Definition on_deny_clicked (self : ConfirmWindow) : Handled :=
  send_result self Deny.

Definition G_SOURCE_REMOVE : bool := false.
Definition G_SOURCE_CONTINUE : bool := true.

(** [on_timer_tick] *)
Definition on_timer_tick (self : ConfirmWindow) (now : Z) : Handled * bool :=
  let elapsed_sec := Z.quot (elapsed_ms self now) 1000 in
  let remaining := timeout self - elapsed_sec in
  if remaining <=? 0 then (send_result self Timeout, G_SOURCE_REMOVE)
  else
    let self1 := show_countdown self remaining (elapsed_sec, timeout self) in
    let self2 :=
      if negb (allow_enabled self1)
         && (min_display_time self1 <=? elapsed_ms self1 now)
      then enable_allow self1 else self1 in
    ((self2, []), G_SOURCE_CONTINUE).

Definition GDK_KEY_Escape : Z := 65307.   (* 0xff1b *)

(** [on_key_pressed] *)
Definition on_key_pressed (self : ConfirmWindow) (keyval : Z) : Handled * bool :=
  if keyval =? GDK_KEY_Escape then (send_result self Deny, true)
  else ((self, []), false).

(** [on_close_request] *)
Definition on_close_request (self : ConfirmWindow) : Handled * bool :=
  match on_close_request_with (fun s r => Some (send_result s r)) self with
  | Some h => h
  | None => ((self, []), false)
  end.

(** [confirm_window_init] followed by [confirm_window_new].  [cb] tells
    whether the [on_result] argument holds a callable, [now] is the monotonic
    clock read for [start_time], [rnd] is what [random_bool] returns when it
    is asked.  The timer id GLib hands out is positive; 1 stands for it. *)
Definition confirm_window_new (params : WindowParams) (cb : bool)
    (now : Z) (rnd : bool) : ConfirmWindow :=
  let armed := 0 <? wp_timeout params in
  {| start_time := now;
     timer_id := if armed then 1 else 0;
     allow_enabled := negb armed;
     result_sent := false;
     timeout := wp_timeout params;
     min_display_time := wp_min_display_time params;
     randomize := wp_randomize params;
     on_result := cb;
     allow_button_sensitive := negb armed;
     timer_label := wp_timeout params;
     progress_bar := (0, 1);
     countdown_visible := armed;
     allow_button_first := wp_randomize params && rnd;
     timer_source := armed;
     destroyed := false |}.

(** The inputs of the window: the signals its handlers are connected to and
    the timer. *)
Inductive Input : Type :=
| AllowClicked (now : Z)
| DenyClicked
| KeyPressed (keyval : Z)
| CloseRequest
| TimerTick (now : Z).

(** Delivery of one input.  For the timer GLib removes the source when the
    handler says so; for a close request GTK destroys the window when the
    handler returns FALSE. *)
Definition handle (self : ConfirmWindow) (i : Input) : Handled :=
  match i with
  | AllowClicked now => on_allow_clicked self now
  | DenyClicked => on_deny_clicked self
  | KeyPressed keyval => fst (on_key_pressed self keyval)
  | CloseRequest =>
      let '((self', calls), stop) := on_close_request self in
      (if stop then self' else gtk_window_destroy self', calls)
  | TimerTick now =>
      let '((self', calls), keep) := on_timer_tick self now in
      (if keep then self' else drop_timer_source self', calls)
  end.

(** Inputs delivered one after the other; the callback invocations add up. *)
Fixpoint run_inputs (self : ConfirmWindow) (ins : list Input) : Handled :=
  match ins with
  | [] => (self, [])
  | i :: rest =>
      let '(self1, calls1) := handle self i in
      let '(self2, calls2) := run_inputs self1 rest in
      (self2, calls1 ++ calls2)
  end.

(** A countdown expiry is a tick at which no second remains. *)
Definition expired (self : ConfirmWindow) (now : Z) : bool :=
  timeout self - Z.quot (elapsed_ms self now) 1000 <=? 0.

End Confirm.

(** * [namespace wayland]: the session lock wrapper *)

Module Wayland.

(** [enum class LockState] *)
Module LockState.
Inductive t : Type := Unlocked | Locking | Locked | Failed.
End LockState.

(** [enum class LockResult] *)
Module LockResult.
Inductive t : Type := Success | NotSupported | AlreadyLocked | Failed.
End LockResult.

Definition LockState_eqb (a b : LockState.t) : bool :=
  match a, b with
  | LockState.Unlocked, LockState.Unlocked
  | LockState.Locking, LockState.Locking
  | LockState.Locked, LockState.Locked
  | LockState.Failed, LockState.Failed => true
  | _, _ => false
  end.

Definition to_string (result : LockResult.t) : string :=
  match result with
  | LockResult.Success => "Success"
  | LockResult.NotSupported => "Session lock not supported by compositor"
  | LockResult.AlreadyLocked => "Session is already locked"
  | LockResult.Failed => "Failed to acquire session lock"
  end.

(** [class SessionLock].  [instance_] tells whether the pointer is non-null,
    a callback member whether it holds a callable.  [instance_is_locked] is
    the answer of [gtk_session_lock_instance_is_locked(instance_)], state the
    library keeps for the instance. *)
Record SessionLock : Type := mkLock {
  instance_ : bool;
  state_ : LockState.t;
  locked_callback_ : bool;
  failed_callback_ : bool;
  unlocked_callback_ : bool;
  monitor_callback_ : bool;
  locked_handler_id_ : Z;
  failed_handler_id_ : Z;
  unlocked_handler_id_ : Z;
  monitor_handler_id_ : Z;
  instance_is_locked : bool
}.

(** The default member initialisers. *)
Definition SessionLock_new : SessionLock :=
  {| instance_ := false; state_ := LockState.Unlocked;
     locked_callback_ := false; failed_callback_ := false;
     unlocked_callback_ := false; monitor_callback_ := false;
     locked_handler_id_ := 0; failed_handler_id_ := 0;
     unlocked_handler_id_ := 0; monitor_handler_id_ := 0;
     instance_is_locked := false |}.

Definition set_state (self : SessionLock) (s : LockState.t) : SessionLock :=
  {| instance_ := instance_ self; state_ := s;
     locked_callback_ := locked_callback_ self;
     failed_callback_ := failed_callback_ self;
     unlocked_callback_ := unlocked_callback_ self;
     monitor_callback_ := monitor_callback_ self;
     locked_handler_id_ := locked_handler_id_ self;
     failed_handler_id_ := failed_handler_id_ self;
     unlocked_handler_id_ := unlocked_handler_id_ self;
     monitor_handler_id_ := monitor_handler_id_ self;
     instance_is_locked := instance_is_locked self |}.

Definition set_instance_is_locked (self : SessionLock) (b : bool) : SessionLock :=
  {| instance_ := instance_ self; state_ := state_ self;
     locked_callback_ := locked_callback_ self;
     failed_callback_ := failed_callback_ self;
     unlocked_callback_ := unlocked_callback_ self;
     monitor_callback_ := monitor_callback_ self;
     locked_handler_id_ := locked_handler_id_ self;
     failed_handler_id_ := failed_handler_id_ self;
     unlocked_handler_id_ := unlocked_handler_id_ self;
     monitor_handler_id_ := monitor_handler_id_ self;
     instance_is_locked := b |}.

(** [on_locked], [on_failed], [on_unlocked], [on_monitor]: a callable is
    stored. *)
Definition set_callbacks (self : SessionLock) : SessionLock :=
  {| instance_ := instance_ self; state_ := state_ self;
     locked_callback_ := true; failed_callback_ := true;
     unlocked_callback_ := true; monitor_callback_ := true;
     locked_handler_id_ := locked_handler_id_ self;
     failed_handler_id_ := failed_handler_id_ self;
     unlocked_handler_id_ := unlocked_handler_id_ self;
     monitor_handler_id_ := monitor_handler_id_ self;
     instance_is_locked := instance_is_locked self |}.

(** [SessionLock::cleanup] *)
Definition cleanup (self : SessionLock) : SessionLock :=
  {| instance_ := false; state_ := LockState.Unlocked;
     locked_callback_ := locked_callback_ self;
     failed_callback_ := failed_callback_ self;
     unlocked_callback_ := unlocked_callback_ self;
     monitor_callback_ := monitor_callback_ self;
     locked_handler_id_ := if instance_ self then 0 else locked_handler_id_ self;
     failed_handler_id_ := if instance_ self then 0 else failed_handler_id_ self;
     unlocked_handler_id_ :=
       if instance_ self then 0 else unlocked_handler_id_ self;
     monitor_handler_id_ := if instance_ self then 0 else monitor_handler_id_ self;
     instance_is_locked :=
       if instance_ self then false else instance_is_locked self |}.

(** [SessionLock::lock].  [supported], [new_ok] and [lock_ok] are what
    [gtk_session_lock_is_supported], [gtk_session_lock_instance_new] (a
    non-null instance) and [gtk_session_lock_instance_lock] return.  The four
    handler ids GLib hands out are positive; 1 to 4 stand for them. *)
Definition lock (supported new_ok lock_ok : bool) (self : SessionLock)
  : SessionLock * LockResult.t :=
  if negb supported then (self, LockResult.NotSupported)
  else if instance_ self && instance_is_locked self
  then (self, LockResult.AlreadyLocked)
  else
    let self := cleanup self in
    if negb new_ok then (self, LockResult.Failed)
    else
      let connected :=
        {| instance_ := true; state_ := LockState.Locking;
           locked_callback_ := locked_callback_ self;
           failed_callback_ := failed_callback_ self;
           unlocked_callback_ := unlocked_callback_ self;
           monitor_callback_ := monitor_callback_ self;
           locked_handler_id_ := 1; failed_handler_id_ := 2;
           unlocked_handler_id_ := 3; monitor_handler_id_ := 4;
           instance_is_locked := false |} in
      if negb lock_ok
      then (set_state connected LockState.Failed, LockResult.Failed)
      else (connected, LockResult.Success).

(** [SessionLock::unlock] *)
Definition unlock (self : SessionLock) : SessionLock :=
  if instance_ self && instance_is_locked self
  then set_instance_is_locked self false
  else self.

Definition is_locked (self : SessionLock) : bool :=
  LockState_eqb (state_ self) LockState.Locked.

(** The static signal handlers.  Each returns the lock and whether the stored
    callback is called; the caller runs the callback's body. *)
Definition on_locked_signal (self : SessionLock) : SessionLock * bool :=
  (set_state self LockState.Locked, locked_callback_ self).

Definition on_failed_signal (self : SessionLock) : SessionLock * bool :=
  (set_state self LockState.Failed, failed_callback_ self).

Definition on_unlocked_signal (self : SessionLock) : SessionLock * bool :=
  (set_state self LockState.Unlocked, unlocked_callback_ self).

(** [SessionLock::on_monitor_signal]: the window the callback returns, when
    there is a callback and the window is not null, is assigned to the
    monitor.  The result is the assignment made, if any. *)
Definition on_monitor_signal {St Win : Type} (self : SessionLock)
    (monitor : Z) (monitor_callback : St -> option Win * St) (st : St)
  : option (Z * Win) * St :=
  if monitor_callback_ self then
    match monitor_callback st with
    | (Some window, st') => (Some (monitor, window), st')
    | (None, st') => (None, st')
    end
  else (None, st).

End Wayland.

(** * [src/helper/main.cpp] *)

Module Helper.
Import Confirm.
Import Wayland.

(** [struct AppConfig] *)
Record AppConfig : Type := mkConfig {
  params : WindowParams;
  use_session_lock : bool
}.

(** A window handed to the session lock for a monitor: the dialog made by
    [confirm_window_new], or a plain [gtk_window_new()] with its decoration
    flag and the style sheet loaded for it.  A blank window has no child
    widget, no signal handler and no result callback. *)
Inductive LockWindow : Type :=
| Dialog
| Blank (decorated : bool) (css : string).

(** [struct AppState].  The members after [first_monitor] are the state GTK
    keeps for the application: whether [g_application_quit] was called, the
    dialog window once it exists, the windows assigned to monitors in call
    order, whether the dialog was presented as a normal window, and the lines
    printed on stderr. *)
Record AppState : Type := mkState {
  config : AppConfig;
  result : Result;
  session_lock : SessionLock;
  app : bool;
  first_monitor : bool;
  quit : bool;
  dialog : option ConfirmWindow;
  assigned : list (Z * LockWindow);
  presented : bool;
  stderr : list string
}.

Definition set_result (s : AppState) (r : Result) : AppState :=
  {| config := config s; result := r; session_lock := session_lock s;
     app := app s; first_monitor := first_monitor s; quit := quit s;
     dialog := dialog s; assigned := assigned s; presented := presented s;
     stderr := stderr s |}.

Definition set_session_lock (s : AppState) (l : SessionLock) : AppState :=
  {| config := config s; result := result s; session_lock := l;
     app := app s; first_monitor := first_monitor s; quit := quit s;
     dialog := dialog s; assigned := assigned s; presented := presented s;
     stderr := stderr s |}.

Definition set_app (s : AppState) : AppState :=
  {| config := config s; result := result s; session_lock := session_lock s;
     app := true; first_monitor := first_monitor s; quit := quit s;
     dialog := dialog s; assigned := assigned s; presented := presented s;
     stderr := stderr s |}.

Definition g_application_quit (s : AppState) : AppState :=
  {| config := config s; result := result s; session_lock := session_lock s;
     app := app s; first_monitor := first_monitor s; quit := true;
     dialog := dialog s; assigned := assigned s; presented := presented s;
     stderr := stderr s |}.

Definition set_dialog (s : AppState) (w : ConfirmWindow) : AppState :=
  {| config := config s; result := result s; session_lock := session_lock s;
     app := app s; first_monitor := first_monitor s; quit := quit s;
     dialog := Some w; assigned := assigned s; presented := presented s;
     stderr := stderr s |}.

Definition clear_first_monitor (s : AppState) : AppState :=
  {| config := config s; result := result s; session_lock := session_lock s;
     app := app s; first_monitor := false; quit := quit s;
     dialog := dialog s; assigned := assigned s; presented := presented s;
     stderr := stderr s |}.

Definition assign_window (s : AppState) (a : option (Z * LockWindow)) : AppState :=
  {| config := config s; result := result s; session_lock := session_lock s;
     app := app s; first_monitor := first_monitor s; quit := quit s;
     dialog := dialog s;
     assigned := match a with Some x => assigned s ++ [x] | None => assigned s end;
     presented := presented s; stderr := stderr s |}.

Definition gtk_window_present (s : AppState) : AppState :=
  {| config := config s; result := result s; session_lock := session_lock s;
     app := app s; first_monitor := first_monitor s; quit := quit s;
     dialog := dialog s; assigned := assigned s; presented := true;
     stderr := stderr s |}.

Definition println_stderr (s : AppState) (line : string) : AppState :=
  {| config := config s; result := result s; session_lock := session_lock s;
     app := app s; first_monitor := first_monitor s; quit := quit s;
     dialog := dialog s; assigned := assigned s; presented := presented s;
     stderr := stderr s ++ [line] |}.

(** [on_result] *)
Definition on_result (state : AppState) (result : Result) : AppState :=
  let state := set_result state result in
  let state :=
    if is_locked (session_lock state)
    then set_session_lock state (unlock (session_lock state))
    else state in
  if app state then g_application_quit state else state.

(** The lambda given to [on_failed]. *)
Definition failed_callback (state : AppState) : AppState :=
  let state := println_stderr state "Error: Failed to acquire session lock" in
  let state := set_result state Deny in
  g_application_quit state.

(** The lambda given to [on_unlocked]. *)
Definition unlocked_callback (state : AppState) : AppState :=
  g_application_quit state.

(** The lambda given to [on_monitor].  [now] and [rnd] are the clock and the
    random bit [confirm_window_new] reads. *)
Definition monitor_callback (now : Z) (rnd : bool) (state : AppState)
  : option LockWindow * AppState :=
  if first_monitor state then
    let state := clear_first_monitor state in
    let window := confirm_window_new (params (config state)) true now rnd in
    (Some Dialog, set_dialog state window)
  else
    (Some (Blank false "window { background: #1a1a1a; }"), state).

(** What the process reads from its surroundings: the outcome of
    [parse_args] ([None] after --help), the variable WAYLAND_DISPLAY, the
    answers of the session lock library, and the clock and random bit at
    activation. *)
Record Env : Type := mkEnv {
  parse_args : option AppConfig;
  WAYLAND_DISPLAY : option string;
  gtk_session_lock_is_supported : bool;
  gtk_session_lock_instance_new : bool;
  gtk_session_lock_instance_lock : bool;
  activate_time : Z;
  activate_random : bool
}.

(** [on_activate_with_lock] *)
Definition on_activate_with_lock (env : Env) (state : AppState) : AppState :=
  let state := set_app state in
  let state := set_session_lock state (set_callbacks (session_lock state)) in
  let '(l, result) :=
    lock (gtk_session_lock_is_supported env)
         (gtk_session_lock_instance_new env)
         (gtk_session_lock_instance_lock env) (session_lock state) in
  let state := set_session_lock state l in
  match result with
  | LockResult.Success => state
  | _ =>
      let state := println_stderr state ("Error: " ++ Wayland.to_string result) in
      let state := set_result state Deny in
      g_application_quit state
  end.

(** [on_activate_without_lock] *)
Definition on_activate_without_lock (env : Env) (state : AppState) : AppState :=
  let state := set_app state in
  let window :=
    confirm_window_new (params (config state)) true
                       (activate_time env) (activate_random env) in
  gtk_window_present (set_dialog state window).

(** [on_activate] *)
Definition on_activate (env : Env) (state : AppState) : AppState :=
  if use_session_lock (config state) && gtk_session_lock_is_supported env
  then on_activate_with_lock env state
  else
    let state :=
      if use_session_lock (config state)
      then println_stderr state
             "Warning: Session lock not supported, running without it"
      else state in
    on_activate_without_lock env state.

(** What the main loop dispatches: the four signals of the lock instance and
    the inputs of the dialog. *)
Inductive Event : Type :=
| LockedSignal
| FailedSignal
| UnlockedSignal
| MonitorSignal (monitor : Z) (now : Z) (rnd : bool)
| WindowInput (i : Input).

(** A signal of the lock instance reaches its handler when the instance
    exists and the handler is connected.  The library marks the instance
    locked before "locked" and unlocked before "unlocked".  An input of the
    dialog runs its handler and then [on_result] for every callback call. *)
Definition dispatch (state : AppState) (e : Event) : AppState :=
  let l := session_lock state in
  match e with
  | LockedSignal =>
      if instance_ l && negb (locked_handler_id_ l =? 0) then
        let '(l', call) := on_locked_signal (set_instance_is_locked l true) in
        set_session_lock state l'   (* the callback body is empty *)
      else state
  | FailedSignal =>
      if instance_ l && negb (failed_handler_id_ l =? 0) then
        let '(l', call) := on_failed_signal l in
        let state := set_session_lock state l' in
        if call then failed_callback state else state
      else state
  | UnlockedSignal =>
      if instance_ l && negb (unlocked_handler_id_ l =? 0) then
        let '(l', call) := on_unlocked_signal (set_instance_is_locked l false) in
        let state := set_session_lock state l' in
        if call then unlocked_callback state else state
      else state
  | MonitorSignal monitor now rnd =>
      if instance_ l && negb (monitor_handler_id_ l =? 0) then
        let '(a, state) :=
          on_monitor_signal l monitor (monitor_callback now rnd) state in
        assign_window state a
      else state
  | WindowInput i =>
      match dialog state with
      | Some w =>
          let '(w', calls) := handle w i in
          fold_left on_result calls (set_dialog state w')
      | None => state
      end
  end.

(** All events dispatched, whether or not a quit was requested on the way. *)
Definition dispatch_all (state : AppState) (evs : list Event) : AppState :=
  fold_left dispatch evs state.

(** The main loop of [g_application_run]: events are dispatched until
    [g_application_quit] was called.  [None]: the events ran out and the loop
    is still waiting. *)
Fixpoint main_loop (state : AppState) (evs : list Event) : option AppState :=
  if quit state then Some state
  else
    match evs with
    | [] => None
    | e :: rest => main_loop (dispatch state e) rest
    end.

(** [g_application_run]: "activate" is emitted, then the loop runs. *)
Definition g_application_run (env : Env) (state : AppState) (evs : list Event)
  : option AppState :=
  main_loop (on_activate env state) evs.

Definition EXIT_SUCCESS : Z := 0.
Definition EXIT_FAILURE : Z := 1.

(** What a finished process leaves: the bytes written to stdout and the exit
    status. *)
Record Exit : Type := mkExit {
  stdout : list ascii;
  status : Z
}.

(** The [AppState] built in [main]. *)
Definition initial_state (config : AppConfig) : AppState :=
  {| config := config; result := Deny; session_lock := SessionLock_new;
     app := false; first_monitor := true; quit := false; dialog := None;
     assigned := []; presented := false; stderr := [] |}.

(** [main].  [None]: the process is still running when the events end. *)
Definition main (env : Env) (evs : list Event) : option Exit :=
  match parse_args env with
  | None => Some {| stdout := []; status := EXIT_SUCCESS |}
  | Some config =>
      match WAYLAND_DISPLAY env with
      | None | Some "" => Some {| stdout := []; status := EXIT_FAILURE |}
      | Some _ =>
          match g_application_run env (initial_state config) evs with
          | None => None
          | Some state =>
              Some {| stdout := bytes (Confirm.to_string (result state)) ++ [LF];
                      status := if Result_eqb (result state) Allow
                                then EXIT_SUCCESS else EXIT_FAILURE |}
          end
      end
  end.

End Helper.

(** * [src/pam/pam_sentinel.c] *)

Module Pam.

(** The return codes of the PAM entry points the module uses. *)
Inductive pam_code : Type :=
| PAM_SUCCESS | PAM_SYSTEM_ERR | PAM_AUTH_ERR | PAM_USER_UNKNOWN | PAM_IGNORE.

(** [confirm_config_t]; the [int] members in [Z], the [char] arrays as
    strings. *)
Record confirm_config_t : Type := mkCfg {
  enabled : Z;
  timeout : Z;
  randomize_buttons : Z;
  show_process_info : Z;
  log_attempts : Z;
  min_display_time : Z;
  headless_action : string;
  title : string;
  message : string;
  secondary : string
}.

Definition dquote : string := String "034"%char EmptyString.

(** The defaults [load_config] sets before it reads the file. *)
Definition default_config : confirm_config_t :=
  {| enabled := 1; timeout := 30; randomize_buttons := 1;
     show_process_info := 1; log_attempts := 1; min_display_time := 500;
     headless_action := "password"; title := "Authentication Required";
     message := "The application " ++ dquote ++ "%p" ++ dquote
                ++ " is requesting elevated privileges.";
     secondary := "Click " ++ dquote ++ "Allow" ++ dquote ++ " to continue or "
                  ++ dquote ++ "Deny" ++ dquote ++ " to cancel." |}.

(** [struct passwd], the members the module reads. *)
Record passwd : Type := mkPasswd {
  pw_name : string;
  pw_uid : Z;
  pw_gid : Z;
  pw_dir : string
}.

(** [int] and [uid_t]: 32 bits, signed and unsigned. *)
Definition INT_MAX : Z := 2147483647.
Definition INT_MIN : Z := -2147483648.
Definition wrap_int (z : Z) : Z := (z + 2147483648) mod 4294967296 - 2147483648.
Definition to_uid_t (z : Z) : Z := z mod 4294967296.

Definition SIGKILL : Z := 9.

Inductive pipe_end : Type := pipefd0 | pipefd1.

Inductive priority : Type := LOG_ERR | LOG_WARNING | LOG_INFO | LOG_DEBUG.

(** The calls whose order matters, as a process issues them. *)
Inductive call : Type :=
| Syslog (p : priority) (msg : string)
| Setenv (name value : string)
| Pipe
| Fork
| Close (fd : pipe_end)
| Initgroups (user : string) (group : Z)
| Setgid (gid : Z)
| Setuid (uid : Z)
| Dup2                       (* dup2(pipefd[1], STDOUT_FILENO) *)
| Execv (path : string) (args : list string)
| Write (data : list ascii)  (* write(STDOUT_FILENO, data, length) *)
| Exit (code : Z)            (* _exit(code) *)
| Select (tv_sec tv_usec : Z)
| Kill (pid sig : Z)
| Waitpid (pid : Z)
| Read (count : Z).

(** What the module reads from PAM, libc and the kernel. *)
Record Os : Type := mkOs {
  HELPER_PATH : string;                      (* config.h *)
  pam_get_user : pam_code * option string;
  pam_get_item_service : pam_code * option string;
  load_config : string -> confirm_config_t;
  getenv_WAYLAND_DISPLAY : option string;
  getenv_XDG_RUNTIME_DIR : option string;
  getenv_SUDO_UID : option string;
  getenv_PKEXEC_UID : option string;
  atoi : string -> Z;
  getuid : Z;
  getgid : Z;
  getpwnam : string -> option passwd;
  getpwuid : Z -> option passwd;
  readdir_run_user : Z -> option (list string); (* entries of /run/user/<uid> *)
  process_name : string;                     (* get_process_name(getppid()) *)
  process_exe : string;                      (* get_process_exe(getppid()) *)
  pipe_ok : bool;
  fork_pid : Z;                              (* what fork returns in the parent *)
  initgroups_ok : string -> Z -> bool;
  setgid_ok : Z -> bool;
  setuid_ok : Z -> bool;
  dup2_ok : bool;
  execv_ok : bool;
  write_ok : bool;
  pipe_at_read : list ascii;   (* what the exec'ed program has written to the
                                  pipe when the parent reads from it *)
  ready_at : option Z;     (* microseconds until the read end is readable *)
  select_error : bool;
  read_error : bool;
  stack_garbage : list ascii                 (* char result[16] before the read *)
}.

(** ** C strings *)

Definition ascii_in (c : ascii) (set : list ascii) : bool :=
  existsb (Ascii.eqb c) set.

Fixpoint take_until (stop : list ascii) (mem : list ascii) : list ascii :=
  match mem with
  | [] => []
  | c :: rest => if ascii_in c stop then [] else c :: take_until stop rest
  end.

(** The string a [char *] denotes: the bytes before the first NUL. *)
Definition c_str (mem : list ascii) : list ascii := take_until [NUL] mem.

(** [strcspn(s, reject)] *)
Definition strcspn (mem reject : list ascii) : nat :=
  List.length (take_until (NUL :: reject) mem).

(** [strcmp(a, b) == 0] *)
Definition str_equal (a b : list ascii) : bool :=
  String.eqb (string_of_list_ascii (c_str a)) (string_of_list_ascii (c_str b)).

(** [mem[i] = c] *)
Fixpoint store (mem : list ascii) (i : nat) (c : ascii) : list ascii :=
  match mem, i with
  | [], _ => []
  | _ :: rest, O => c :: rest
  | x :: rest, S j => x :: store rest j c
  end.

(** [strstr(hay, needle) != NULL] *)
Fixpoint strstr (hay : string) (needle : string) : bool :=
  String.prefix needle hay
  || match hay with
     | EmptyString => false
     | String _ rest => strstr rest needle
     end.

(** ** Display detection *)

(** [find_wayland_display]: the result and the [setenv] calls made. *)
Definition find_wayland_display (os : Os) (uid : Z) : bool * list call :=
  match getenv_WAYLAND_DISPLAY os with
  | Some (String _ _) => (true, [])
  | _ =>
      match readdir_run_user os uid with
      | None => (false, [])
      | Some entries =>
          match find (fun d_name => String.prefix "wayland-" d_name
                                    && negb (strstr d_name ".lock")) entries with
          | Some d_name =>
              (true,
               Setenv "WAYLAND_DISPLAY" d_name ::
               match getenv_XDG_RUNTIME_DIR os with
               | None =>
                   [Setenv "XDG_RUNTIME_DIR"
                      ("/run/user/"
                         ++ DecimalString.NilZero.string_of_int
                              (Z.to_int (wrap_int uid)))]
               | Some _ => []
               end)
          | None => (false, [])
          end
      end
  end.

Definition has_display (os : Os) (uid : Z) : bool * list call :=
  find_wayland_display os uid.

(** ** [format_message]
    [room] is the number of bytes that may still be stored before [end].
    The source advances [user], [service] and [process] themselves while it
    copies them, so a second use of a substitution finds what the first left. *)
Fixpoint format_message_loop (p : list ascii) (room : nat)
    (user service process : list ascii) : list ascii :=
  match p, room with
  | [], _ => []
  | _, O => []
  | c :: p1, S room1 =>
      if Ascii.eqb c "%"%char then
        match p1 with
        | [] => [c]
        | d :: p2 =>
            if Ascii.eqb d "u"%char then
              let out := firstn room user in
              out ++ format_message_loop p2 (room - List.length out)%nat
                       (skipn room user) service process
            else if Ascii.eqb d "s"%char then
              let out := firstn room service in
              out ++ format_message_loop p2 (room - List.length out)%nat
                       user (skipn room service) process
            else if Ascii.eqb d "p"%char then
              let out := firstn room process in
              out ++ format_message_loop p2 (room - List.length out)%nat
                       user service (skipn room process)
            else if Ascii.eqb d "%"%char then
              "%"%char :: format_message_loop p2 room1 user service process
            else
              match room1 with
              | O => ["%"%char]
              | S room2 =>
                  "%"%char :: d ::
                    format_message_loop p2 room2 user service process
              end
        end
      else c :: format_message_loop p1 room1 user service process
  end.

Definition format_message (template : string) (len : nat)
    (user service process : string) : string :=
  string_of_list_ascii
    (format_message_loop (bytes template) (len - 1)%nat
       (bytes user) (bytes service) (bytes process)).

(** ** The child side of [run_helper] *)

(** ["%d"] of an [int] *)
Definition int_to_string (z : Z) : string :=
  DecimalString.NilZero.string_of_int (Z.to_int z).

(** The target identity before the [getpwuid] lookup. *)
Definition target_identity (os : Os) (user : string) : Z * Z :=
  let target_uid := getuid os in
  let target_gid := getgid os in
  match getenv_SUDO_UID os with
  | Some sudo_uid => (to_uid_t (atoi os sudo_uid), target_gid)
  | None =>
      match getenv_PKEXEC_UID os with
      | Some pkexec_uid => (to_uid_t (atoi os pkexec_uid), target_gid)
      | None =>
          match getpwnam os user with
          | Some pw => (pw_uid pw, pw_gid pw)
          | None => (target_uid, target_gid)
          end
      end
  end.

(** The argument list built for [execv]. *)
Definition helper_args (os : Os) (cfg : confirm_config_t)
    (formatted_message formatted_secondary : string) : list string :=
  [HELPER_PATH os; "--title"; title cfg; "--message"; formatted_message;
   "--secondary"; formatted_secondary;
   "--timeout"; int_to_string (timeout cfg);
   "--min-time"; int_to_string (min_display_time cfg)]
  ++ (if randomize_buttons cfg =? 0 then [] else ["--randomize"])
  ++ (if show_process_info cfg =? 0 then [] else ["--process-exe"; process_exe os]).

(** [if (f(...) < 0) _exit(1);] followed by the rest *)
Definition attempt (c : call) (ok : bool) (rest : list call) : list call :=
  c :: (if ok then rest else [Exit 1]).

(** [execv] and what follows it when it returns. *)
Definition exec_helper (os : Os) (args : list string) : list call :=
  Execv (HELPER_PATH os) args ::
  (if execv_ok os then [] else [Write (bytes "DENY" ++ [LF]); Exit 1]).

(** The calls of the child, from [close(pipefd[0])] on.  The last call is
    [Exit], or an [Execv] that replaced the program. *)
Definition child (os : Os) (cfg : confirm_config_t) (user : string)
    (formatted_message formatted_secondary : string) : list call :=
  let '(target_uid, target_gid) := target_identity os user in
  let drop (target_gid : Z) : list call :=
    attempt (Setgid target_gid) (setgid_ok os target_gid)
      (attempt (Setuid target_uid) (setuid_ok os target_uid)
         (attempt Dup2 (dup2_ok os)
            (Close pipefd1 ::
             exec_helper os
               (helper_args os cfg formatted_message formatted_secondary)))) in
  Close pipefd0 ::
  match getpwuid os target_uid with
  | Some pw =>
      let target_gid := pw_gid pw in
      Setenv "HOME" (pw_dir pw) ::
      Setenv "USER" (pw_name pw) ::
      Setenv "LOGNAME" (pw_name pw) ::
      attempt (Initgroups (pw_name pw) target_gid)
              (initgroups_ok os (pw_name pw) target_gid)
              (drop target_gid)
  | None => drop target_gid
  end.

Definition is_execv (c : call) : bool :=
  match c with Execv _ _ => true | _ => false end.

Definition is_write (c : call) : bool :=
  match c with Write _ => true | _ => false end.

Definition is_exit (c : call) : bool :=
  match c with Exit _ => true | _ => false end.

(** The calls that change the identity of the process. *)
Definition is_identity_call (c : call) : bool :=
  match c with
  | Initgroups _ _ | Setgid _ | Setuid _ => true
  | _ => false
  end.

Definition written (c : call) : list ascii :=
  match c with Write data => data | _ => [] end.

(** The bytes the pipe holds when the parent reads from it: what the
    exec'ed program has written by then when [execv] succeeded, else what the
    child itself wrote (its only write, of five bytes, comes after [dup2] and
    right before it exits). *)
Definition channel_content (os : Os) (child_calls : list call) : list ascii :=
  if existsb is_exit child_calls then
    if write_ok os then flat_map written child_calls else []
  else pipe_at_read os.

(** ** The parent side of [run_helper] *)

(** [select] on the read end with timeout [tv]: an error gives -1, a read
    end that becomes readable (data or end of file) within the timeout gives
    1, the timeout running out gives 0. *)
Definition select_ (os : Os) (tv_sec tv_usec : Z) : Z :=
  if (tv_sec <? 0) || select_error os then -1
  else
    match ready_at os with
    | Some t => if t <=? tv_sec * 1000000 + tv_usec then 1 else 0
    | None => 0
    end.

(** [read] of at most [count] bytes from a pipe holding [content]: the
    count returned and the bytes stored. *)
Definition read_ (os : Os) (content : list ascii) (count : Z)
  : Z * list ascii :=
  if read_error os then (-1, [])
  else
    let data := firstn (Z.to_nat count) content in
    (Z.of_nat (List.length data), data).

(** [char result[16]] as the declaration leaves it. *)
Definition result_buffer (os : Os) : list ascii :=
  firstn 16 (stack_garbage os ++ repeat NUL 16).

(** [result] after the read, [result[n] = 0] and
    [result[strcspn(result, "\n\r")] = 0]. *)
Definition parse_result (os : Os) (data : list ascii) : list ascii :=
  let result := data ++ skipn (List.length data) (result_buffer os) in
  let result := store result (List.length data) NUL in
  store result (strcspn result [LF; CR]) NUL.

Definition logged (cfg : confirm_config_t) (c : call) : list call :=
  if log_attempts cfg =? 0 then [] else [c].

(** The parent after [fork], from [close(pipefd[1])] on: its calls and the
    value returned. *)
Definition run_helper_parent (os : Os) (cfg : confirm_config_t)
    (user service : string) (content : list ascii) : list call * pam_code :=
  let pid := fork_pid os in
  let tv_sec := wrap_int (timeout cfg + 5) in
  let sel := select_ os tv_sec 0 in
  if sel <=? 0 then
    ([Close pipefd1; Select tv_sec 0; Kill pid SIGKILL; Waitpid pid;
      Close pipefd0]
     ++ logged cfg (Syslog LOG_WARNING
                      ("pam_sentinel: helper timeout for user " ++ user
                       ++ ", service " ++ service)),
     PAM_AUTH_ERR)
  else
    let '(n, data) := read_ os content 15 in
    let calls := [Close pipefd1; Select tv_sec 0; Read 15; Close pipefd0;
                  Waitpid pid] in
    if n <=? 0 then
      (calls ++ logged cfg (Syslog LOG_WARNING
                              ("pam_sentinel: helper returned no result for user "
                               ++ user ++ ", service " ++ service)),
       PAM_AUTH_ERR)
    else
      let result := parse_result os data in
      let calls :=
        calls ++ logged cfg (Syslog LOG_INFO
                               ("pam_sentinel: user " ++ user ++ ", service "
                                ++ service ++ ", process " ++ process_name os
                                ++ ": " ++ string_of_list_ascii (c_str result))) in
      if str_equal result (bytes "ALLOW") then (calls, PAM_SUCCESS)
      else (calls, PAM_AUTH_ERR).

(** What a call of the module leaves: the value returned and the calls made
    by the parent and by the child. *)
Record Run : Type := mkRun {
  ret : pam_code;
  parent_calls : list call;
  child_calls : list call
}.

(** [run_helper] *)
Definition run_helper (os : Os) (cfg : confirm_config_t) (user service : string)
  : Run :=
  let formatted_message :=
    format_message (message cfg) 512 user service (process_name os) in
  let formatted_secondary :=
    format_message (secondary cfg) 512 user service (process_name os) in
  if negb (pipe_ok os) then
    {| ret := PAM_SYSTEM_ERR;
       parent_calls := [Pipe; Syslog LOG_ERR "pam_sentinel: pipe() failed"];
       child_calls := [] |}
  else if fork_pid os <? 0 then
    {| ret := PAM_SYSTEM_ERR;
       parent_calls := [Pipe; Fork; Syslog LOG_ERR "pam_sentinel: fork() failed";
                        Close pipefd0; Close pipefd1];
       child_calls := [] |}
  else
    let c := child os cfg user formatted_message formatted_secondary in
    let '(p, r) := run_helper_parent os cfg user service (channel_content os c) in
    {| ret := r; parent_calls := Pipe :: Fork :: p; child_calls := c |}.

(** The service name: [PAM_SERVICE], or "unknown" when the item is missing. *)
Definition service_name (os : Os) : string :=
  match pam_get_item_service os with
  | (PAM_SUCCESS, Some service) => service
  | _ => "unknown"
  end.

(** The uid whose runtime directory is searched for a display. *)
Definition display_uid (os : Os) (user : string) : Z :=
  match getpwnam os user with
  | Some pw => pw_uid pw
  | None => getuid os
  end.

(** [pam_sm_authenticate] *)
Definition pam_sm_authenticate (os : Os) : Run :=
  match pam_get_user os with
  | (PAM_SUCCESS, Some user) =>
      let service := service_name os in
      let cfg := load_config os service in
      if enabled cfg =? 0 then
        {| ret := PAM_IGNORE;
           parent_calls := [Syslog LOG_DEBUG
                              ("pam_sentinel: disabled for service " ++ service)];
           child_calls := [] |}
      else
        let target_uid := display_uid os user in
        let '(found, env_calls) := has_display os target_uid in
        if negb found then
          if String.eqb (headless_action cfg) "allow" then
            {| ret := PAM_SUCCESS;
               parent_calls :=
                 env_calls ++ [Syslog LOG_WARNING
                   ("pam_sentinel: no display, allowing (service " ++ service
                    ++ ", user " ++ user ++ ")")];
               child_calls := [] |}
          else if String.eqb (headless_action cfg) "deny" then
            {| ret := PAM_AUTH_ERR;
               parent_calls :=
                 env_calls ++ [Syslog LOG_INFO
                   ("pam_sentinel: no display, denying (service " ++ service
                    ++ ", user " ++ user ++ ")")];
               child_calls := [] |}
          else
            {| ret := PAM_IGNORE;
               parent_calls :=
                 env_calls ++ [Syslog LOG_DEBUG
                   ("pam_sentinel: no display, falling back to password (service "
                    ++ service ++ ")")];
               child_calls := [] |}
        else
          let r := run_helper os cfg user service in
          {| ret := ret r;
             parent_calls := env_calls ++ parent_calls r;
             child_calls := child_calls r |}
  | _ =>
      {| ret := PAM_USER_UNKNOWN;
         parent_calls := [Syslog LOG_ERR "pam_sentinel: cannot get username"];
         child_calls := [] |}
  end.

(** [pam_sm_setcred] *)
Definition pam_sm_setcred : pam_code := PAM_SUCCESS.

(** A process is spawned by [fork]. *)
Definition is_spawn (c : call) : bool :=
  match c with Fork => true | _ => false end.

End Pam.

(** * Vocabulary of the statements *)

(** The deciding inputs of the dialog: accept, decline, a key press, a close
    request, and a tick at which the countdown has expired. *)
Definition deciding (self : Confirm.ConfirmWindow) (i : Confirm.Input) : bool :=
  match i with
  | Confirm.TimerTick now => Confirm.expired self now
  | _ => true
  end.

(** The parameters and the callback of a window, which no handler changes. *)
Definition same_setup (a b : Confirm.ConfirmWindow) : Prop :=
  Confirm.start_time b = Confirm.start_time a /\
  Confirm.timeout b = Confirm.timeout a /\
  Confirm.min_display_time b = Confirm.min_display_time a /\
  Confirm.on_result b = Confirm.on_result a.

(** What holds of every window made by [confirm_window_new], whatever inputs
    it got: a timer source exists only under a timer id, and a window that
    sent its result is destroyed and has no timer. *)
Definition consistent (w : Confirm.ConfirmWindow) : Prop :=
  (Confirm.timer_id w = 0 -> Confirm.timer_source w = false) /\
  (Confirm.result_sent w = true ->
   Confirm.destroyed w = true /\ Confirm.timer_id w = 0).

(** One line holding the token of a result. *)
Definition token_line (r : Confirm.Result) : list ascii :=
  bytes (Confirm.to_string r) ++ [LF].

(** What a process that prints the token of [r] leaves. *)
Definition exit_of (r : Confirm.Result) : Helper.Exit :=
  {| Helper.stdout := token_line r;
     Helper.status := if Confirm.Result_eqb r Confirm.Allow
                      then Helper.EXIT_SUCCESS else Helper.EXIT_FAILURE |}.

(** The end of the process from the results handed to the callback: none
    handed over, the process still runs; else it prints the first. *)
Definition exit_of_calls (calls : list Confirm.Result) : option Helper.Exit :=
  match calls with
  | [] => None
  | r :: _ => Some (exit_of r)
  end.

(** The process got past argument parsing and the display check of [main]. *)
Definition started (env : Helper.Env) : bool :=
  match Helper.parse_args env, Helper.WAYLAND_DISPLAY env with
  | Some _, Some (String _ _) => true
  | _, _ => false
  end.

(** The connections of a session lock, which no signal changes: the
    instance, the handlers of "failed" and "monitor" and their callbacks. *)
Definition same_wiring (a b : Wayland.SessionLock) : Prop :=
  Wayland.instance_ b = Wayland.instance_ a /\
  Wayland.failed_handler_id_ b = Wayland.failed_handler_id_ a /\
  Wayland.failed_callback_ b = Wayland.failed_callback_ a /\
  Wayland.monitor_handler_id_ b = Wayland.monitor_handler_id_ a /\
  Wayland.monitor_callback_ b = Wayland.monitor_callback_ a.

(** What every dispatch keeps: the wiring of the lock, the configuration,
    and a quit once requested. *)
Definition steady (s t : Helper.AppState) : Prop :=
  same_wiring (Helper.session_lock s) (Helper.session_lock t) /\
  Helper.config t = Helper.config s /\
  (Helper.quit s = true -> Helper.quit t = true).

(** A "monitor" signal from its monitor, the clock and the random bit read
    when the dialog is made for it. *)
Definition monitor_signal (x : Z * Z * bool) : Helper.Event :=
  Helper.MonitorSignal (fst (fst x)) (snd (fst x)) (snd x).

Definition is_dialog (w : Helper.LockWindow) : bool :=
  match w with Helper.Dialog => true | _ => false end.

(** The lock windows assigned so far, without their monitors. *)
Definition lock_windows (s : Helper.AppState) : list Helper.LockWindow :=
  map snd (Helper.assigned s).

(** The cover window of [monitor_callback]. *)
Definition cover : Helper.LockWindow :=
  Helper.Blank false "window { background: #1a1a1a; }".

(** The windows of the lock: none while the first monitor is awaited, then
    the dialog followed by covers only. *)
Definition prompt_first (s : Helper.AppState) : Prop :=
  (Helper.first_monitor s = true /\ lock_windows s = []) \/
  (Helper.first_monitor s = false /\
   exists k, lock_windows s = Helper.Dialog :: repeat cover k).

(** Whether an identity call of the child succeeds. *)
Definition call_ok (os : Pam.Os) (c : Pam.call) : bool :=
  match c with
  | Pam.Initgroups user group => Pam.initgroups_ok os user group
  | Pam.Setgid gid => Pam.setgid_ok os gid
  | Pam.Setuid uid => Pam.setuid_ok os uid
  | _ => true
  end.

Definition is_initgroups (c : Pam.call) : bool :=
  match c with Pam.Initgroups _ _ => true | _ => false end.

Definition is_kill (c : Pam.call) : bool :=
  match c with Pam.Kill _ _ => true | _ => false end.

(** The deadline passed without the read end of the pipe becoming
    readable: it never does, or later than [timeout + 5] seconds. *)
Definition deadline_missed (os : Pam.Os) (cfg : Pam.confirm_config_t) : Prop :=
  match Pam.ready_at os with
  | None => True
  | Some t => (Pam.timeout cfg + 5) * 1000000 < t
  end.

(** [l] ends with [suffix]. *)
Definition ends_with (l suffix : list Pam.call) : Prop :=
  exists pre, l = pre ++ suffix.

(** The identity calls the child issues when none of them fails, in the
    order it issues them: [initgroups] is among them only when the password
    entry of the target uid is found. *)
Definition identity_calls (os : Pam.Os) (user : string) : list Pam.call :=
  let '(target_uid, target_gid) := Pam.target_identity os user in
  match Pam.getpwuid os target_uid with
  | Some pw =>
      [Pam.Initgroups (Pam.pw_name pw) (Pam.pw_gid pw);
       Pam.Setgid (Pam.pw_gid pw); Pam.Setuid target_uid]
  | None => [Pam.Setgid target_gid; Pam.Setuid target_uid]
  end.

(** The result the headless policy gives. *)
Definition headless_outcome (action : string) : Pam.pam_code :=
  if String.eqb action "allow" then Pam.PAM_SUCCESS
  else if String.eqb action "deny" then Pam.PAM_AUTH_ERR
  else Pam.PAM_IGNORE.

(** The first line of the bytes read, as the module cuts it: up to the first
    NUL, line feed or carriage return. *)
Definition first_line (data : list ascii) : list ascii :=
  Pam.take_until [NUL; LF; CR] data.

(** Following the words of the specification: the content of the decision
    channel is well formed when it is exactly one of the three tokens followed
    by a newline. *)
Definition spec_well_formed (content : list ascii) : bool :=
  existsb (fun r => String.eqb (string_of_list_ascii content)
                               (string_of_list_ascii (token_line r)))
          [Confirm.Allow; Confirm.Deny; Confirm.Timeout].

(** Following the words of the specification: the first line of the content
    is what precedes the first newline. *)
Definition spec_first_line (content : list ascii) : list ascii :=
  Pam.take_until [LF] content.

(** * The dialog: facts about [send_result] and the handlers *)

(** * More of the code *)

(** ** libc: [atoi], [tolower], [strcasecmp] *)

Module Libc.

Definition code (c : ascii) : Z := Z.of_N (N_of_ascii c).

(** [isspace] in the C locale: space and the controls 9 to 13. *)
Definition isspace (c : ascii) : bool :=
  (code c =? 32) || ((9 <=? code c) && (code c <=? 13)).

Definition isdigit (c : ascii) : bool :=
  (48 <=? code c) && (code c <=? 57).

(** The value of the leading decimal digits of [s], continuing [acc]. *)
Fixpoint digits (acc : Z) (s : list ascii) : Z :=
  match s with
  | c :: rest => if isdigit c then digits (10 * acc + (code c - 48)) rest else acc
  | [] => acc
  end.

Fixpoint skip_space (s : list ascii) : list ascii :=
  match s with
  | c :: rest => if isspace c then skip_space rest else s
  | [] => []
  end.

(** The number [atoi] and [strtol] read from a text: leading white space,
    an optional sign, decimal digits; 0 when there is no digit.  This is the
    number itself, without bound; it is what [atoi] returns when the number
    is an [int]. *)
Definition atoi_bytes (s : list ascii) : Z :=
  match skip_space s with
  | c :: rest =>
      if Ascii.eqb c "-"%char then - digits 0 rest
      else if Ascii.eqb c "+"%char then digits 0 rest
      else digits 0 (c :: rest)
  | [] => 0
  end.

(** [std::atoi] on an argument of the helper, as the number it reads: the
    PAM module passes the helper the ["%d"] text of an [int]. *)
Definition atoi (s : string) : Z := atoi_bytes (bytes s).

Definition LONG_MAX : Z := 9223372036854775807.
Definition LONG_MIN : Z := -9223372036854775808.

(** [strtol(s, NULL, 10)]: the number read, or the nearest [long] when the
    number is none. *)
Definition strtol (s : list ascii) : Z :=
  Z.max LONG_MIN (Z.min LONG_MAX (atoi_bytes s)).

(** [atoi] as the C library of the module computes it for every text,
    [(int) strtol(s, NULL, 10)]: a number that is no [int] is cut to its low
    32 bits. *)
Definition atoi_int (s : list ascii) : Z := Pam.wrap_int (strtol s).

(** [tolower] in the C locale. *)
Definition tolower (c : ascii) : ascii :=
  if (65 <=? code c) && (code c <=? 90)
  then ascii_of_N (N_of_ascii c + 32) else c.

Fixpoint bytes_eqb (a b : list ascii) : bool :=
  match a, b with
  | [], [] => true
  | x :: a', y :: b' => Ascii.eqb x y && bytes_eqb a' b'
  | _, _ => false
  end.

(** [strcasecmp(a, b) == 0] *)
Definition strcasecmp_eq (a b : list ascii) : bool :=
  bytes_eqb (map tolower a) (map tolower b).

End Libc.

(** ** [src/helper/main.cpp]: [parse_args] *)

Module HelperArgs.
Import Confirm.
Import Helper.

Definition with_params (config : AppConfig) (p : WindowParams) : AppConfig :=
  {| params := p; use_session_lock := use_session_lock config |}.

Definition set_title (config : AppConfig) (v : string) : AppConfig :=
  let p := params config in
  with_params config
    (mkParams v (wp_message p) (wp_secondary p) (wp_process_exe p)
              (wp_timeout p) (wp_min_display_time p) (wp_randomize p)).

Definition set_message (config : AppConfig) (v : string) : AppConfig :=
  let p := params config in
  with_params config
    (mkParams (wp_title p) v (wp_secondary p) (wp_process_exe p)
              (wp_timeout p) (wp_min_display_time p) (wp_randomize p)).

Definition set_secondary (config : AppConfig) (v : string) : AppConfig :=
  let p := params config in
  with_params config
    (mkParams (wp_title p) (wp_message p) v (wp_process_exe p)
              (wp_timeout p) (wp_min_display_time p) (wp_randomize p)).

Definition set_process_exe (config : AppConfig) (v : string) : AppConfig :=
  let p := params config in
  with_params config
    (mkParams (wp_title p) (wp_message p) (wp_secondary p) (Some v)
              (wp_timeout p) (wp_min_display_time p) (wp_randomize p)).

Definition set_timeout (config : AppConfig) (v : Z) : AppConfig :=
  let p := params config in
  with_params config
    (mkParams (wp_title p) (wp_message p) (wp_secondary p) (wp_process_exe p)
              v (wp_min_display_time p) (wp_randomize p)).

Definition set_min_display_time (config : AppConfig) (v : Z) : AppConfig :=
  let p := params config in
  with_params config
    (mkParams (wp_title p) (wp_message p) (wp_secondary p) (wp_process_exe p)
              (wp_timeout p) v (wp_randomize p)).

Definition set_randomize (config : AppConfig) : AppConfig :=
  let p := params config in
  with_params config
    (mkParams (wp_title p) (wp_message p) (wp_secondary p) (wp_process_exe p)
              (wp_timeout p) (wp_min_display_time p) true).

Definition set_no_session_lock (config : AppConfig) : AppConfig :=
  {| params := params config; use_session_lock := false |}.

(** The loop of [parse_args] over [argv[i..]].  An option that takes a
    value consumes the next argument when there is one; without one it
    matches no branch and is skipped, like any unknown argument.  [None] is
    [std::nullopt], returned for --help and -h. *)
Fixpoint parse_loop (args : list string) (config : AppConfig)
  : option AppConfig :=
  match args with
  | [] => Some config
  | arg :: rest =>
      if String.eqb arg "--help" || String.eqb arg "-h" then None
      else
        match rest with
        | v :: rest' =>
            if String.eqb arg "--title" then parse_loop rest' (set_title config v)
            else if String.eqb arg "--message"
            then parse_loop rest' (set_message config v)
            else if String.eqb arg "--secondary"
            then parse_loop rest' (set_secondary config v)
            else if String.eqb arg "--process-exe"
            then parse_loop rest' (set_process_exe config v)
            else if String.eqb arg "--timeout"
            then parse_loop rest' (set_timeout config (Libc.atoi v))
            else if String.eqb arg "--min-time"
            then parse_loop rest' (set_min_display_time config (Libc.atoi v))
            else if String.eqb arg "--randomize"
            then parse_loop rest (set_randomize config)
            else if String.eqb arg "--no-session-lock"
            then parse_loop rest (set_no_session_lock config)
            else parse_loop rest config
        | [] =>
            if String.eqb arg "--randomize" then Some (set_randomize config)
            else if String.eqb arg "--no-session-lock"
            then Some (set_no_session_lock config)
            else Some config
        end
  end.

(** The [AppConfig] [parse_args] starts from. *)
Definition default_config : AppConfig :=
  {| params := default_params; use_session_lock := true |}.

(** [parse_args(argc, argv)]: the loop starts after [argv[0]]. *)
Definition parse_args (argv : list string) : option AppConfig :=
  parse_loop (tl argv) default_config.

End HelperArgs.

(** ** [src/pam/pam_sentinel.c]: [parse_bool], [strip], [load_config] *)

Module Config.
Import Pam.

(** [parse_bool]; [None] is a null pointer. *)
Definition parse_bool (val : option (list ascii)) : Z :=
  match val with
  | None => 0
  | Some v =>
      if Libc.strcasecmp_eq v (bytes "yes")
         || Libc.strcasecmp_eq v (bytes "true")
         || Libc.strcasecmp_eq v (bytes "1")
      then 1 else 0
  end.

Definition is_blank (c : ascii) : bool := ascii_in c [" "%char; "009"%char].

Definition is_trailing (c : ascii) : bool :=
  ascii_in c [" "%char; "009"%char; LF; CR].

(** The first loop of [strip]: leading spaces and tabs are skipped. *)
Fixpoint skip_blanks (s : list ascii) : list ascii :=
  match s with
  | c :: rest => if is_blank c then skip_blanks rest else s
  | [] => []
  end.

(** [s] without its longest suffix of trailing characters. *)
Fixpoint drop_trailing (s : list ascii) : list ascii :=
  match s with
  | [] => []
  | c :: rest =>
      match drop_trailing rest with
      | [] => if is_trailing c then [] else [c]
      | kept => c :: kept
      end
  end.

(** [strip]: the string the returned pointer denotes.  The loop that cuts
    the end stops at the first character ([end > s]), which is kept whatever
    it is. *)
Definition strip (s : list ascii) : list ascii :=
  match skip_blanks s with
  | [] => []
  | c :: rest => c :: drop_trailing rest
  end.

(** [strchr(s, c)]: the string before the first [c] and the string after
    it, when there is one. *)
Fixpoint split_at (c : ascii) (s : list ascii)
  : option (list ascii * list ascii) :=
  match s with
  | [] => None
  | x :: rest =>
      if Ascii.eqb x c then Some ([], rest)
      else
        match split_at c rest with
        | Some (before, after) => Some (x :: before, after)
        | None => None
        end
  end.

(** [snprintf(buf, size, "%s", v)]: at most [size - 1] bytes are stored. *)
Definition snprintf_s (size : nat) (v : list ascii) : list ascii :=
  firstn (size - 1) v.

(** The locals of [load_config] that live across lines. *)
Record parser : Type := mkParser {
  cfg : confirm_config_t;
  section : list ascii;        (* char section[64] *)
  service_cfg : list ascii;    (* char service_cfg[256] *)
  found_service : bool
}.

Definition with_cfg (st : parser) (c : confirm_config_t) : parser :=
  {| cfg := c; section := section st; service_cfg := service_cfg st;
     found_service := found_service st |}.

Definition set_enabled (c : confirm_config_t) (v : Z) : confirm_config_t :=
  mkCfg v (timeout c) (randomize_buttons c) (show_process_info c)
        (log_attempts c) (min_display_time c) (headless_action c)
        (title c) (message c) (secondary c).

Definition set_timeout (c : confirm_config_t) (v : Z) : confirm_config_t :=
  mkCfg (enabled c) v (randomize_buttons c) (show_process_info c)
        (log_attempts c) (min_display_time c) (headless_action c)
        (title c) (message c) (secondary c).

Definition set_randomize_buttons (c : confirm_config_t) (v : Z)
  : confirm_config_t :=
  mkCfg (enabled c) (timeout c) v (show_process_info c)
        (log_attempts c) (min_display_time c) (headless_action c)
        (title c) (message c) (secondary c).

Definition set_show_process_info (c : confirm_config_t) (v : Z)
  : confirm_config_t :=
  mkCfg (enabled c) (timeout c) (randomize_buttons c) v
        (log_attempts c) (min_display_time c) (headless_action c)
        (title c) (message c) (secondary c).

Definition set_log_attempts (c : confirm_config_t) (v : Z) : confirm_config_t :=
  mkCfg (enabled c) (timeout c) (randomize_buttons c) (show_process_info c)
        v (min_display_time c) (headless_action c)
        (title c) (message c) (secondary c).

Definition set_min_display_time (c : confirm_config_t) (v : Z)
  : confirm_config_t :=
  mkCfg (enabled c) (timeout c) (randomize_buttons c) (show_process_info c)
        (log_attempts c) v (headless_action c)
        (title c) (message c) (secondary c).

Definition set_headless_action (c : confirm_config_t) (v : list ascii)
  : confirm_config_t :=
  mkCfg (enabled c) (timeout c) (randomize_buttons c) (show_process_info c)
        (log_attempts c) (min_display_time c)
        (string_of_list_ascii (snprintf_s 32 v))
        (title c) (message c) (secondary c).

Definition set_title (c : confirm_config_t) (v : list ascii) : confirm_config_t :=
  mkCfg (enabled c) (timeout c) (randomize_buttons c) (show_process_info c)
        (log_attempts c) (min_display_time c) (headless_action c)
        (string_of_list_ascii (snprintf_s 256 v)) (message c) (secondary c).

Definition set_message (c : confirm_config_t) (v : list ascii)
  : confirm_config_t :=
  mkCfg (enabled c) (timeout c) (randomize_buttons c) (show_process_info c)
        (log_attempts c) (min_display_time c) (headless_action c)
        (title c) (string_of_list_ascii (snprintf_s 512 v)) (secondary c).

Definition set_secondary (c : confirm_config_t) (v : list ascii)
  : confirm_config_t :=
  mkCfg (enabled c) (timeout c) (randomize_buttons c) (show_process_info c)
        (log_attempts c) (min_display_time c) (headless_action c)
        (title c) (message c) (string_of_list_ascii (snprintf_s 512 v)).

Definition key_is (key : list ascii) (name : string) : bool :=
  Libc.bytes_eqb key (bytes name).

(** A key of the [general] section. *)
Definition general_key (c : confirm_config_t) (key val : list ascii)
  : confirm_config_t :=
  if key_is key "enabled" then set_enabled c (parse_bool (Some val))
  else if key_is key "timeout" then set_timeout c (Libc.atoi_int val)
  else if key_is key "randomize_buttons"
  then set_randomize_buttons c (parse_bool (Some val))
  else if key_is key "show_process_info"
  then set_show_process_info c (parse_bool (Some val))
  else if key_is key "log_attempts"
  then set_log_attempts c (parse_bool (Some val))
  else if key_is key "min_display_time"
  then set_min_display_time c (Libc.atoi_int val)
  else if key_is key "headless_action" then set_headless_action c val
  else c.

(** A key of the [appearance] section. *)
Definition appearance_key (c : confirm_config_t) (key val : list ascii)
  : confirm_config_t :=
  if key_is key "title" then set_title c val
  else if key_is key "message" then set_message c val
  else if key_is key "secondary" then set_secondary c val
  else c.

(** The body of the [while (fgets(...))] loop for one line read. *)
Definition process_line (service : list ascii) (st : parser)
    (line : list ascii) : parser :=
  let l := strip (c_str line) in
  match l with
  | [] => st
  | first :: _ =>
      if Ascii.eqb first "#"%char then st
      else if Ascii.eqb first "["%char then
        match split_at "]"%char l with
        | Some (before, _) =>
            {| cfg := cfg st; section := snprintf_s 64 (tl before);
               service_cfg := service_cfg st;
               found_service := found_service st |}
        | None => st
        end
      else
        match split_at "="%char l with
        | None => st
        | Some (before, after) =>
            let key := strip before in
            let val := strip after in
            if key_is (section st) "general"
            then with_cfg st (general_key (cfg st) key val)
            else if key_is (section st) "services" then
              if Libc.bytes_eqb key service then
                {| cfg := cfg st; section := section st;
                   service_cfg := snprintf_s 256 val; found_service := true |}
              else st
            else if key_is (section st) "appearance"
            then with_cfg st (appearance_key (cfg st) key val)
            else st
        end
  end.

(** The lines [fgets(line, MAX_LINE, f)] returns for a file: each ends
    after a newline or after 1023 bytes.  [cur] holds the bytes of the line
    being read, last first, and [n] their number. *)
Fixpoint fgets_lines (content : list ascii) (cur : list ascii) (n : nat)
  : list (list ascii) :=
  match content with
  | [] => match cur with [] => [] | _ => [rev cur] end
  | c :: rest =>
      if Ascii.eqb c LF || Nat.eqb (S n) 1023
      then rev (c :: cur) :: fgets_lines rest [] 0
      else fgets_lines rest (c :: cur) (S n)
  end.

(** The tokens [strtok_r(s, ",", ...)] yields: the non-empty runs between
    commas.  [cur] holds the run being read, last first. *)
Fixpoint strtok_commas (s : list ascii) (cur : list ascii)
  : list (list ascii) :=
  match s with
  | [] => match cur with [] => [] | _ => [rev cur] end
  | c :: rest =>
      if Ascii.eqb c ","%char then
        match cur with
        | [] => strtok_commas rest []
        | _ => rev cur :: strtok_commas rest []
        end
      else strtok_commas rest (c :: cur)
  end.

(** One token of the service line, at index [field]. *)
Definition override_field (c : confirm_config_t) (field : nat)
    (token : list ascii) : confirm_config_t :=
  let v := strip token in
  if Libc.bytes_eqb v (bytes "default") then c
  else
    match field with
    | 0%nat => set_enabled c (parse_bool (Some v))
    | 1%nat => set_timeout c (Libc.atoi_int v)
    | 2%nat => set_randomize_buttons c (parse_bool (Some v))
    | _ => c
    end.

Fixpoint override_fields (c : confirm_config_t) (field : nat)
    (tokens : list (list ascii)) : confirm_config_t :=
  match tokens with
  | [] => c
  | token :: rest => override_fields (override_field c field token) (S field) rest
  end.

(** The service-specific part of [load_config]; [strdup_ok] tells whether
    [strdup] returned a copy. *)
Definition apply_service (strdup_ok : bool) (st : parser) : confirm_config_t :=
  match service_cfg st with
  | [] => cfg st
  | _ :: _ =>
      if found_service st && strdup_ok
      then override_fields (cfg st) 0 (strtok_commas (service_cfg st) [])
      else cfg st
  end.

(** [load_config]: [file] is the content of the configuration file, [None]
    when it cannot be opened. *)
Definition load_config (file : option (list ascii)) (strdup_ok : bool)
    (service : string) : confirm_config_t :=
  match file with
  | None => default_config
  | Some content =>
      apply_service strdup_ok
        (fold_left (process_line (bytes service))
                   (fgets_lines content [] 0)
                   {| cfg := default_config; section := [];
                      service_cfg := []; found_service := false |})
  end.

End Config.

(** ** Vocabulary for the rest of the code *)

(** The text holds no percent sign. *)
Definition no_percent (s : string) : bool :=
  forallb (fun c => negb (Ascii.eqb c "%"%char)) (bytes s).

(** Plain text of a template: no percent sign, and no NUL, which would end
    the C string. *)
Definition plain_text (s : string) : bool :=
  forallb (fun c => negb (Ascii.eqb c "%"%char) && negb (Ascii.eqb c NUL))
          (bytes s).

(** The text a substitution stands for: the user for [u], the service for
    [s], the process for [p]. *)
Definition directive_value (d : ascii) (user service process : string)
  : option string :=
  if Ascii.eqb d "u"%char then Some user
  else if Ascii.eqb d "s"%char then Some service
  else if Ascii.eqb d "p"%char then Some process
  else None.

(** A string of one character. *)
Definition char_string (c : ascii) : string := String c EmptyString.

(** The lock flag the library keeps is set only on an instance in the state
    Locked. *)
Definition lock_tracked (s : Helper.AppState) : Prop :=
  Wayland.instance_is_locked (Helper.session_lock s) = true ->
  Wayland.instance_ (Helper.session_lock s) = true /\
  Wayland.state_ (Helper.session_lock s) = Wayland.LockState.Locked.

(** The lock instance of the process is not locked. *)
Definition lock_released (s : Helper.AppState) : Prop :=
  Wayland.instance_is_locked (Helper.session_lock s) = false.

(** Kinds of calls of the parent. *)
Definition is_waitpid (c : Pam.call) : bool :=
  match c with Pam.Waitpid _ => true | _ => false end.

Definition is_read (c : Pam.call) : bool :=
  match c with Pam.Read _ => true | _ => false end.

Definition is_close (fd : Pam.pipe_end) (c : Pam.call) : bool :=
  match c, fd with
  | Pam.Close Pam.pipefd0, Pam.pipefd0 => true
  | Pam.Close Pam.pipefd1, Pam.pipefd1 => true
  | _, _ => false
  end.

Definition is_setenv (c : Pam.call) : bool :=
  match c with Pam.Setenv _ _ => true | _ => false end.

(** How often a kind of call occurs. *)
Definition count (f : Pam.call -> bool) (calls : list Pam.call) : nat :=
  List.length (filter f calls).

(** Everything the child does up to the exec worked: the identity calls it
    issues, [dup2] and [execv]. *)
Definition child_reaches_helper (os : Pam.Os) (user : string) : bool :=
  forallb (call_ok os) (identity_calls os user)
  && Pam.dup2_ok os && Pam.execv_ok os.

(** A directory entry [find_wayland_display] takes for a display socket. *)
Definition is_socket_name (d_name : string) : bool :=
  String.prefix "wayland-" d_name && negb (Pam.strstr d_name ".lock").

(** A value of a configuration flag: 0 or 1. *)
Definition is_flag (z : Z) : Prop := z = 0 \/ z = 1.

(** The configuration fits its structure: the four flags are 0 or 1, and
    each text leaves room for the terminating NUL in its array
    ([headless_action[32]], [title[256]], [message[512]],
    [secondary[512]]). *)
Definition cfg_fits (c : Pam.confirm_config_t) : Prop :=
  is_flag (Pam.enabled c) /\ is_flag (Pam.randomize_buttons c) /\
  is_flag (Pam.show_process_info c) /\ is_flag (Pam.log_attempts c) /\
  (String.length (Pam.headless_action c) <= 31)%nat /\
  (String.length (Pam.title c) <= 255)%nat /\
  (String.length (Pam.message c) <= 511)%nat /\
  (String.length (Pam.secondary c) <= 511)%nat.

(** The members a line of the services section cannot change. *)
Definition same_but_service (a b : Pam.confirm_config_t) : Prop :=
  Pam.show_process_info b = Pam.show_process_info a /\
  Pam.log_attempts b = Pam.log_attempts a /\
  Pam.min_display_time b = Pam.min_display_time a /\
  Pam.headless_action b = Pam.headless_action a /\
  Pam.title b = Pam.title a /\
  Pam.message b = Pam.message a /\
  Pam.secondary b = Pam.secondary a.

(** The state [load_config] starts the file with. *)
Definition initial_parser : Config.parser :=
  {| Config.cfg := Pam.default_config; Config.section := [];
     Config.service_cfg := []; Config.found_service := false |}.

(** A character of a number printed with ["%d"]. *)
Definition number_char (c : ascii) : bool :=
  Libc.isdigit c || Ascii.eqb c "-"%char.

(** A configuration file of two lines: the header of the general section
    and a timeout given as the decimal text of [z]. *)
Definition timeout_file (z : Z) : list ascii :=
  bytes "[general]" ++ LF :: bytes "timeout = "
    ++ bytes (Pam.int_to_string z) ++ [LF].

Definition is_syslog (c : Pam.call) : bool :=
  match c with Pam.Syslog _ _ => true | _ => false end.

(** The line the parent logs for a result read from the helper. *)
Definition result_log (os : Pam.Os) (user service result : string) : Pam.call :=
  Pam.Syslog Pam.LOG_INFO
    ("pam_sentinel: user " ++ user ++ ", service " ++ service ++ ", process "
     ++ Pam.process_name os ++ ": " ++ result)%string.

(** The same surroundings with a [select] that fails, as it does when a
    signal interrupts it. *)
Definition with_select_error (os : Pam.Os) : Pam.Os :=
  {| Pam.HELPER_PATH := Pam.HELPER_PATH os;
     Pam.pam_get_user := Pam.pam_get_user os;
     Pam.pam_get_item_service := Pam.pam_get_item_service os;
     Pam.load_config := Pam.load_config os;
     Pam.getenv_WAYLAND_DISPLAY := Pam.getenv_WAYLAND_DISPLAY os;
     Pam.getenv_XDG_RUNTIME_DIR := Pam.getenv_XDG_RUNTIME_DIR os;
     Pam.getenv_SUDO_UID := Pam.getenv_SUDO_UID os;
     Pam.getenv_PKEXEC_UID := Pam.getenv_PKEXEC_UID os;
     Pam.atoi := Pam.atoi os;
     Pam.getuid := Pam.getuid os;
     Pam.getgid := Pam.getgid os;
     Pam.getpwnam := Pam.getpwnam os;
     Pam.getpwuid := Pam.getpwuid os;
     Pam.readdir_run_user := Pam.readdir_run_user os;
     Pam.process_name := Pam.process_name os;
     Pam.process_exe := Pam.process_exe os;
     Pam.pipe_ok := Pam.pipe_ok os;
     Pam.fork_pid := Pam.fork_pid os;
     Pam.initgroups_ok := Pam.initgroups_ok os;
     Pam.setgid_ok := Pam.setgid_ok os;
     Pam.setuid_ok := Pam.setuid_ok os;
     Pam.dup2_ok := Pam.dup2_ok os;
     Pam.execv_ok := Pam.execv_ok os;
     Pam.write_ok := Pam.write_ok os;
     Pam.pipe_at_read := Pam.pipe_at_read os;
     Pam.ready_at := Pam.ready_at os;
     Pam.select_error := true;
     Pam.read_error := Pam.read_error os;
     Pam.stack_garbage := Pam.stack_garbage os |}.



(** * Concrete inputs *)

(** A user of the password database. *)
Definition alice : Pam.passwd :=
  {| Pam.pw_name := "alice"; Pam.pw_uid := 1000; Pam.pw_gid := 1000;
     Pam.pw_dir := "/home/alice" |}.

(** A system where the module is called through sudo by uid 1000 and
    everything not named by a parameter succeeds: [display] is the variable
    WAYLAND_DISPLAY, [pw] what both password lookups return, the four flags
    the success of [initgroups], [setgid], [setuid] and [execv], and [ready]
    the time at which the read end of the pipe becomes readable. *)
Definition example_os (display : option string) (pw : option Pam.passwd)
    (ok_groups ok_gid ok_uid ok_exec : bool) (ready : option Z) : Pam.Os :=
  {| Pam.HELPER_PATH := "/usr/lib/sentinel/sentinel-helper";
     Pam.pam_get_user := (Pam.PAM_SUCCESS, Some "alice");
     Pam.pam_get_item_service := (Pam.PAM_SUCCESS, Some "sudo");
     Pam.load_config := fun _ => Pam.default_config;
     Pam.getenv_WAYLAND_DISPLAY := display;
     Pam.getenv_XDG_RUNTIME_DIR := None;
     Pam.getenv_SUDO_UID := Some "1000";
     Pam.getenv_PKEXEC_UID := None;
     Pam.atoi := fun _ => 1000;
     Pam.getuid := 0;
     Pam.getgid := 0;
     Pam.getpwnam := fun _ => pw;
     Pam.getpwuid := fun _ => pw;
     Pam.readdir_run_user := fun _ => None;
     Pam.process_name := "sudo";
     Pam.process_exe := "/usr/bin/sudo";
     Pam.pipe_ok := true;
     Pam.fork_pid := 4242;
     Pam.initgroups_ok := fun _ _ => ok_groups;
     Pam.setgid_ok := fun _ => ok_gid;
     Pam.setuid_ok := fun _ => ok_uid;
     Pam.dup2_ok := true;
     Pam.execv_ok := ok_exec;
     Pam.write_ok := true;
     Pam.pipe_at_read := [];
     Pam.ready_at := ready;
     Pam.select_error := false;
     Pam.read_error := false;
     Pam.stack_garbage := [] |}.

(** A helper process on a compositor that supports the session lock;
    [lock_ok] is what [gtk_session_lock_instance_lock] returns. *)
Definition example_env (lock_ok : bool) : Helper.Env :=
  {| Helper.parse_args := Some (Helper.mkConfig Confirm.default_params true);
     Helper.WAYLAND_DISPLAY := Some "wayland-0";
     Helper.gtk_session_lock_is_supported := true;
     Helper.gtk_session_lock_instance_new := true;
     Helper.gtk_session_lock_instance_lock := lock_ok;
     Helper.activate_time := 0;
     Helper.activate_random := false |}.

Arguments Confirm.gtk_window_destroy : simpl never.
Arguments Confirm.send_result : simpl never.

Section ConfirmFacts.
Import Confirm.

(** The closed form of [send_result]: the nested close request finds the
    latch set and sends nothing. *)
Lemma send_result_eq (self : ConfirmWindow) (r : Result) :
  send_result self r =
  if result_sent self then (self, [])
  else (gtk_window_destroy (set_result_sent self true),
        if on_result self then [r] else []).
Proof.
  unfold send_result. simpl.
  destruct (result_sent self) eqn:E; [reflexivity|].
  unfold gtk_window_close_with, on_close_request_with. simpl.
  now rewrite app_nil_r.
Qed.

(** Fuel 2 is enough: with more fuel the result is the same. *)
Lemma send_result_rec_enough (k : nat) (self : ConfirmWindow) (r : Result) :
  send_result_rec (2 + k) self r = Some (send_result self r).
Proof.
  rewrite send_result_eq. simpl.
  destruct (result_sent self) eqn:E; [reflexivity|].
  unfold gtk_window_close_with, on_close_request_with. simpl.
  now rewrite app_nil_r.
Qed.

Lemma result_sent_destroy (self : ConfirmWindow) :
  result_sent (gtk_window_destroy self) = result_sent self.
Proof.
  unfold gtk_window_destroy, confirm_window_dispose.
  now destruct (timer_id self =? 0).
Qed.

Lemma send_result_decided (self : ConfirmWindow) (r : Result) :
  result_sent self = true -> send_result self r = (self, []).
Proof. intros H. rewrite send_result_eq. now rewrite H. Qed.

Lemma send_result_latches (self : ConfirmWindow) (r : Result) :
  result_sent (fst (send_result self r)) = true.
Proof.
  rewrite send_result_eq. destruct (result_sent self) eqn:E; cbn [fst]; auto.
  now rewrite result_sent_destroy.
Qed.

Lemma send_result_fresh (self : ConfirmWindow) (r : Result) :
  result_sent self = false -> on_result self = true ->
  snd (send_result self r) = [r].
Proof. intros H1 H2. rewrite send_result_eq. now rewrite H1, H2. Qed.

(** What an input hands to the callback: nothing, or the single result. *)
Lemma send_result_calls (self : ConfirmWindow) (r : Result) :
  snd (send_result self r) = [] \/ snd (send_result self r) = [r].
Proof.
  rewrite send_result_eq.
  destruct (result_sent self), (on_result self); simpl; auto.
Qed.

Lemma on_close_request_eq (self : ConfirmWindow) :
  on_close_request self =
  (if result_sent self then (self, []) else send_result self Deny, false).
Proof.
  unfold on_close_request, on_close_request_with.
  now destruct (result_sent self).
Qed.

Lemma same_setup_refl (a : ConfirmWindow) : same_setup a a.
Proof. now repeat split. Qed.

Lemma same_setup_trans (a b c : ConfirmWindow) :
  same_setup a b -> same_setup b c -> same_setup a c.
Proof. unfold same_setup. intuition congruence. Qed.

Lemma same_setup_destroy (a : ConfirmWindow) :
  same_setup a (gtk_window_destroy a).
Proof.
  unfold same_setup, gtk_window_destroy, confirm_window_dispose.
  now destruct (timer_id a =? 0).
Qed.

Lemma same_setup_send (a : ConfirmWindow) (r : Result) :
  same_setup a (fst (send_result a r)).
Proof.
  rewrite send_result_eq. destruct (result_sent a); simpl.
  - apply same_setup_refl.
  - eapply same_setup_trans; [|apply same_setup_destroy]. now repeat split.
Qed.

Lemma same_setup_handle (a : ConfirmWindow) (i : Input) :
  same_setup a (fst (handle a i)).
Proof.
  destruct i as [now| |keyval| |now]; simpl.
  - unfold on_allow_clicked.
    destruct (negb (allow_enabled a)); [apply same_setup_refl|].
    destruct (elapsed_ms a now <? min_display_time a);
      [apply same_setup_refl|apply same_setup_send].
  - apply same_setup_send.
  - unfold on_key_pressed. destruct (keyval =? GDK_KEY_Escape); simpl;
      [apply same_setup_send|apply same_setup_refl].
  - rewrite on_close_request_eq.
    destruct (result_sent a) eqn:E; simpl.
    + apply same_setup_destroy.
    + pose proof (same_setup_send a Deny) as H.
      destruct (send_result a Deny) as [s c]; simpl in *.
      eapply same_setup_trans; [exact H|apply same_setup_destroy].
  - unfold on_timer_tick.
    destruct (timeout a - Z.quot (elapsed_ms a now) 1000 <=? 0).
    + pose proof (same_setup_send a Timeout) as H.
      destruct (send_result a Timeout) as [s c]; simpl in *.
      unfold same_setup in *; simpl; intuition.
    + unfold same_setup.
      repeat match goal with
             | |- context [if ?b then _ else _] => destruct b
             end; simpl; auto.
Qed.

End ConfirmFacts.

Section LatchFacts.
Import Confirm.

Lemma on_allow_clicked_calls (a : ConfirmWindow) (now : Z) :
  on_allow_clicked a now = (a, []) \/
  on_allow_clicked a now = send_result a Allow.
Proof.
  unfold on_allow_clicked.
  destruct (negb (allow_enabled a)); auto.
  destruct (elapsed_ms a now <? min_display_time a); auto.
Qed.

(** What [handle] does, handler by handler. *)
Lemma handle_cases (a : ConfirmWindow) (i : Input) :
  handle a i = (a, []) \/
  (exists r, handle a i = send_result a r) \/
  (exists r, handle a i = (drop_timer_source (fst (send_result a r)),
                           snd (send_result a r))) \/
  (exists r, result_sent a = false /\
             handle a i = (gtk_window_destroy (fst (send_result a r)),
                           snd (send_result a r))) \/
  (result_sent a = true /\ handle a i = (gtk_window_destroy a, [])) \/
  (exists b, handle a i = (b, []) /\ result_sent b = result_sent a /\
             timer_id b = timer_id a /\ timer_source b = timer_source a /\
             destroyed b = destroyed a).
Proof.
  destruct i as [now| |keyval| |now]; simpl.
  - destruct (on_allow_clicked_calls a now) as [E|E]; rewrite E; eauto.
  - unfold on_deny_clicked. eauto.
  - unfold on_key_pressed. destruct (keyval =? GDK_KEY_Escape); simpl; eauto.
  - rewrite on_close_request_eq.
    destruct (result_sent a) eqn:E.
    + do 4 right. left. simpl. auto.
    + destruct (send_result a Deny) eqn:E'.
      right; right; right; left. exists Deny. now rewrite E'.
  - unfold on_timer_tick.
    destruct (timeout a - Z.quot (elapsed_ms a now) 1000 <=? 0).
    + destruct (send_result a Timeout) eqn:E'.
      right; right; left. exists Timeout. now rewrite E'.
    + unfold G_SOURCE_CONTINUE. cbv beta iota zeta.
      do 5 right. eexists. split; [reflexivity|].
      repeat match goal with
             | |- context [if ?b then _ else _] => destruct b
             end; simpl; auto.
Qed.

(** An input hands at most one result to the callback, and when it hands one
    the latch was open before and is set after. *)
Lemma handle_calls (a : ConfirmWindow) (i : Input) :
  snd (handle a i) = [] \/
  exists r, snd (handle a i) = [r] /\ result_sent a = false /\
            result_sent (fst (handle a i)) = true.
Proof.
  assert (S : forall r, snd (send_result a r) = [] \/
            (snd (send_result a r) = [r] /\ result_sent a = false)).
  { intros r. rewrite send_result_eq.
    destruct (result_sent a), (on_result a); simpl; auto. }
  pose proof (send_result_latches a) as L.
  destruct (handle_cases a i)
    as [E|[[r E]|[[r E]|[[r [U E]]|[[D E]|[b [E _]]]]]]];
    rewrite E; cbn [fst snd]; auto;
    (destruct (S r) as [H|[H1 H2]]; [now left|]);
    right; exists r; repeat split; auto.
  - simpl. apply L.
  - now rewrite result_sent_destroy.
Qed.

(** Once the latch is set an input hands nothing to the callback and leaves
    the latch set. *)
Lemma handle_decided (a : ConfirmWindow) (i : Input) :
  result_sent a = true ->
  snd (handle a i) = [] /\ result_sent (fst (handle a i)) = true.
Proof.
  intros D.
  destruct (handle_cases a i)
    as [E|[[r E]|[[r E]|[[r [U E]]|[[_ E]|[b [E [R _]]]]]]]];
    rewrite E; try rewrite send_result_decided by assumption;
    cbn [fst snd]; rewrite ?result_sent_destroy; auto.
  split; congruence.
Qed.

(** With a callback in place, an input that hands over nothing leaves the
    latch open. *)
Lemma handle_silent (a : ConfirmWindow) (i : Input) :
  result_sent a = false -> on_result a = true ->
  snd (handle a i) = [] -> result_sent (fst (handle a i)) = false.
Proof.
  intros U C.
  pose proof (fun r => send_result_fresh a r U C) as F.
  destruct (handle_cases a i)
    as [E|[[r E]|[[r E]|[[r [_ E]]|[[D E]|[b [E [R _]]]]]]]];
    rewrite E; cbn [fst snd]; try rewrite F; try discriminate; congruence.
Qed.

Lemma consistent_new (params : WindowParams) (cb : bool) (now : Z) (rnd : bool) :
  consistent (confirm_window_new params cb now rnd).
Proof.
  unfold consistent, confirm_window_new. simpl.
  destruct (0 <? wp_timeout params); simpl; split; auto; discriminate.
Qed.

Lemma destroy_facts (a : ConfirmWindow) :
  (timer_id a = 0 -> timer_source a = false) ->
  timer_id (gtk_window_destroy a) = 0 /\
  timer_source (gtk_window_destroy a) = false /\
  destroyed (gtk_window_destroy a) = true.
Proof.
  unfold gtk_window_destroy, confirm_window_dispose. intros W.
  destruct (timer_id a =? 0) eqn:E; simpl; [apply Z.eqb_eq in E|]; auto.
Qed.

Lemma consistent_destroy (a : ConfirmWindow) :
  (timer_id a = 0 -> timer_source a = false) ->
  consistent (gtk_window_destroy a).
Proof.
  intros W. destruct (destroy_facts a W) as (T & S & D).
  split; auto.
Qed.

Lemma consistent_send (a : ConfirmWindow) (r : Result) :
  consistent a -> consistent (fst (send_result a r)).
Proof.
  intros C. rewrite send_result_eq.
  destruct (result_sent a) eqn:E; cbn [fst]; auto.
  apply consistent_destroy. simpl. apply C.
Qed.

Lemma consistent_handle (a : ConfirmWindow) (i : Input) :
  consistent a -> consistent (fst (handle a i)).
Proof.
  intros C.
  destruct (handle_cases a i)
    as [E|[[r E]|[[r E]|[[r [U E]]|[[D E]|[b [E (R & T & S & X)]]]]]]];
    rewrite E; cbn [fst]; auto.
  - now apply consistent_send.
  - pose proof (consistent_send a r C) as [W D].
    split; simpl; auto.
  - apply consistent_destroy. apply (consistent_send a r C).
  - apply consistent_destroy. apply C.
  - destruct C as [W D]. split; rewrite ?T, ?S, ?R, ?X; auto.
Qed.

(** A destroyed window without a timer is what [gtk_window_destroy] and
    [drop_timer_source] leave alone. *)
Lemma destroy_settled (a : ConfirmWindow) :
  destroyed a = true -> timer_id a = 0 -> gtk_window_destroy a = a.
Proof.
  unfold gtk_window_destroy, confirm_window_dispose.
  destruct a; simpl. intros -> ->. reflexivity.
Qed.

Lemma drop_settled (a : ConfirmWindow) :
  timer_source a = false -> drop_timer_source a = a.
Proof. unfold drop_timer_source. destruct a; simpl. now intros ->. Qed.

(** On a window that sent its result, a deciding input changes nothing. *)
Lemma handle_noop (a : ConfirmWindow) (i : Input) :
  consistent a -> result_sent a = true -> deciding a i = true ->
  handle a i = (a, []).
Proof.
  intros [W D] R K. destruct (D R) as [X T].
  destruct i as [now| |keyval| |now]; simpl.
  - destruct (on_allow_clicked_calls a now) as [E|E]; rewrite E; auto.
    now apply send_result_decided.
  - now apply send_result_decided.
  - unfold on_key_pressed. destruct (keyval =? GDK_KEY_Escape); simpl; auto.
    now rewrite send_result_decided.
  - rewrite on_close_request_eq, R. now rewrite destroy_settled.
  - unfold on_timer_tick. simpl in K. unfold expired in K. rewrite K.
    rewrite send_result_decided by assumption.
    now rewrite drop_settled by auto.
Qed.

End LatchFacts.

Section RunFacts.
Import Confirm.

Lemma run_inputs_app (w : ConfirmWindow) (a b : list Input) :
  run_inputs w (a ++ b) =
  (fst (run_inputs (fst (run_inputs w a)) b),
   snd (run_inputs w a) ++ snd (run_inputs (fst (run_inputs w a)) b)).
Proof.
  revert w. induction a as [|i a IH]; intros w; simpl.
  - now destruct (run_inputs w b).
  - destruct (handle w i) as [w1 c1]. rewrite IH.
    destruct (run_inputs w1 a) as [w2 c2]. simpl.
    now rewrite app_assoc.
Qed.

Lemma run_inputs_decided (w : ConfirmWindow) (ins : list Input) :
  result_sent w = true ->
  snd (run_inputs w ins) = [] /\ result_sent (fst (run_inputs w ins)) = true.
Proof.
  revert w. induction ins as [|i ins IH]; intros w D; simpl; auto.
  destruct (handle_decided w i D) as [C R].
  destruct (handle w i) as [w1 c1]. simpl in *. subst c1.
  destruct (IH w1 R) as [C' R'].
  destruct (run_inputs w1 ins) as [w2 c2]. simpl in *. auto.
Qed.

Lemma run_inputs_length (w : ConfirmWindow) (ins : list Input) :
  (List.length (snd (run_inputs w ins)) <= 1)%nat.
Proof.
  revert w. induction ins as [|i ins IH]; intros w; simpl; auto.
  destruct (handle_calls w i) as [C|[r [C [_ R]]]].
  - specialize (IH (fst (handle w i))).
    destruct (handle w i) as [w1 c1]. simpl in *. subst c1.
    now destruct (run_inputs w1 ins).
  - destruct (run_inputs_decided _ ins R) as [C' _].
    destruct (handle w i) as [w1 c1]. simpl in *. subst c1.
    destruct (run_inputs w1 ins) as [w2 c2]. simpl in *. subst c2.
    simpl. lia.
Qed.

Lemma run_inputs_consistent (w : ConfirmWindow) (ins : list Input) :
  consistent w -> consistent (fst (run_inputs w ins)).
Proof.
  revert w. induction ins as [|i ins IH]; intros w C; simpl; auto.
  pose proof (consistent_handle w i C) as C1.
  destruct (handle w i) as [w1 c1]. specialize (IH w1 C1).
  now destruct (run_inputs w1 ins).
Qed.

Lemma run_inputs_noop (w : ConfirmWindow) (ins : list Input) :
  consistent w -> result_sent w = true ->
  forallb (deciding w) ins = true -> run_inputs w ins = (w, []).
Proof.
  intros C R. induction ins as [|i ins IH]; simpl; auto.
  intros H. apply andb_prop in H as [Hi Hr].
  rewrite (handle_noop w i C R Hi). now rewrite (IH Hr).
Qed.

End RunFacts.

(** * The accept gate *)

(** The gate of [on_allow_clicked]: below the minimum display time and
    without the allow flag nothing happens; past both, Allow is sent once. *)
Lemma accept_gate (self : Confirm.ConfirmWindow) (now : Z) :
  (Confirm.elapsed_ms self now < Confirm.min_display_time self ->
   Confirm.on_allow_clicked self now = (self, [])) /\
  (Confirm.allow_enabled self = false ->
   Confirm.on_allow_clicked self now = (self, [])) /\
  (Confirm.result_sent self = false ->
   Confirm.allow_enabled self = true ->
   Confirm.on_result self = true ->
   Confirm.min_display_time self <= Confirm.elapsed_ms self now ->
   snd (Confirm.on_allow_clicked self now) = [Confirm.Allow] /\
   Confirm.result_sent (fst (Confirm.on_allow_clicked self now)) = true /\
   forall later : list Confirm.Input,
     snd (Confirm.run_inputs (fst (Confirm.on_allow_clicked self now)) later)
     = []).
Proof.
  unfold Confirm.on_allow_clicked. split; [|split].
  - intros H. apply Z.ltb_lt in H. rewrite H.
    now destruct (negb (Confirm.allow_enabled self)).
  - now intros ->.
  - intros U A C M. rewrite A. simpl.
    apply Z.ltb_ge in M. rewrite M. split; [|split].
    + now apply send_result_fresh.
    + apply send_result_latches.
    + intros later. apply run_inputs_decided, send_result_latches.
Qed.

(** C3, as amended.  For every window and every clock value: an accept
    while the elapsed time is below the minimum display time changes nothing
    and calls nothing; so does an accept while the allow flag is not yet set,
    whatever the elapsed time; an accept on an undecided window whose allow
    flag is set, at an elapsed time of at least the minimum, hands Allow to
    the callback once, sets the latch, and nothing is handed over by any later
    input. *)
Theorem C3_accept_gate (self : Confirm.ConfirmWindow) (now : Z) :
  (Confirm.elapsed_ms self now < Confirm.min_display_time self ->
   Confirm.on_allow_clicked self now = (self, [])) /\
  (Confirm.allow_enabled self = false ->
   Confirm.on_allow_clicked self now = (self, [])) /\
  (Confirm.result_sent self = false ->
   Confirm.allow_enabled self = true ->
   Confirm.on_result self = true ->
   Confirm.min_display_time self <= Confirm.elapsed_ms self now ->
   snd (Confirm.on_allow_clicked self now) = [Confirm.Allow] /\
   Confirm.result_sent (fst (Confirm.on_allow_clicked self now)) = true /\
   forall later : list Confirm.Input,
     snd (Confirm.run_inputs (fst (Confirm.on_allow_clicked self now)) later)
     = []).
Proof. exact (accept_gate self now). Qed.

Lemma C3_accept_gate_witness :
  Confirm.on_allow_clicked
    (Confirm.confirm_window_new Confirm.default_params true 0 false) 400000
  = (Confirm.confirm_window_new Confirm.default_params true 0 false, []) /\
  snd (Confirm.on_allow_clicked
         (fst (Confirm.handle
                 (Confirm.confirm_window_new Confirm.default_params true 0 false)
                 (Confirm.TimerTick 500000)))
         600000)
  = [Confirm.Allow].
Proof.
  split.
  - apply (proj1 (C3_accept_gate
                    (Confirm.confirm_window_new Confirm.default_params true 0
                                                false) 400000)).
    vm_compute. reflexivity.
  - apply (proj2 (proj2 (C3_accept_gate
                    (fst (Confirm.handle
                            (Confirm.confirm_window_new Confirm.default_params
                                                        true 0 false)
                            (Confirm.TimerTick 500000))) 600000)));
      try reflexivity.
    vm_compute. discriminate.
Defined.

(** C3 as stated fails: a dialog with a 30 s countdown and a minimum display
    time of 450 ms, created at time 0, has seen the ticks at 100, 200, 300
    and 400 ms.  At 470 ms it is undecided and the elapsed time is at least
    the minimum, yet an accept is ignored: the allow flag is set by a tick
    only. *)
Lemma C3_counterexample :
  Confirm.result_sent
    (fst (Confirm.run_inputs
            (Confirm.confirm_window_new
               (Confirm.mkParams "t" "m" "s" None 30 450 false) true 0 false)
            [Confirm.TimerTick 100000; Confirm.TimerTick 200000;
             Confirm.TimerTick 300000; Confirm.TimerTick 400000])) = false /\
  Confirm.min_display_time
    (fst (Confirm.run_inputs
            (Confirm.confirm_window_new
               (Confirm.mkParams "t" "m" "s" None 30 450 false) true 0 false)
            [Confirm.TimerTick 100000; Confirm.TimerTick 200000;
             Confirm.TimerTick 300000; Confirm.TimerTick 400000]))
  <= Confirm.elapsed_ms
       (fst (Confirm.run_inputs
               (Confirm.confirm_window_new
                  (Confirm.mkParams "t" "m" "s" None 30 450 false) true 0 false)
               [Confirm.TimerTick 100000; Confirm.TimerTick 200000;
                Confirm.TimerTick 300000; Confirm.TimerTick 400000]))
       470000 /\
  snd (Confirm.run_inputs
         (Confirm.confirm_window_new
            (Confirm.mkParams "t" "m" "s" None 30 450 false) true 0 false)
         [Confirm.TimerTick 100000; Confirm.TimerTick 200000;
          Confirm.TimerTick 300000; Confirm.TimerTick 400000;
          Confirm.AllowClicked 470000]) = [].
Proof.
  vm_compute. repeat split. discriminate.
Qed.

(** C5, as amended.  A dialog created with timeout 0 has no countdown and no
    timer, and its allow flag and allow button are enabled from creation.  An
    accept before the minimum display time is still ignored; with a callback
    in place an accept at or after it hands Allow to the callback.  For every
    undecided window with a callback, an accept hands Allow over exactly when
    the allow flag is set and the minimum display time has elapsed. *)
Theorem C5_no_countdown (params : Confirm.WindowParams) (cb : bool)
    (now0 : Z) (rnd : bool) (now : Z) :
  Confirm.wp_timeout params = 0 ->
  let w := Confirm.confirm_window_new params cb now0 rnd in
  (Confirm.allow_enabled w = true /\
   Confirm.allow_button_sensitive w = true /\
   Confirm.timer_id w = 0 /\ Confirm.timer_source w = false /\
   Confirm.countdown_visible w = false /\ Confirm.result_sent w = false) /\
  (Confirm.elapsed_ms w now < Confirm.wp_min_display_time params ->
   Confirm.on_allow_clicked w now = (w, [])) /\
  (cb = true ->
   Confirm.wp_min_display_time params <= Confirm.elapsed_ms w now ->
   snd (Confirm.on_allow_clicked w now) = [Confirm.Allow]) /\
  (forall self : Confirm.ConfirmWindow,
     Confirm.result_sent self = false -> Confirm.on_result self = true ->
     (snd (Confirm.on_allow_clicked self now) = [Confirm.Allow] <->
      Confirm.allow_enabled self = true /\
      Confirm.min_display_time self <= Confirm.elapsed_ms self now)).
Proof.
  intros T w.
  assert (E : Confirm.allow_enabled w = true /\
              Confirm.allow_button_sensitive w = true /\
              Confirm.timer_id w = 0 /\ Confirm.timer_source w = false /\
              Confirm.countdown_visible w = false /\
              Confirm.result_sent w = false).
  { subst w. unfold Confirm.confirm_window_new. rewrite T. simpl. tauto. }
  split; [exact E|].
  split; [|split].
  - apply (accept_gate w now).
  - intros -> M. apply (accept_gate w now); tauto.
  - intros self U C. split.
    + intros H. unfold Confirm.on_allow_clicked in H.
      destruct (Confirm.allow_enabled self); [|discriminate].
      simpl in H.
      destruct (Confirm.elapsed_ms self now <? Confirm.min_display_time self)
        eqn:L; [discriminate|].
      apply Z.ltb_ge in L. auto.
    + intros [A M]. apply (accept_gate self now); auto.
Qed.

Lemma C5_no_countdown_witness :
  Confirm.on_allow_clicked
    (Confirm.confirm_window_new
       (Confirm.mkParams "t" "m" "s" None 0 500 false) true 0 false) 100000
  = (Confirm.confirm_window_new
       (Confirm.mkParams "t" "m" "s" None 0 500 false) true 0 false, []) /\
  snd (Confirm.on_allow_clicked
         (Confirm.confirm_window_new
            (Confirm.mkParams "t" "m" "s" None 0 500 false) true 0 false)
         500000)
  = [Confirm.Allow].
Proof.
  pose proof (C5_no_countdown (Confirm.mkParams "t" "m" "s" None 0 500 false)
                true 0 false 100000 eq_refl) as H1.
  pose proof (C5_no_countdown (Confirm.mkParams "t" "m" "s" None 0 500 false)
                true 0 false 500000 eq_refl) as H2.
  split.
  - apply (proj1 (proj2 H1)). vm_compute. reflexivity.
  - apply (proj1 (proj2 (proj2 H2))); [reflexivity|].
    vm_compute. discriminate.
Defined.

(** C5 as stated fails: with timeout 0 and a minimum display time of 500 ms
    the dialog is undecided and its allow flag is set from creation, yet an
    accept 100 ms after creation is ignored. *)
Lemma C5_counterexample :
  Confirm.allow_enabled
    (Confirm.confirm_window_new
       (Confirm.mkParams "t" "m" "s" None 0 500 false) true 0 false) = true /\
  Confirm.result_sent
    (Confirm.confirm_window_new
       (Confirm.mkParams "t" "m" "s" None 0 500 false) true 0 false) = false /\
  Confirm.handle
    (Confirm.confirm_window_new
       (Confirm.mkParams "t" "m" "s" None 0 500 false) true 0 false)
    (Confirm.AllowClicked 100000)
  = (Confirm.confirm_window_new
       (Confirm.mkParams "t" "m" "s" None 0 500 false) true 0 false, []).
Proof. vm_compute. auto. Qed.

(** * The process around the dialog *)

Section LoopFacts.
Import Confirm.
Import Helper.

Lemma main_loop_quit (s : AppState) (evs : list Event) :
  quit s = true -> main_loop s evs = Some s.
Proof. intros Q. destruct evs; simpl; now rewrite Q. Qed.

Lemma main_loop_step (s : AppState) (e : Event) (evs : list Event) :
  quit s = false -> main_loop s (e :: evs) = main_loop (dispatch s e) evs.
Proof. intros Q. simpl. now rewrite Q. Qed.

Lemma on_result_quits (s : AppState) (r : Result) :
  app s = true -> quit (on_result s r) = true /\ result (on_result s r) = r.
Proof.
  intros A. unfold on_result. simpl.
  destruct (Wayland.is_locked (session_lock s)); simpl; rewrite A; simpl; auto.
Qed.

(** The loop over inputs of the dialog ends with the first result handed to
    the callback, and runs on as long as none is. *)
Lemma main_loop_inputs (ins : list Input) :
  forall (s : AppState) (w : ConfirmWindow),
    quit s = false -> app s = true -> dialog s = Some w ->
    result_sent w = false -> Confirm.on_result w = true ->
    match snd (run_inputs w ins) with
    | [] => main_loop s (map WindowInput ins) = None
    | r :: _ =>
        exists s', main_loop s (map WindowInput ins) = Some s' /\ result s' = r
    end.
Proof.
  induction ins as [|i ins IH]; intros s w Q A D U C.
  - simpl. now rewrite Q.
  - cbn [map]. rewrite main_loop_step by assumption.
    cbn [dispatch run_inputs]. rewrite D.
    pose proof (handle_silent w i U C) as S.
    pose proof (same_setup_handle w i) as (_ & _ & _ & K).
    destruct (handle_calls w i) as [E|[r [E [_ R]]]];
      destruct (handle w i) as [w1 c1]; cbn [fst snd] in *; subst c1.
    + specialize (IH (set_dialog s w1) w1 Q A eq_refl (S eq_refl)).
      rewrite K, C in IH. specialize (IH eq_refl).
      cbn [fold_left].
      destruct (run_inputs w1 ins) as [w2 c2]. exact IH.
    + cbn [fold_left].
      destruct (on_result_quits (set_dialog s w1) r A) as [Q' R'].
      destruct (run_inputs w1 ins) as [w2 c2]. cbn [snd app].
      exists (Helper.on_result (set_dialog s w1) r).
      split; [now apply main_loop_quit|exact R'].
Qed.

End LoopFacts.

(** C4.  For every dialog made by [confirm_window_new] and every sequence of
    inputs (accept, decline, key press, close request, timer tick, in any
    order): the result callback is called at most once; once the latch is set
    no later input calls it again or opens the latch, and the later deciding
    inputs (accept, decline, key press, close request, expired tick) leave the
    window exactly as it is; the input that first hands a result over fixes
    what the whole sequence hands over.  And the process prints exactly the
    token of that result: started without the session lock, or with it and
    after the first monitor got the dialog, it prints a token line when and
    only when the inputs make the dialog decide, the token of the single
    result handed to the callback, whatever inputs follow. *)
Theorem C4_decision_latch (params : Confirm.WindowParams) (cb : bool)
    (now0 : Z) (rnd : bool) (ins later : list Confirm.Input) :
  let w0 := Confirm.confirm_window_new params cb now0 rnd in
  let w := fst (Confirm.run_inputs w0 ins) in
  (List.length (snd (Confirm.run_inputs w0 ins)) <= 1)%nat /\
  (Confirm.result_sent w = true ->
   snd (Confirm.run_inputs w0 (ins ++ later))
   = snd (Confirm.run_inputs w0 ins) /\
   Confirm.result_sent (fst (Confirm.run_inputs w0 (ins ++ later))) = true /\
   (forallb (deciding w) later = true ->
    Confirm.run_inputs w0 (ins ++ later) = Confirm.run_inputs w0 ins)) /\
  (forall (i : Confirm.Input) (r : Confirm.Result),
     snd (Confirm.run_inputs w0 ins) = [] ->
     snd (Confirm.handle w i) = [r] ->
     snd (Confirm.run_inputs w0 (ins ++ i :: later)) = [r]) /\
  (forall (env : Helper.Env) (config : Helper.AppConfig),
     Helper.parse_args env = Some config ->
     started env = true ->
     Helper.use_session_lock config
     && Helper.gtk_session_lock_is_supported env = false ->
     Helper.main env (map Helper.WindowInput ins)
     = exit_of_calls
         (snd (Confirm.run_inputs
                 (Confirm.confirm_window_new
                    (Helper.params config) true
                    (Helper.activate_time env) (Helper.activate_random env))
                 ins))) /\
  (forall (env : Helper.Env) (config : Helper.AppConfig) (monitor : Z),
     Helper.parse_args env = Some config ->
     started env = true ->
     Helper.use_session_lock config = true ->
     Helper.gtk_session_lock_is_supported env = true ->
     Helper.gtk_session_lock_instance_new env = true ->
     Helper.gtk_session_lock_instance_lock env = true ->
     Helper.main env (Helper.LockedSignal
                      :: Helper.MonitorSignal monitor now0 rnd
                      :: map Helper.WindowInput ins)
     = exit_of_calls
         (snd (Confirm.run_inputs
                 (Confirm.confirm_window_new (Helper.params config) true
                                             now0 rnd)
                 ins))).
Proof.
  intros w0 w.
  assert (C0 : consistent w0) by apply consistent_new.
  assert (Cw : consistent w) by now apply run_inputs_consistent.
  split; [apply run_inputs_length|].
  split; [|split; [|split]].
  - intros D. rewrite run_inputs_app. fold w. cbn [fst snd].
    destruct (run_inputs_decided w later D) as [E R].
    rewrite E, app_nil_r. repeat split; auto.
    intros K. rewrite (run_inputs_noop w later Cw D K). cbn [fst].
    subst w. now destruct (Confirm.run_inputs w0 ins).
  - intros i r E H. rewrite run_inputs_app. fold w. rewrite E.
    cbn [snd app Confirm.run_inputs].
    destruct (handle_calls w i) as [X|[r' [X [_ R]]]]; [congruence|].
    destruct (run_inputs_decided _ later R) as [E' _].
    destruct (Confirm.handle w i) as [w1 c1]. cbn [fst snd] in *.
    destruct (Confirm.run_inputs w1 later) as [w2 c2]. cbn [snd] in *.
    subst. now rewrite app_nil_r.
  - intros env config P S L.
    unfold Helper.main. unfold started in S. rewrite P in *.
    destruct (Helper.WAYLAND_DISPLAY env) as [[|c d]|]; try discriminate.
    unfold Helper.g_application_run, Helper.on_activate.
    cbn [Helper.config Helper.initial_state]. rewrite L.
    match goal with
    | |- context [Helper.main_loop ?s _] =>
        pose proof (main_loop_inputs ins s
                      (Confirm.confirm_window_new (Helper.params config) true
                         (Helper.activate_time env)
                         (Helper.activate_random env))) as M
    end.
    lapply M; [clear M; intros M|now destruct (Helper.use_session_lock config)].
    lapply M; [clear M; intros M|now destruct (Helper.use_session_lock config)].
    lapply M; [clear M; intros M|now destruct (Helper.use_session_lock config)].
    specialize (M eq_refl eq_refl).
    destruct (snd (Confirm.run_inputs _ ins)) as [|r rest].
    + now rewrite M.
    + destruct M as (s' & -> & <-). reflexivity.
  - intros env config monitor P S U Sup New Lock.
    unfold Helper.main. unfold started in S. rewrite P in *.
    destruct (Helper.WAYLAND_DISPLAY env) as [[|c d]|]; try discriminate.
    unfold Helper.g_application_run, Helper.on_activate.
    cbn [Helper.config Helper.initial_state]. rewrite U, Sup.
    cbn [andb]. unfold Helper.on_activate_with_lock, Wayland.lock.
    rewrite Sup, New, Lock. cbn.
    match goal with
    | |- context [Helper.main_loop ?s _] =>
        pose proof (main_loop_inputs ins s
                      (Confirm.confirm_window_new (Helper.params config) true
                         now0 rnd) eq_refl eq_refl eq_refl eq_refl eq_refl) as M
    end.
    destruct (snd (Confirm.run_inputs _ ins)) as [|r rest].
    + now rewrite M.
    + destruct M as (s' & -> & <-). reflexivity.
Qed.

(** * The session lock and its windows *)

Section DispatchFacts.
Import Wayland.
Import Helper.

Lemma same_wiring_refl (a : SessionLock) : same_wiring a a.
Proof. now repeat split. Qed.

Lemma steady_refl (s : AppState) : steady s s.
Proof. repeat split; auto. Qed.

Lemma steady_trans (s t u : AppState) : steady s t -> steady t u -> steady s u.
Proof.
  unfold steady, same_wiring. intros (W1 & C1 & Q1) (W2 & C2 & Q2).
  repeat split; intuition congruence.
Qed.

Lemma same_wiring_unlock (a : SessionLock) : same_wiring a (unlock a).
Proof.
  unfold unlock. destruct (instance_ a && instance_is_locked a);
    now repeat split.
Qed.

Lemma on_result_steady (s : AppState) (r : Confirm.Result) :
  steady s (on_result s r) /\
  first_monitor (on_result s r) = first_monitor s /\
  assigned (on_result s r) = assigned s.
Proof.
  unfold on_result. cbn [session_lock set_result app].
  pose proof (same_wiring_unlock (session_lock s)) as U.
  unfold steady.
  destruct (is_locked (session_lock s)); cbn;
    destruct (app s); cbn; auto using same_wiring_refl.
Qed.

Lemma fold_on_result_steady (calls : list Confirm.Result) (s : AppState) :
  steady s (fold_left on_result calls s) /\
  first_monitor (fold_left on_result calls s) = first_monitor s /\
  assigned (fold_left on_result calls s) = assigned s.
Proof.
  revert s. induction calls as [|r calls IH]; intros s; cbn [fold_left].
  - auto using steady_refl.
  - destruct (IH (on_result s r)) as (S & F & A).
    destruct (on_result_steady s r) as (S' & F' & A').
    repeat split; try congruence; eapply steady_trans; eauto.
Qed.

(** Every dispatch is steady, and only a "monitor" signal touches the
    windows of the lock. *)
Lemma dispatch_steady (s : AppState) (e : Event) :
  steady s (dispatch s e) /\
  (match e with
   | MonitorSignal _ _ _ => True
   | _ => first_monitor (dispatch s e) = first_monitor s /\
          assigned (dispatch s e) = assigned s
   end).
Proof.
  destruct e as [| | |monitor now rnd|i]; cbn [dispatch].
  - destruct (instance_ (session_lock s)
              && negb (locked_handler_id_ (session_lock s) =? 0));
      unfold steady, same_wiring; cbn; tauto.
  - destruct (instance_ (session_lock s)
              && negb (failed_handler_id_ (session_lock s) =? 0));
      [|unfold steady, same_wiring; cbn; tauto].
    cbn. destruct (failed_callback_ (session_lock s));
      unfold steady, same_wiring; cbn; tauto.
  - destruct (instance_ (session_lock s)
              && negb (unlocked_handler_id_ (session_lock s) =? 0));
      [|unfold steady, same_wiring; cbn; tauto].
    cbn. destruct (unlocked_callback_ (session_lock s));
      unfold steady, same_wiring; cbn; tauto.
  - split; [|exact I].
    destruct (instance_ (session_lock s)
              && negb (monitor_handler_id_ (session_lock s) =? 0));
      [|apply steady_refl].
    unfold on_monitor_signal, monitor_callback.
    destruct (monitor_callback_ (session_lock s));
      [destruct (first_monitor s)|]; unfold steady, same_wiring; cbn; tauto.
  - destruct (dialog s) as [w|]; [|auto using steady_refl].
    destruct (Confirm.handle w i) as [w' calls].
    destruct (fold_on_result_steady calls (set_dialog s w')) as (S & F & A).
    split; [|auto].
    eapply steady_trans; [|exact S]. unfold steady; cbn.
    auto using same_wiring_refl.
Qed.


Lemma dispatch_all_app (a b : list Event) (s : AppState) :
  dispatch_all s (a ++ b) = dispatch_all (dispatch_all s a) b.
Proof. unfold dispatch_all. apply fold_left_app. Qed.


Lemma prompt_first_dispatch (s : AppState) (e : Event) :
  prompt_first s -> prompt_first (dispatch s e).
Proof.
  intros P.
  assert (K : forall t, first_monitor t = first_monitor s /\
                        assigned t = assigned s -> prompt_first t).
  { intros t [F A]. unfold prompt_first, lock_windows in *. now rewrite F, A. }
  pose proof (dispatch_steady s e) as [_ D].
  destruct e as [| | |monitor now rnd|i]; auto.
  clear D. cbn [dispatch].
  destruct (instance_ (session_lock s)
            && negb (monitor_handler_id_ (session_lock s) =? 0)); auto.
  unfold on_monitor_signal, monitor_callback.
  destruct (monitor_callback_ (session_lock s));
    [|apply K; cbn; auto].
  unfold prompt_first, lock_windows in *.
  destruct P as [[F A]|[F [k A]]]; rewrite F; cbn; rewrite ?F; right;
    (split; [reflexivity|]); rewrite map_app, A; cbn.
  - now exists 0%nat.
  - exists (S k). cbn. f_equal. symmetry. apply repeat_cons.
Qed.

Lemma prompt_first_dispatch_all (evs : list Event) (s : AppState) :
  prompt_first s -> prompt_first (dispatch_all s evs).
Proof.
  unfold dispatch_all. revert s.
  induction evs as [|e evs IH]; intros s P; cbn [fold_left]; auto.
  apply IH. now apply prompt_first_dispatch.
Qed.

(** After the first monitor every "monitor" signal is answered with a
    cover, and the dialog stays the one it is. *)
Lemma monitors_covered (ms : list (Z * Z * bool)) (s : AppState) :
  instance_ (session_lock s) = true ->
  monitor_handler_id_ (session_lock s) <> 0 ->
  monitor_callback_ (session_lock s) = true ->
  first_monitor s = false ->
  assigned (dispatch_all s (map monitor_signal ms))
  = assigned s ++ map (fun x => (fst (fst x), cover)) ms /\
  dialog (dispatch_all s (map monitor_signal ms)) = dialog s.
Proof.
  revert s. induction ms as [|[[m now] rnd] ms IH]; intros s I H C F.
  - cbn. now rewrite app_nil_r.
  - cbn [map]. unfold dispatch_all in *. cbn [fold_left].
    assert (E : dispatch s (monitor_signal (m, now, rnd))
                = assign_window s (Some (m, cover))).
    { unfold monitor_signal. cbn [dispatch fst snd]. rewrite I.
      apply Z.eqb_neq in H. rewrite H. cbn [negb andb].
      unfold on_monitor_signal, monitor_callback. rewrite C, F. reflexivity. }
    rewrite E.
    destruct (IH (assign_window s (Some (m, cover)))) as [A D]; auto.
    rewrite A, D. cbn. split; [|reflexivity].
    now rewrite <- app_assoc.
Qed.

End DispatchFacts.

(** C9.  After the lock is acquired, for every sequence of "monitor"
    signals the first is answered with the dialog made by
    [confirm_window_new] and every later one with a blank window that is
    undecorated, has the opaque background and holds no dialog; the dialog is
    the one made for the first monitor.  And whatever events are dispatched,
    in any order, the windows assigned are none, or the dialog followed by
    covers only: at most one window of a lock session is the dialog. *)
Theorem C9_one_prompt (env : Helper.Env) (config : Helper.AppConfig)
    (ms : list (Z * Z * bool)) (evs : list Helper.Event) :
  (Helper.use_session_lock config = true ->
   Helper.gtk_session_lock_is_supported env = true ->
   Helper.gtk_session_lock_instance_new env = true ->
   Helper.gtk_session_lock_instance_lock env = true ->
   let s :=
     Helper.dispatch_all
       (Helper.on_activate env (Helper.initial_state config))
       (Helper.LockedSignal :: map monitor_signal ms) in
   Helper.assigned s
   = match ms with
     | [] => []
     | first :: rest =>
         (fst (fst first), Helper.Dialog)
         :: map (fun x => (fst (fst x), cover)) rest
     end /\
   Helper.dialog s
   = match ms with
     | [] => None
     | first :: _ =>
         Some (Confirm.confirm_window_new (Helper.params config) true
                 (snd (fst first)) (snd first))
     end) /\
  (let s :=
     Helper.dispatch_all
       (Helper.on_activate env (Helper.initial_state config)) evs in
   (lock_windows s = [] \/
    exists k, lock_windows s = Helper.Dialog :: repeat cover k) /\
   (List.length (filter is_dialog (lock_windows s)) <= 1)%nat).
Proof.
  split.
  - intros U Sup New Lock s. subst s.
    assert (E : Helper.on_activate env (Helper.initial_state config)
                = Helper.set_session_lock
                    (Helper.set_app (Helper.initial_state config))
                    (Wayland.mkLock true Wayland.LockState.Locking
                       true true true true 1 2 3 4 false)).
    { unfold Helper.on_activate. cbn [Helper.config Helper.initial_state].
      rewrite U, Sup. cbn [andb].
      unfold Helper.on_activate_with_lock, Wayland.lock.
      rewrite Sup, New, Lock. reflexivity. }
    rewrite E. clear E.
    destruct ms as [|[[m now] rnd] rest]; [split; reflexivity|].
    change (Helper.LockedSignal :: map monitor_signal ((m, now, rnd) :: rest))
      with ([Helper.LockedSignal; monitor_signal (m, now, rnd)]
              ++ map monitor_signal rest).
    rewrite dispatch_all_app.
    match goal with
    | |- context [Helper.dispatch_all ?s0 (map monitor_signal rest)] =>
        destruct (monitors_covered rest s0) as [A D];
          [reflexivity|discriminate|reflexivity|reflexivity|]
    end.
    rewrite A, D. split; reflexivity.
  - intros s.
    assert (P : prompt_first s).
    { apply prompt_first_dispatch_all. left.
      unfold Helper.on_activate, Helper.on_activate_without_lock,
        Helper.on_activate_with_lock.
      destruct (Helper.use_session_lock (Helper.config (Helper.initial_state config))
                && Helper.gtk_session_lock_is_supported env).
      - destruct (Wayland.lock _ _ _ _) as [l [| | |]]; now cbn.
      - destruct (Helper.use_session_lock _); now cbn. }
    destruct P as [[_ A]|[_ [k A]]]; rewrite A.
    + split; [now left|cbn; lia].
    + split; [right; now exists k|].
      cbn. assert (F : filter is_dialog (repeat cover k) = []).
      { clear A. induction k as [|k IH]; [reflexivity|]. cbn [repeat filter].
        unfold cover at 1. cbn [is_dialog]. exact IH. }
      rewrite F. cbn. lia.
Qed.

Lemma C9_one_prompt_witness :
  Helper.assigned
    (Helper.dispatch_all
       (Helper.on_activate
          (Helper.mkEnv None (Some "wayland-0") true true true 0 false)
          (Helper.initial_state (Helper.mkConfig Confirm.default_params true)))
       (Helper.LockedSignal
        :: map monitor_signal [(7, 100, false); (8, 120, false); (9, 130, true)]))
  = [(7, Helper.Dialog); (8, cover); (9, cover)].
Proof.
  exact (proj1 (proj1 (C9_one_prompt
                  (Helper.mkEnv None (Some "wayland-0") true true true 0 false)
                  (Helper.mkConfig Confirm.default_params true)
                  [(7, 100, false); (8, 120, false); (9, 130, true)] [])
                eq_refl eq_refl eq_refl eq_refl)).
Defined.

(** * The decision channel, read by the parent *)

Section ParseFacts.
Import Pam.

Lemma result_buffer_length (os : Os) : List.length (result_buffer os) = 16%nat.
Proof.
  unfold result_buffer. rewrite firstn_length_le; auto.
  rewrite length_app, repeat_length. lia.
Qed.

(** Storing NUL where the line ends, in a string that a NUL follows, leaves
    the line. *)
Lemma cut_line (data rest : list ascii) :
  c_str (store (data ++ NUL :: rest)
               (strcspn (data ++ NUL :: rest) [LF; CR]) NUL)
  = first_line data.
Proof.
  unfold strcspn, c_str, first_line.
  induction data as [|c data IH]; [reflexivity|].
  cbn [app take_until].
  destruct (ascii_in c [NUL; LF; CR]) eqn:E; [reflexivity|].
  cbn [List.length store take_until].
  assert (N : ascii_in c [NUL] = false).
  { cbn in *. destruct (Ascii.eqb c NUL); [discriminate|reflexivity]. }
  rewrite N. now rewrite IH.
Qed.

(** [result[n] = 0] after a read of [n] bytes into a longer buffer. *)
Lemma store_end (data buf : list ascii) :
  (List.length data < List.length buf)%nat ->
  exists rest,
    store (data ++ skipn (List.length data) buf) (List.length data) NUL
    = data ++ NUL :: rest.
Proof.
  revert buf. induction data as [|c data IH]; intros buf L.
  - cbn. destruct buf as [|b buf]; [cbn in L; lia|]. now exists buf.
  - destruct buf as [|b buf]; [cbn in L; lia|].
    cbn in L. destruct (IH buf) as [rest E]; [lia|].
    exists rest. cbn. now rewrite E.
Qed.

(** What the parent compares with "ALLOW": the first line of the bytes
    read, whatever the buffer held before. *)
Lemma parse_result_line (os : Os) (data : list ascii) :
  (List.length data <= 15)%nat ->
  c_str (parse_result os data) = first_line data.
Proof.
  intros L. unfold parse_result.
  destruct (store_end data (result_buffer os)) as [rest E].
  { rewrite result_buffer_length. lia. }
  rewrite E. apply cut_line.
Qed.

Lemma first_line_no_nul (data : list ascii) :
  c_str (first_line data) = first_line data.
Proof.
  unfold c_str, first_line.
  induction data as [|c data IH]; [reflexivity|]. cbn [take_until].
  destruct (ascii_in c [NUL; LF; CR]) eqn:E; [reflexivity|].
  cbn [take_until].
  assert (N : ascii_in c [NUL] = false).
  { cbn in *. destruct (Ascii.eqb c NUL); [discriminate|reflexivity]. }
  now rewrite N, IH.
Qed.

Lemma str_equal_allow (os : Os) (data : list ascii) :
  (List.length data <= 15)%nat ->
  str_equal (parse_result os data) (bytes "ALLOW") = true
  <-> first_line data = bytes "ALLOW".
Proof.
  intros L. unfold str_equal. rewrite parse_result_line by assumption.
  change (c_str (bytes "ALLOW")) with (bytes "ALLOW").
  rewrite String.eqb_eq. split; [|now intros ->].
  intros H.
  apply (f_equal list_ascii_of_string) in H.
  now rewrite !list_ascii_of_string_of_list_ascii in H.
Qed.

Lemma read_length (os : Os) (content : list ascii) :
  (List.length (snd (read_ os content 15)) <= 15)%nat.
Proof.
  unfold read_. destruct (read_error os); cbn; [lia|].
  rewrite length_firstn. lia.
Qed.

End ParseFacts.

(** What the parent returns, from what [select] and [read] give it. *)
Lemma parent_verdict (os : Pam.Os) (cfg : Pam.confirm_config_t)
    (user service : string) (content : list ascii) :
  let sel := Pam.select_ os (Pam.wrap_int (Pam.timeout cfg + 5)) 0 in
  let r := Pam.run_helper_parent os cfg user service content in
  (snd r = Pam.PAM_SUCCESS <->
   0 < sel /\ Pam.read_error os = false /\
   first_line (firstn 15 content) = bytes "ALLOW") /\
  (snd r = Pam.PAM_SUCCESS \/ snd r = Pam.PAM_AUTH_ERR) /\
  (content = token_line Confirm.Deny \/ content = token_line Confirm.Timeout
   \/ content = [] \/ first_line (firstn 15 content) <> bytes "ALLOW" ->
   snd r = Pam.PAM_AUTH_ERR) /\
  (0 < sel ->
   firstn 5 (fst r)
   = [Pam.Close Pam.pipefd1;
      Pam.Select (Pam.wrap_int (Pam.timeout cfg + 5)) 0;
      Pam.Read 15; Pam.Close Pam.pipefd0; Pam.Waitpid (Pam.fork_pid os)]).
Proof.
  intros sel r.
  assert (I : snd r = Pam.PAM_SUCCESS <->
              0 < sel /\ Pam.read_error os = false /\
              first_line (firstn 15 content) = bytes "ALLOW").
  { subst r. unfold Pam.run_helper_parent. fold sel.
    destruct (sel <=? 0) eqn:S.
    - apply Z.leb_le in S. cbn [snd]. split; [discriminate|lia].
    - apply Z.leb_gt in S. unfold Pam.read_.
      destruct (Pam.read_error os) eqn:R.
      + cbn. split; [discriminate|]. intros (_ & X & _). discriminate.
      + change (Z.to_nat 15) with 15%nat.
        destruct (Z.of_nat (List.length (firstn 15 content)) <=? 0) eqn:N.
        * cbn [snd]. split; [discriminate|]. intros (_ & _ & X).
          apply Z.leb_le in N.
          destruct (firstn 15 content); [discriminate|cbn in N; lia].
        * pose proof (str_equal_allow os (firstn 15 content)) as Q.
          rewrite length_firstn in Q.
          destruct (Pam.str_equal (Pam.parse_result os (firstn 15 content))
                      (bytes "ALLOW")); cbn [snd].
          -- split; [intros _|reflexivity].
             repeat split; auto. apply Q; [lia|reflexivity].
          -- split; [discriminate|]. intros (_ & _ & X).
             apply Q in X; [discriminate|lia]. }
  assert (T : snd r = Pam.PAM_SUCCESS \/ snd r = Pam.PAM_AUTH_ERR).
  { subst r. unfold Pam.run_helper_parent.
    repeat match goal with
           | |- context [if ?b then _ else _] => destruct b
           | |- context [let '(_, _) := ?p in _] => destruct p
           end; cbn [snd]; auto. }
  split; [exact I|]. split; [exact T|]. split.
  - intros H. destruct T as [T|T]; [|exact T].
    apply I in T. destruct T as (_ & _ & X).
    destruct H as [->|[->|[->|H]]]; try discriminate. contradiction.
  - intros S. subst r. unfold Pam.run_helper_parent. fold sel.
    apply Z.leb_gt in S. rewrite S.
    destruct (Pam.read_ os content 15) as [n data].
    destruct (n <=? 0); [reflexivity|].
    destruct (Pam.str_equal _ _); reflexivity.
Qed.

(** C7, as amended.  For every content of the decision channel: the parent
    returns success exactly when [select] reported the read end readable,
    the read did not fail, and the first line of the at most 15 bytes read,
    cut at the first NUL, line feed or carriage return, is ALLOW; it returns
    an authentication failure in every other case, among them the tokens
    DENY and TIMEOUT, a first line that is not ALLOW, and a channel closed
    with no data; and whenever [select] reported the read end readable the
    parent reaps the child right after the read. *)
Theorem C7_first_line (os : Pam.Os) (cfg : Pam.confirm_config_t)
    (user service : string) (content : list ascii) :
  let sel := Pam.select_ os (Pam.wrap_int (Pam.timeout cfg + 5)) 0 in
  let r := Pam.run_helper_parent os cfg user service content in
  (snd r = Pam.PAM_SUCCESS <->
   0 < sel /\ Pam.read_error os = false /\
   first_line (firstn 15 content) = bytes "ALLOW") /\
  (snd r = Pam.PAM_SUCCESS \/ snd r = Pam.PAM_AUTH_ERR) /\
  (content = token_line Confirm.Deny \/ content = token_line Confirm.Timeout
   \/ content = [] \/ first_line (firstn 15 content) <> bytes "ALLOW" ->
   snd r = Pam.PAM_AUTH_ERR) /\
  (0 < sel ->
   firstn 5 (fst r)
   = [Pam.Close Pam.pipefd1;
      Pam.Select (Pam.wrap_int (Pam.timeout cfg + 5)) 0;
      Pam.Read 15; Pam.Close Pam.pipefd0; Pam.Waitpid (Pam.fork_pid os)]).
Proof. exact (parent_verdict os cfg user service content). Qed.

Lemma C7_first_line_witness :
  snd (Pam.run_helper_parent
         (example_os (Some "wayland-0") (Some alice) true true true true (Some 2000000))
         Pam.default_config "alice" "sudo" (token_line Confirm.Deny))
  = Pam.PAM_AUTH_ERR /\
  firstn 5 (fst (Pam.run_helper_parent
         (example_os (Some "wayland-0") (Some alice) true true true true (Some 2000000))
         Pam.default_config "alice" "sudo" (token_line Confirm.Deny)))
  = [Pam.Close Pam.pipefd1; Pam.Select 35 0; Pam.Read 15;
     Pam.Close Pam.pipefd0; Pam.Waitpid 4242].
Proof.
  pose proof (C7_first_line
                (example_os (Some "wayland-0") (Some alice) true true true true
                            (Some 2000000))
                Pam.default_config "alice" "sudo" (token_line Confirm.Deny))
    as (_ & _ & D & W).
  split.
  - apply D. left. reflexivity.
  - apply W. reflexivity.
Defined.

(** C7 as stated fails: the parent returns success for ALLOW followed by a
    carriage return and more bytes, and for ALLOW followed by a NUL and more
    bytes.  Neither content is one of the three tokens followed by a newline,
    and in neither is the first line, up to the newline, ALLOW. *)
Lemma C7_counterexample :
  snd (Pam.run_helper_parent
         (example_os (Some "wayland-0") (Some alice) true true true true (Some 2000000))
         Pam.default_config "alice" "sudo"
         (bytes "ALLOW" ++ CR :: bytes "DENY" ++ [LF]))
  = Pam.PAM_SUCCESS /\
  spec_well_formed (bytes "ALLOW" ++ CR :: bytes "DENY" ++ [LF]) = false /\
  spec_first_line (bytes "ALLOW" ++ CR :: bytes "DENY" ++ [LF])
  <> bytes "ALLOW" /\
  snd (Pam.run_helper_parent
         (example_os (Some "wayland-0") (Some alice) true true true true (Some 2000000))
         Pam.default_config "alice" "sudo"
         (bytes "ALLOW" ++ NUL :: bytes "x" ++ [LF]))
  = Pam.PAM_SUCCESS /\
  spec_well_formed (bytes "ALLOW" ++ NUL :: bytes "x" ++ [LF]) = false /\
  spec_first_line (bytes "ALLOW" ++ NUL :: bytes "x" ++ [LF])
  <> bytes "ALLOW".
Proof.
  vm_compute. repeat split; discriminate.
Qed.

(** * The deadline of the parent *)

Lemma wrap_int_small (z : Z) :
  Pam.INT_MIN <= z <= Pam.INT_MAX -> Pam.wrap_int z = z.
Proof.
  unfold Pam.INT_MIN, Pam.INT_MAX, Pam.wrap_int. intros H.
  rewrite Z.mod_small; lia.
Qed.

(** With a timeout whose sum with 5 is an [int], the parent waits with
    [select] for exactly [timeout + 5] seconds and 0 microseconds.  When the
    read end is not readable by then, it sends SIGKILL to the child, then
    reaps it, and returns an authentication failure.  When the read end is
    readable in time and [select] does not fail, nothing is killed and the
    parent reads. *)
Lemma parent_deadline (os : Pam.Os) (cfg : Pam.confirm_config_t)
    (user service : string) (content : list ascii) :
  Pam.INT_MIN <= Pam.timeout cfg ->
  Pam.timeout cfg + 5 <= Pam.INT_MAX ->
  let r := Pam.run_helper_parent os cfg user service content in
  nth_error (fst r) 1 = Some (Pam.Select (Pam.timeout cfg + 5) 0) /\
  (deadline_missed os cfg ->
   firstn 5 (fst r)
   = [Pam.Close Pam.pipefd1; Pam.Select (Pam.timeout cfg + 5) 0;
      Pam.Kill (Pam.fork_pid os) Pam.SIGKILL; Pam.Waitpid (Pam.fork_pid os);
      Pam.Close Pam.pipefd0] /\
   snd r = Pam.PAM_AUTH_ERR) /\
  (forall t, Pam.ready_at os = Some t ->
             t <= (Pam.timeout cfg + 5) * 1000000 ->
             0 <= Pam.timeout cfg + 5 -> Pam.select_error os = false ->
             existsb is_kill (fst r) = false /\
             nth_error (fst r) 2 = Some (Pam.Read 15)).
Proof.
  intros Lo Hi r. subst r. unfold Pam.run_helper_parent.
  rewrite wrap_int_small by (unfold Pam.INT_MIN in *; lia).
  split; [|split].
  - destruct (Pam.select_ os (Pam.timeout cfg + 5) 0 <=? 0); [reflexivity|].
    destruct (Pam.read_ os content 15) as [n data].
    destruct (n <=? 0); [reflexivity|].
    destruct (Pam.str_equal _ _); reflexivity.
  - intros M.
    assert (S : (Pam.select_ os (Pam.timeout cfg + 5) 0 <=? 0) = true).
    { apply Z.leb_le. unfold Pam.select_, deadline_missed in *.
      destruct ((Pam.timeout cfg + 5 <? 0) || Pam.select_error os); [lia|].
      destruct (Pam.ready_at os) as [t|]; [|lia].
      destruct (t <=? (Pam.timeout cfg + 5) * 1000000 + 0) eqn:E; [|lia].
      apply Z.leb_le in E. lia. }
    rewrite S. split; reflexivity.
  - intros t R T P E.
    assert (S : (Pam.select_ os (Pam.timeout cfg + 5) 0 <=? 0) = false).
    { apply Z.leb_gt. unfold Pam.select_. rewrite R, E.
      destruct (Pam.timeout cfg + 5 <? 0) eqn:N; [apply Z.ltb_lt in N; lia|].
      cbn [orb].
      destruct (t <=? (Pam.timeout cfg + 5) * 1000000 + 0) eqn:E';
        [lia|apply Z.leb_gt in E'; lia]. }
    rewrite S.
    destruct (Pam.read_ os content 15) as [n data].
    unfold Pam.logged.
    destruct (n <=? 0); [|destruct (Pam.str_equal _ _)];
      destruct (Pam.log_attempts cfg =? 0); split; reflexivity.
Qed.

(** * The headless policy *)

(** C6.  For every attempt that reaches the display check (the user name
    was obtained and the module is enabled for the service) and finds no
    display for the target user: no process is spawned, and the value
    returned depends on [headless_action] alone: success for "allow", an
    authentication failure for "deny", and PAM_IGNORE for any other value. *)
Theorem C6_headless (os : Pam.Os) (user : string) :
  Pam.pam_get_user os = (Pam.PAM_SUCCESS, Some user) ->
  Pam.enabled (Pam.load_config os (Pam.service_name os)) <> 0 ->
  fst (Pam.has_display os (Pam.display_uid os user)) = false ->
  let r := Pam.pam_sm_authenticate os in
  Pam.ret r
  = headless_outcome
      (Pam.headless_action (Pam.load_config os (Pam.service_name os))) /\
  existsb Pam.is_spawn (Pam.parent_calls r) = false /\
  Pam.child_calls r = [].
Proof.
  intros U E D r. subst r. unfold Pam.pam_sm_authenticate, headless_outcome.
  rewrite U. apply Z.eqb_neq in E. rewrite E.
  assert (C : snd (Pam.has_display os (Pam.display_uid os user)) = []).
  { unfold Pam.has_display, Pam.find_wayland_display in *.
    destruct (Pam.getenv_WAYLAND_DISPLAY os) as [[|]|];
      try discriminate;
      (destruct (Pam.readdir_run_user os _); [|reflexivity];
       destruct (find _ _); [discriminate|reflexivity]). }
  destruct (Pam.has_display os (Pam.display_uid os user)) as [found calls].
  cbn [fst snd] in *. subst found calls. cbn [negb].
  destruct (String.eqb _ "allow"); [now cbn|].
  destruct (String.eqb _ "deny"); now cbn.
Qed.

Lemma C6_headless_witness :
  Pam.ret (Pam.pam_sm_authenticate
             (example_os None (Some alice) true true true true None))
  = Pam.PAM_IGNORE.
Proof.
  exact (proj1 (C6_headless
                  (example_os None (Some alice) true true true true None)
                  "alice" eq_refl ltac:(vm_compute; discriminate) eq_refl)).
Defined.

(** * The child: privilege drop and exec *)

Section ChildFacts.
Import Pam.

Lemma ends_with_refl (l : list call) : ends_with l l.
Proof. now exists []. Qed.

Lemma ends_with_cons (c : call) (l suffix : list call) :
  ends_with l suffix -> ends_with (c :: l) suffix.
Proof. intros [pre ->]. now exists (c :: pre). Qed.

(** A channel on which nothing was written: whatever [select] and [read]
    do, the parent returns an authentication failure. *)
Lemma parent_empty_channel (os : Os) (cfg : confirm_config_t)
    (user service : string) :
  snd (run_helper_parent os cfg user service []) = PAM_AUTH_ERR.
Proof.
  destruct (parent_verdict os cfg user service []) as (_ & _ & H & _).
  apply H. auto.
Qed.

Lemma parent_deny (os : Os) (cfg : confirm_config_t) (user service : string) :
  snd (run_helper_parent os cfg user service (token_line Confirm.Deny))
  = PAM_AUTH_ERR.
Proof.
  destruct (parent_verdict os cfg user service (token_line Confirm.Deny))
    as (_ & _ & H & _).
  apply H. auto.
Qed.

End ChildFacts.

(** Case analysis of the child: the target identity, the password entry and
    the outcome of each call. *)
Ltac child_cases os user :=
  unfold Pam.child, identity_calls, Pam.attempt, Pam.exec_helper;
  destruct (Pam.target_identity os user) as [uid gid];
  destruct (Pam.getpwuid os uid) as [pw|];
  try destruct (Pam.initgroups_ok os (Pam.pw_name pw) (Pam.pw_gid pw)) eqn:Egroups;
  try destruct (Pam.setgid_ok os (Pam.pw_gid pw)) eqn:Egid;
  try destruct (Pam.setgid_ok os gid) eqn:Egid';
  destruct (Pam.setuid_ok os uid) eqn:Euid;
  destruct (Pam.dup2_ok os) eqn:Edup;
  destruct (Pam.execv_ok os) eqn:Eexec.

Ltac ends_with_tac :=
  repeat first [apply ends_with_refl | apply ends_with_cons].

(** The child, run by run: its identity calls are an initial part of
    [identity_calls]; it reaches [execv] only with all of them done and
    successful; a failed identity call is followed by [_exit(1)] and nothing
    else, and leaves no [execv], no [write] and an empty channel. *)
Lemma child_drop (os : Pam.Os) (cfg : Pam.confirm_config_t) (user : string)
    (fm fs : string) :
  let tr := Pam.child os cfg user fm fs in
  (exists rest, identity_calls os user = filter Pam.is_identity_call tr ++ rest) /\
  (existsb Pam.is_execv tr = true ->
   forallb (call_ok os) (identity_calls os user) = true /\
   exists pre post,
     tr = pre ++ Pam.Execv (Pam.HELPER_PATH os) (Pam.helper_args os cfg fm fs)
                 :: post /\
     filter Pam.is_identity_call pre = identity_calls os user /\
     filter Pam.is_identity_call post = []) /\
  (forallb (call_ok os) (filter Pam.is_identity_call tr) = false ->
   (exists c, ends_with tr [c; Pam.Exit 1] /\
              Pam.is_identity_call c = true /\ call_ok os c = false) /\
   existsb Pam.is_execv tr = false /\
   existsb Pam.is_write tr = false /\
   Pam.channel_content os tr = []).
Proof.
  intros tr. subst tr. split; [|split].
  - child_cases os user; cbn;
      first [now exists [] | now eexists [_] | now eexists [_; _]
            | now eexists [_; _; _]].
  - child_cases os user; cbn; try discriminate; intros _;
      rewrite ?Egroups, ?Egid, ?Egid', ?Euid; (split; [reflexivity|]).
    all: try (eexists [_; _; _; _; _; _; _; _; _], _;
              split; [reflexivity|split; reflexivity]).
    all: try (eexists [_; _; _; _; _], _;
              split; [reflexivity|split; reflexivity]).
  - child_cases os user; cbn; rewrite ?Egroups, ?Egid, ?Egid', ?Euid; cbn;
      try discriminate; intros _.
    all: split; [eexists; split; [ends_with_tac|split; cbn; auto]|].
    all: split; [reflexivity|split; [reflexivity|]].
    all: unfold Pam.channel_content; cbn; now destruct (Pam.write_ok os).
Qed.

(** When [execv] was called and failed, the child ends with the write of
    the DENY line and [_exit(1)]. *)
Lemma child_exec_failed (os : Pam.Os) (cfg : Pam.confirm_config_t)
    (user : string) (fm fs : string) :
  let tr := Pam.child os cfg user fm fs in
  existsb Pam.is_execv tr = true -> Pam.execv_ok os = false ->
  ends_with tr [Pam.Execv (Pam.HELPER_PATH os) (Pam.helper_args os cfg fm fs);
                Pam.Write (token_line Confirm.Deny); Pam.Exit 1] /\
  (Pam.write_ok os = true ->
   Pam.channel_content os tr = token_line Confirm.Deny) /\
  (Pam.write_ok os = false -> Pam.channel_content os tr = []).
Proof.
  intros tr. subst tr.
  child_cases os user; cbn; try discriminate; intros _ _.
  all: split; [ends_with_tac|].
  all: unfold Pam.channel_content; cbn; split; now intros ->.
Qed.

(** [run_helper] once the pipe and the fork succeeded: the child runs and
    the parent reads what the child side left in the pipe. *)
Lemma run_helper_forked (os : Pam.Os) (cfg : Pam.confirm_config_t)
    (user service : string) :
  Pam.pipe_ok os = true -> 0 <= Pam.fork_pid os ->
  exists fm fs,
    Pam.child_calls (Pam.run_helper os cfg user service)
    = Pam.child os cfg user fm fs /\
    Pam.ret (Pam.run_helper os cfg user service)
    = snd (Pam.run_helper_parent os cfg user service
             (Pam.channel_content os (Pam.child os cfg user fm fs))).
Proof.
  intros P F. unfold Pam.run_helper. rewrite P. cbn [negb].
  apply Z.ltb_ge in F. rewrite F.
  do 2 eexists.
  destruct (Pam.run_helper_parent _ _ _ _ _) as [p r] eqn:E.
  cbn [Pam.child_calls Pam.ret]. split; [reflexivity|].
  now rewrite E.
Qed.

(** C1.  The code at an input where it misses the privilege drop the claim
    describes.  The module is called through sudo by root for uid 1000, and
    the password database has no entry for uid 1000; every call succeeds.
    The child then reaches [execv] having called only [setgid], with the gid
    of the caller, and [setuid]: [initgroups] is never called, so the helper
    runs as uid 1000 with the group 0 and the supplementary groups of the
    caller.  With an entry for the uid the same code calls [initgroups],
    [setgid] and [setuid], in this order, before [execv]. *)
Theorem C1_missing_initgroups :
  Pam.getpwuid
    (example_os (Some "wayland-0") None true true true true (Some 1000000))
    (fst (Pam.target_identity
            (example_os (Some "wayland-0") None true true true true
                        (Some 1000000)) "alice")) = None /\
  existsb Pam.is_execv
    (Pam.child_calls
       (Pam.run_helper
          (example_os (Some "wayland-0") None true true true true (Some 1000000))
          Pam.default_config "alice" "sudo")) = true /\
  existsb is_initgroups
    (Pam.child_calls
       (Pam.run_helper
          (example_os (Some "wayland-0") None true true true true (Some 1000000))
          Pam.default_config "alice" "sudo")) = false /\
  filter Pam.is_identity_call
    (Pam.child_calls
       (Pam.run_helper
          (example_os (Some "wayland-0") None true true true true (Some 1000000))
          Pam.default_config "alice" "sudo"))
  = [Pam.Setgid 0; Pam.Setuid 1000] /\
  filter Pam.is_identity_call
    (Pam.child_calls
       (Pam.run_helper
          (example_os (Some "wayland-0") (Some alice) true true true true
                      (Some 1000000))
          Pam.default_config "alice" "sudo"))
  = [Pam.Initgroups "alice" 1000; Pam.Setgid 1000; Pam.Setuid 1000].
Proof. vm_compute. auto. Qed.

(** * A rejected session lock *)





Lemma C4_decision_latch_witness :
  snd (Confirm.run_inputs
         (Confirm.confirm_window_new Confirm.default_params true 0 false)
         ([Confirm.DenyClicked]
            ++ [Confirm.AllowClicked 900000; Confirm.CloseRequest]))
  = [Confirm.Deny] /\
  Helper.main
    (Helper.mkEnv (Some (Helper.mkConfig Confirm.default_params false))
                  (Some "wayland-0") false false false 0 false)
    (map Helper.WindowInput
         [Confirm.TimerTick 500000; Confirm.AllowClicked 600000;
          Confirm.DenyClicked])
  = Some (exit_of Confirm.Allow).
Proof.
  pose proof (C4_decision_latch Confirm.default_params true 0 false
                [Confirm.DenyClicked]
                [Confirm.AllowClicked 900000; Confirm.CloseRequest])
    as (_ & A & _).
  pose proof (C4_decision_latch Confirm.default_params true 0 false
                [Confirm.TimerTick 500000; Confirm.AllowClicked 600000;
                 Confirm.DenyClicked] [])
    as (_ & _ & _ & B & _).
  split.
  - exact (eq_trans (proj1 (A eq_refl)) eq_refl).
  - exact (B (Helper.mkEnv (Some (Helper.mkConfig Confirm.default_params false))
                           (Some "wayland-0") false false false 0 false)
             (Helper.mkConfig Confirm.default_params false)
             eq_refl eq_refl eq_refl).
Defined.

(** * Numbers on the command line *)

Section AtoiFacts.
Import Libc.

Lemma digits_of_uint_acc (d : Decimal.uint) (acc : positive) :
  digits (Zpos acc) (bytes (NilEmpty.string_of_uint d))
  = Zpos (Pos.of_uint_acc d acc).
Proof.
  revert acc. induction d as [|d IH|d IH|d IH|d IH|d IH|d IH|d IH|d IH|d IH|d IH];
    intros acc; [reflexivity|..];
    cbn [NilEmpty.string_of_uint bytes list_ascii_of_string digits];
    match goal with
    | |- context [isdigit ?c] => change (isdigit c) with true
    end; cbv iota;
    match goal with
    | |- context [code ?c] =>
        let r := eval cbv in (code c) in change (code c) with r
    end;
    cbn [Pos.of_uint_acc];
    match goal with
    | |- digits ?v _ = Zpos (Pos.of_uint_acc _ ?a) =>
        replace v with (Zpos a) by lia
    end; apply IH.
Qed.

Lemma digits_of_uint (d : Decimal.uint) :
  digits 0 (bytes (NilEmpty.string_of_uint d)) = Z.of_uint d.
Proof.
  unfold Z.of_uint.
  induction d as [|d IH|d IH|d IH|d IH|d IH|d IH|d IH|d IH|d IH|d IH];
    [reflexivity|exact IH|..];
    cbn [NilEmpty.string_of_uint bytes list_ascii_of_string digits];
    match goal with
    | |- context [isdigit ?c] => change (isdigit c) with true
    end; cbv iota;
    match goal with
    | |- digits ?v _ = _ => let p := eval cbv in v in change v with p
    end; apply digits_of_uint_acc.
Qed.

Lemma atoi_digit_first (c : ascii) (rest : list ascii) :
  isdigit c = true -> atoi_bytes (c :: rest) = digits 0 (c :: rest).
Proof.
  intros D. unfold atoi_bytes. cbn [skip_space].
  assert (R : 48 <= code c <= 57).
  { unfold isdigit in D. apply andb_prop in D as [A B].
    apply Z.leb_le in A, B. lia. }
  assert (S : isspace c = false).
  { unfold isspace. destruct (code c =? 32) eqn:E; [apply Z.eqb_eq in E; lia|].
    destruct (9 <=? code c) eqn:E1; [|reflexivity].
    destruct (code c <=? 13) eqn:E2; [apply Z.leb_le in E2; lia|reflexivity]. }
  rewrite S.
  destruct (Ascii.eqb c "-") eqn:M.
  { apply Ascii.eqb_eq in M. subst c. change (code "-") with 45 in R. lia. }
  destruct (Ascii.eqb c "+") eqn:P.
  { apply Ascii.eqb_eq in P. subst c. change (code "+") with 43 in R. lia. }
  reflexivity.
Qed.

Lemma atoi_of_uint (d : Decimal.uint) :
  atoi (NilZero.string_of_uint d) = Z.of_uint d.
Proof.
  unfold atoi.
  destruct d; [reflexivity|..];
    (etransitivity; [apply atoi_digit_first; reflexivity|]);
    match goal with
    | |- _ = Z.of_uint ?x => exact (digits_of_uint x)
    end.
Qed.

(** A number printed with ["%d"] is read back by [atoi] as itself. *)
Lemma atoi_int_to_string (z : Z) : atoi (Pam.int_to_string z) = z.
Proof.
  unfold Pam.int_to_string.
  rewrite <- (DecimalZ.of_to z) at 2.
  destruct (Z.to_int z) as [d|d]; cbn [NilZero.string_of_int Z.of_int].
  - apply atoi_of_uint.
  - pose proof (atoi_of_uint d) as H. rewrite <- H. clear H.
    unfold atoi, atoi_bytes at 1.
    cbn [bytes list_ascii_of_string skip_space].
    change (isspace "-"%char) with false. cbv iota.
    change (Ascii.eqb "-" "-") with true. cbv iota.
    f_equal.
    destruct d; [reflexivity|..];
      symmetry; apply atoi_digit_first; reflexivity.
Qed.

End AtoiFacts.

(** * The arguments of the helper *)

Section ArgsFacts.
Import HelperArgs.

Lemma parse_loop_none (n : nat) :
  forall (args : list string) (config : Helper.AppConfig),
    (List.length args <= n)%nat ->
    parse_loop args config = None ->
    In "--help" args \/ In "-h" args.
Proof.
  induction n as [|n IH]; intros args config L H.
  - destruct args; [discriminate|cbn in L; lia].
  - destruct args as [|arg rest]; [discriminate|].
    cbn [parse_loop] in H. cbn in L.
    destruct (String.eqb arg "--help") eqn:E1.
    { apply String.eqb_eq in E1. subst. left. now left. }
    destruct (String.eqb arg "-h") eqn:E2.
    { apply String.eqb_eq in E2. subst. right. now left. }
    cbn [orb] in H.
    assert (K : forall l c, (List.length l <= n)%nat -> parse_loop l c = None ->
                            In "--help" (arg :: l) \/ In "-h" (arg :: l)).
    { intros l c Ll Hl. destruct (IH l c Ll Hl); [left|right]; now right. }
    destruct rest as [|v rest'].
    + repeat match type of H with
             | (if ?b then _ else _) = None => destruct b
             end; discriminate.
    + assert (K' : forall c, parse_loop rest' c = None ->
                             In "--help" (arg :: v :: rest')
                             \/ In "-h" (arg :: v :: rest')).
      { intros c Hc. destruct (IH rest' c) as [X|X]; auto; [cbn in L; lia|..];
          [left|right]; right; now right. }
      repeat match type of H with
             | (if ?b then _ else _) = None => destruct b
             end; eauto; apply (K (v :: rest') _ ltac:(cbn in *; lia) H).
Qed.

End ArgsFacts.

(** X1.  [parse_args] gives up only for a help flag: when it returns
    nothing, --help or -h is among the arguments after the program name; and
    it returns nothing whenever the first of them is --help or -h. *)
Theorem X1_parse_args_help (argv : list string) (prog : string)
    (rest : list string) :
  (HelperArgs.parse_args argv = None ->
   In "--help" (tl argv) \/ In "-h" (tl argv)) /\
  HelperArgs.parse_args (prog :: "--help" :: rest) = None /\
  HelperArgs.parse_args (prog :: "-h" :: rest) = None.
Proof.
  split; [|split; reflexivity].
  unfold HelperArgs.parse_args. intros H.
  exact (parse_loop_none (List.length (tl argv)) (tl argv) _ (Nat.le_refl _) H).
Qed.

Lemma X1_parse_args_help_witness :
  In "--help" (tl ["helper"; "--timeout"; "5"; "--help"])
  \/ In "-h" (tl ["helper"; "--timeout"; "5"; "--help"]).
Proof.
  exact (proj1 (X1_parse_args_help ["helper"; "--timeout"; "5"; "--help"]
                  "helper" []) eq_refl).
Defined.

(** X2.  The argument list the PAM module builds for [execv] is parsed by
    the helper into the values the module holds: title, formatted message and
    secondary text, the timeout and the minimum display time as numbers, the
    randomize flag, and the path of the caller exactly when process
    information is shown; the session lock stays in use. *)
Theorem X2_args_round_trip (os : Pam.Os) (cfg : Pam.confirm_config_t)
    (fm fs : string) :
  HelperArgs.parse_args (Pam.helper_args os cfg fm fs)
  = Some {| Helper.params :=
              Confirm.mkParams (Pam.title cfg) fm fs
                (if Pam.show_process_info cfg =? 0 then None
                 else Some (Pam.process_exe os))
                (Pam.timeout cfg) (Pam.min_display_time cfg)
                (negb (Pam.randomize_buttons cfg =? 0));
            Helper.use_session_lock := true |}.
Proof.
  unfold HelperArgs.parse_args, Pam.helper_args.
  destruct (Pam.randomize_buttons cfg =? 0);
    destruct (Pam.show_process_info cfg =? 0);
    cbn; rewrite !atoi_int_to_string; reflexivity.
Qed.

(** * Message templates *)

Section FormatFacts.
Import Pam.

Lemma string_length_of_list (l : list ascii) :
  String.length (string_of_list_ascii l) = List.length l.
Proof. induction l; cbn; congruence. Qed.

Lemma bytes_app (a b : string) : bytes (a ++ b) = bytes a ++ bytes b.
Proof. unfold bytes. induction a; cbn; congruence. Qed.

Lemma string_of_app (a b : list ascii) :
  string_of_list_ascii (a ++ b)
  = (string_of_list_ascii a ++ string_of_list_ascii b)%string.
Proof. induction a; cbn; congruence. Qed.

Lemma bytes_length (a : string) : List.length (bytes a) = String.length a.
Proof. unfold bytes. induction a; cbn; congruence. Qed.

(** The loop never stores more than [room] bytes. *)
Lemma format_loop_bound (n : nat) :
  forall (p : list ascii) (room : nat) (user service process : list ascii),
    (List.length p <= n)%nat ->
    (List.length (format_message_loop p room user service process) <= room)%nat.
Proof.
  induction n as [|n IH]; intros p room user service process L.
  - destruct p; [destruct room; cbn; lia|cbn in L; lia].
  - destruct p as [|c p1]; [destruct room; cbn; lia|].
    destruct room as [|room1]; [cbn; lia|].
    cbn in L. cbn [format_message_loop].
    destruct (Ascii.eqb c "%").
    + destruct p1 as [|d p2]; [cbn; lia|]. cbn in L.
      assert (K : forall r u s q,
                 (List.length (format_message_loop p2 r u s q) <= r)%nat).
      { intros. apply IH. lia. }
      assert (F : forall x : list ascii,
                 (List.length (firstn (S room1) x) <= S room1)%nat).
      { intros x. rewrite length_firstn. lia. }
      destruct (Ascii.eqb d "u");
        [rewrite length_app;
         specialize (K (S room1 - List.length (firstn (S room1) user))%nat
                       (skipn (S room1) user) service process);
         specialize (F user); lia|].
      destruct (Ascii.eqb d "s");
        [rewrite length_app;
         specialize (K (S room1 - List.length (firstn (S room1) service))%nat
                       user (skipn (S room1) service) process);
         specialize (F service); lia|].
      destruct (Ascii.eqb d "p");
        [rewrite length_app;
         specialize (K (S room1 - List.length (firstn (S room1) process))%nat
                       user service (skipn (S room1) process));
         specialize (F process); lia|].
      destruct (Ascii.eqb d "%");
        [cbn [List.length]; specialize (K room1 user service process); lia|].
      destruct room1 as [|room2]; [cbn; lia|].
      cbn [List.length]. specialize (K room2 user service process). lia.
    + cbn [List.length].
      specialize (IH p1 room1 user service process ltac:(lia)). lia.
Qed.

(** Text without a percent sign is copied as far as there is room. *)
Lemma format_loop_plain (p : list ascii) :
  forall (room : nat) (user service process : list ascii),
    forallb (fun c => negb (Ascii.eqb c "%"%char)) p = true ->
    format_message_loop p room user service process = firstn room p.
Proof.
  induction p as [|c p IH]; intros room user service process N.
  - now destruct room.
  - destruct room as [|room1]; [reflexivity|].
    cbn in N. apply andb_prop in N as [C N].
    cbn [format_message_loop firstn].
    destruct (Ascii.eqb c "%"); [discriminate|].
    now rewrite IH.
Qed.

(** Text without a percent sign in front of a template is copied, and the
    loop goes on with the room left. *)
Lemma format_loop_prefix (pre : list ascii) :
  forall (q : list ascii) (room : nat) (user service process : list ascii),
    forallb (fun c => negb (Ascii.eqb c "%"%char)) pre = true ->
    (List.length pre <= room)%nat ->
    format_message_loop (pre ++ q) room user service process
    = pre ++ format_message_loop q (room - List.length pre)
               user service process.
Proof.
  induction pre as [|c pre IH]; intros q room user service process N L.
  - cbn. now rewrite Nat.sub_0_r.
  - cbn in N, L. apply andb_prop in N as [C N].
    destruct room as [|room1]; [lia|].
    cbn [app format_message_loop].
    destruct (Ascii.eqb c "%"); [discriminate|].
    rewrite IH by (auto; lia). reflexivity.
Qed.

(** A substitution with room for the whole value: the value is copied and
    used up. *)
Lemma format_loop_directive (d : ascii) (rest : list ascii) (room : nat)
    (user service process : string) (v : string) :
  directive_value d user service process = Some v ->
  (String.length v <= room)%nat ->
  exists user' service' process',
    format_message_loop ("%"%char :: d :: rest) room
      (bytes user) (bytes service) (bytes process)
    = bytes v ++ format_message_loop rest (room - String.length v)
                   user' service' process' /\
    (Ascii.eqb d "u"%char = true -> user' = []) /\
    (Ascii.eqb d "s"%char = true -> service' = []) /\
    (Ascii.eqb d "p"%char = true -> process' = []).
Proof.
  unfold directive_value. intros D L.
  assert (F : forall x : string,
             (String.length x <= room)%nat ->
             firstn room (bytes x) = bytes x /\ skipn room (bytes x) = []).
  { intros x Lx. rewrite <- bytes_length in Lx.
    split; [now apply firstn_all2|now apply skipn_all2]. }
  assert (Z0 : room = 0%nat -> bytes v = []).
  { intros ->. destruct v; [reflexivity|cbn in L; lia]. }
  destruct (Ascii.eqb d "u") eqn:U;
    [apply Ascii.eqb_eq in U; subst d; injection D as ->
    |destruct (Ascii.eqb d "s") eqn:S;
      [apply Ascii.eqb_eq in S; subst d; injection D as ->
      |destruct (Ascii.eqb d "p") eqn:P;
        [apply Ascii.eqb_eq in P; subst d; injection D as ->
        |discriminate D]]].
  - exists [], (bytes service), (bytes process).
    split; [|repeat split; try reflexivity; intros X; discriminate X].
    destruct room as [|room1];
      [rewrite Z0 by reflexivity; destruct rest; reflexivity|].
    destruct (F v L) as [F1 F2].
    cbn [format_message_loop]. cbn [Ascii.eqb Bool.eqb].
    now rewrite F1, F2, bytes_length.
  - exists (bytes user), [], (bytes process).
    split; [|repeat split; try reflexivity; intros X; discriminate X].
    destruct room as [|room1];
      [rewrite Z0 by reflexivity; destruct rest; reflexivity|].
    destruct (F v L) as [F1 F2].
    cbn [format_message_loop]. cbn [Ascii.eqb Bool.eqb].
    now rewrite F1, F2, bytes_length.
  - exists (bytes user), (bytes service), [].
    split; [|repeat split; try reflexivity; intros X; discriminate X].
    destruct room as [|room1];
      [rewrite Z0 by reflexivity; destruct rest; reflexivity|].
    destruct (F v L) as [F1 F2].
    cbn [format_message_loop]. cbn [Ascii.eqb Bool.eqb].
    now rewrite F1, F2, bytes_length.
Qed.

End FormatFacts.

(** X3.  [format_message] never overruns its buffer: for a buffer of [len]
    bytes, [len] at least 1, the text stored is shorter than [len], so the
    terminating NUL fits, whatever the template and the values are. *)
Theorem X3_format_message_fits (template : string) (len : nat)
    (user service process : string) :
  (0 < len)%nat ->
  (String.length (Pam.format_message template len user service process)
   < len)%nat.
Proof.
  intros L. unfold Pam.format_message.
  rewrite string_length_of_list.
  pose proof (format_loop_bound (List.length (bytes template)) (bytes template)
                (len - 1) (bytes user) (bytes service) (bytes process)
                (Nat.le_refl _)).
  lia.
Qed.

Lemma X3_format_message_fits_witness :
  (String.length (Pam.format_message "%u asks for %s via %p" 8
                    "alice" "sudo" "bash") < 8)%nat.
Proof. apply X3_format_message_fits. lia. Defined.


Lemma plain_text_no_percent (s : string) :
  plain_text s = true -> no_percent s = true.
Proof.
  unfold plain_text, no_percent. induction (bytes s) as [|c l IH]; cbn; auto.
  intros H. apply andb_prop in H as [H1 H2]. apply andb_prop in H1 as [H1 _].
  now rewrite H1, IH.
Qed.

(** X4.  A template of plain text (no percent sign) is copied unchanged when it is
    shorter than the buffer, and cut to the first [len - 1] bytes when it is
    not. *)
Theorem X4_format_message_plain (template : string) (len : nat)
    (user service process : string) :
  plain_text template = true ->
  Pam.format_message template len user service process
  = string_of_list_ascii (firstn (len - 1) (bytes template)) /\
  ((String.length template < len)%nat ->
   Pam.format_message template len user service process = template).
Proof.
  intros N. apply plain_text_no_percent in N. unfold Pam.format_message.
  rewrite format_loop_plain by exact N. split; [reflexivity|].
  intros L. rewrite firstn_all2 by (rewrite bytes_length; lia).
  apply string_of_list_ascii_of_string.
Qed.

Lemma X4_format_message_plain_witness :
  Pam.format_message "Click Allow to continue." 512 "alice" "sudo" "bash"
  = "Click Allow to continue.".
Proof.
  apply (proj2 (X4_format_message_plain "Click Allow to continue." 512
                  "alice" "sudo" "bash" eq_refl)).
  vm_compute. lia.
Defined.

Section SubstFacts.
Import Pam.

(** The loop on plain text that fits. *)
Lemma format_loop_tail (post : string) (room : nat)
    (user service process : list ascii) :
  no_percent post = true -> (String.length post <= room)%nat ->
  format_message_loop (bytes post) room user service process = bytes post.
Proof.
  intros N L. rewrite format_loop_plain by exact N.
  apply firstn_all2. rewrite bytes_length. lia.
Qed.

End SubstFacts.

(** X5.  In a template with one substitution, plain text before and after
    it, and room for the whole result, [%u] is replaced by the user, [%s] by
    the service and [%p] by the process. *)
Theorem X5_format_message_substitutes (d : ascii) (pre post : string)
    (len : nat) (user service process v : string) :
  directive_value d user service process = Some v ->
  plain_text pre = true -> plain_text post = true ->
  (String.length pre + String.length v + String.length post < len)%nat ->
  Pam.format_message (pre ++ String "%" (String d post)) len
                     user service process
  = (pre ++ v ++ post)%string.
Proof.
  intros D Npre Npost L.
  apply plain_text_no_percent in Npre, Npost. unfold Pam.format_message.
  rewrite bytes_app. change (bytes (String "%" (String d post)))
    with ("%"%char :: d :: bytes post).
  rewrite format_loop_prefix by (auto; rewrite bytes_length; lia).
  rewrite bytes_length.
  destruct (format_loop_directive d (bytes post)
              (len - 1 - String.length pre) user service process v D
              ltac:(lia)) as (u' & s' & p' & E & _).
  rewrite E. rewrite format_loop_tail by (auto; lia).
  rewrite !string_of_app, !string_of_list_ascii_of_string. reflexivity.
Qed.

Lemma X5_format_message_substitutes_witness :
  Pam.format_message "The application %p asks." 512 "alice" "sudo" "bash"
  = "The application bash asks.".
Proof.
  exact (X5_format_message_substitutes "p" "The application " " asks." 512
           "alice" "sudo" "bash" "bash" eq_refl eq_refl eq_refl
           ltac:(vm_compute; lia)).
Defined.

(** X6.  A value is substituted once only: the loop advances the value it
    copies, so in a template that uses the same substitution twice, with
    plain text around and room for the result, the second use is replaced by
    nothing. *)
Theorem X6_format_message_second_use (d : ascii) (pre mid post : string)
    (len : nat) (user service process v : string) :
  directive_value d user service process = Some v ->
  plain_text pre = true -> plain_text mid = true -> plain_text post = true ->
  (String.length pre + String.length v + String.length mid
   + String.length post < len)%nat ->
  Pam.format_message
    (pre ++ String "%" (String d (mid ++ String "%" (String d post)))) len
    user service process
  = (pre ++ v ++ mid ++ post)%string.
Proof.
  intros D Npre Nmid Npost L.
  apply plain_text_no_percent in Npre, Nmid, Npost.
  unfold Pam.format_message.
  rewrite bytes_app.
  change (bytes (String "%" (String d (mid ++ String "%" (String d post)))))
    with ("%"%char :: d :: bytes (mid ++ String "%" (String d post))).
  rewrite format_loop_prefix by (auto; rewrite bytes_length; lia).
  rewrite bytes_length.
  destruct (format_loop_directive d
              (bytes (mid ++ String "%" (String d post)))
              (len - 1 - String.length pre) user service process v D
              ltac:(lia)) as (u' & s' & p' & E & Eu & Es & Ep).
  rewrite E. clear E. rewrite bytes_app.
  change (bytes (String "%" (String d post)))
    with ("%"%char :: d :: bytes post).
  rewrite format_loop_prefix by (auto; rewrite bytes_length; lia).
  rewrite bytes_length.
  set (room := (len - 1 - String.length pre - String.length v
                - String.length mid)%nat).
  assert (R : (String.length post <= room)%nat) by (subst room; lia).
  assert (T : Pam.format_message_loop ("%"%char :: d :: bytes post) room
                u' s' p' = bytes post).
  { unfold directive_value in D.
    destruct room as [|room1].
    - assert (bytes post = []) as ->
          by (destruct post; [reflexivity|cbn in R; lia]).
      reflexivity.
    - cbn [Pam.format_message_loop]. cbn [Ascii.eqb Bool.eqb].
      destruct (Ascii.eqb d "u") eqn:U.
      { rewrite (Eu eq_refl). cbn [firstn skipn app List.length].
        rewrite Nat.sub_0_r. apply format_loop_tail; auto. }
      destruct (Ascii.eqb d "s") eqn:S.
      { rewrite (Es eq_refl). cbn [firstn skipn app List.length].
        rewrite Nat.sub_0_r. apply format_loop_tail; auto. }
      destruct (Ascii.eqb d "p") eqn:P; [|discriminate D].
      rewrite (Ep eq_refl). cbn [firstn skipn app List.length].
      rewrite Nat.sub_0_r. apply format_loop_tail; auto. }
  rewrite T.
  rewrite !string_of_app, !string_of_list_ascii_of_string. reflexivity.
Qed.

Lemma X6_format_message_second_use_witness :
  Pam.format_message "%u (%u)" 512 "alice" "sudo" "bash" = "alice ()".
Proof.
  exact (X6_format_message_second_use "u" "" " (" ")" 512
           "alice" "sudo" "bash" "alice" eq_refl eq_refl eq_refl eq_refl
           ltac:(vm_compute; lia)).
Defined.

(** X7.  Around plain text and with room for the result: [%%] gives one
    percent sign; a percent sign followed by a character that is none of
    [u], [s], [p], [%] is kept together with that character; a percent sign
    that ends the template is kept. *)
Theorem X7_format_message_escapes (d : ascii) (pre post : string) (len : nat)
    (user service process : string) :
  plain_text pre = true -> plain_text post = true ->
  ((String.length pre + 1 + String.length post < len)%nat ->
   Pam.format_message (pre ++ String "%" (String "%" post)) len
                      user service process
   = (pre ++ String "%" post)%string) /\
  (directive_value d user service process = None ->
   d <> "%"%char -> d <> NUL ->
   (String.length pre + 2 + String.length post < len)%nat ->
   Pam.format_message (pre ++ String "%" (String d post)) len
                      user service process
   = (pre ++ String "%" (String d post))%string) /\
  ((String.length pre + 1 < len)%nat ->
   Pam.format_message (pre ++ "%") len user service process
   = (pre ++ "%")%string).
Proof.
  intros Npre Npost. apply plain_text_no_percent in Npre, Npost.
  unfold Pam.format_message. split; [|split].
  - intros L. rewrite bytes_app.
    change (bytes (String "%" (String "%" post)))
      with ("%"%char :: "%"%char :: bytes post).
    rewrite format_loop_prefix by (auto; rewrite bytes_length; lia).
    rewrite bytes_length.
    destruct (len - 1 - String.length pre)%nat as [|room1] eqn:R; [lia|].
    cbn [Pam.format_message_loop]. cbn [Ascii.eqb Bool.eqb].
    rewrite format_loop_tail by (auto; lia).
    rewrite string_of_app. cbn [string_of_list_ascii].
    now rewrite !string_of_list_ascii_of_string.
  - unfold directive_value. intros D P0 Z0 L. rewrite bytes_app.
    change (bytes (String "%" (String d post)))
      with ("%"%char :: d :: bytes post).
    rewrite format_loop_prefix by (auto; rewrite bytes_length; lia).
    rewrite bytes_length.
    destruct (len - 1 - String.length pre)%nat as [|[|room2]] eqn:R;
      [lia|lia|].
    cbn [Pam.format_message_loop]. cbn [Ascii.eqb Bool.eqb].
    destruct (Ascii.eqb d "u"); [discriminate D|].
    destruct (Ascii.eqb d "s"); [discriminate D|].
    destruct (Ascii.eqb d "p"); [discriminate D|].
    destruct (Ascii.eqb d "%") eqn:E; [apply Ascii.eqb_eq in E; contradiction|].
    rewrite format_loop_tail by (auto; lia).
    rewrite string_of_app. cbn [string_of_list_ascii].
    now rewrite !string_of_list_ascii_of_string.
  - intros L. rewrite bytes_app. change (bytes "%") with ["%"%char].
    rewrite format_loop_prefix by (auto; rewrite bytes_length; lia).
    rewrite bytes_length.
    destruct (len - 1 - String.length pre)%nat as [|room1] eqn:R; [lia|].
    cbn [Pam.format_message_loop]. cbn [Ascii.eqb Bool.eqb].
    rewrite string_of_app. cbn [string_of_list_ascii].
    now rewrite !string_of_list_ascii_of_string.
Qed.

Lemma X7_format_message_escapes_witness :
  Pam.format_message "50%% off" 512 "alice" "sudo" "bash" = "50% off" /\
  Pam.format_message "50%d off" 512 "alice" "sudo" "bash" = "50%d off" /\
  Pam.format_message "50%" 512 "alice" "sudo" "bash" = "50%".
Proof.
  pose proof (X7_format_message_escapes "d" "50" " off" 512
                "alice" "sudo" "bash" eq_refl eq_refl) as (A & B & _).
  pose proof (X7_format_message_escapes "d" "50" "" 512
                "alice" "sudo" "bash" eq_refl eq_refl) as (_ & _ & C).
  split; [|split].
  - apply A. vm_compute. lia.
  - apply B; [reflexivity|discriminate|discriminate|vm_compute; lia].
  - apply C. vm_compute. lia.
Defined.

(** * More on the dialog *)

Section GateFacts.
Import Confirm.

Lemma send_result_only (a : ConfirmWindow) (r x : Result) :
  In x (snd (send_result a r)) -> x = r.
Proof.
  destruct (send_result_calls a r) as [E|E]; rewrite E; cbn; intuition.
Qed.

(** What an input may hand to the callback, by kind of input. *)
Lemma handle_result_kind (a : ConfirmWindow) (i : Input) (x : Result) :
  In x (snd (handle a i)) ->
  match i with
  | AllowClicked now =>
      x = Allow /\ allow_enabled a = true /\
      min_display_time a <= elapsed_ms a now
  | TimerTick now => x = Timeout /\ expired a now = true
  | _ => x = Deny
  end.
Proof.
  destruct i as [now| |keyval| |now]; cbn [handle].
  - unfold on_allow_clicked.
    destruct (allow_enabled a); cbn [negb]; [|intros []].
    destruct (elapsed_ms a now <? min_display_time a) eqn:E; [intros []|].
    apply Z.ltb_ge in E. intros H. apply send_result_only in H. auto.
  - apply send_result_only.
  - unfold on_key_pressed. destruct (keyval =? GDK_KEY_Escape); cbn [fst snd];
      [apply send_result_only|intros []].
  - rewrite on_close_request_eq.
    destruct (result_sent a); [intros []|].
    destruct (send_result a Deny) as [s c] eqn:E. cbn [snd].
    intros H. apply (send_result_only a Deny). now rewrite E.
  - unfold on_timer_tick, expired.
    destruct (timeout a - Z.quot (elapsed_ms a now) 1000 <=? 0);
      [|intros []].
    destruct (send_result a Timeout) as [s c] eqn:E. cbn [snd].
    intros H. split; [|reflexivity].
    apply (send_result_only a Timeout). now rewrite E.
Qed.

(** The allow flag is never cleared, and only a tick past the minimum
    display time sets it. *)
Lemma handle_allow_flag (a : ConfirmWindow) (i : Input) :
  (allow_enabled a = true -> allow_enabled (fst (handle a i)) = true) /\
  (allow_enabled (fst (handle a i)) = true ->
   allow_enabled a = true \/
   exists now, i = TimerTick now /\ min_display_time a <= elapsed_ms a now) /\
  (allow_button_sensitive a = allow_enabled a ->
   allow_button_sensitive (fst (handle a i))
   = allow_enabled (fst (handle a i))).
Proof.
  assert (D : forall b, allow_enabled (gtk_window_destroy b) = allow_enabled b
              /\ allow_button_sensitive (gtk_window_destroy b)
                 = allow_button_sensitive b).
  { intros b. unfold gtk_window_destroy, confirm_window_dispose.
    now destruct (timer_id b =? 0). }
  assert (S : forall r, allow_enabled (fst (send_result a r)) = allow_enabled a
              /\ allow_button_sensitive (fst (send_result a r))
                 = allow_button_sensitive a).
  { intros r. rewrite send_result_eq. destruct (result_sent a); cbn [fst]; auto.
    destruct (D (set_result_sent a true)) as [-> ->]. now cbn. }
  destruct i as [now| |keyval| |now]; cbn [handle].
  - destruct (on_allow_clicked_calls a now) as [E|E]; rewrite E; cbn [fst];
      [tauto|]. destruct (S Allow) as [-> ->]. tauto.
  - unfold on_deny_clicked. destruct (S Deny) as [-> ->]. tauto.
  - unfold on_key_pressed. destruct (keyval =? GDK_KEY_Escape); cbn [fst];
      [|tauto]. destruct (S Deny) as [-> ->]. tauto.
  - rewrite on_close_request_eq.
    destruct (result_sent a).
    + cbn [fst]. destruct (D a) as [-> ->]. tauto.
    + destruct (S Deny) as [E1 E2].
      destruct (send_result a Deny) as [s c]. cbn [fst] in *.
      destruct (D s) as [-> ->]. rewrite E1, E2. tauto.
  - unfold on_timer_tick.
    destruct (timeout a - Z.quot (elapsed_ms a now) 1000 <=? 0).
    + destruct (S Timeout) as [E1 E2].
      destruct (send_result a Timeout) as [s c]. cbn [fst] in *.
      unfold G_SOURCE_REMOVE. cbn. rewrite E1, E2. tauto.
    + unfold G_SOURCE_CONTINUE. cbv beta iota zeta. cbn [fst].
      change (allow_enabled (show_countdown a _ _)) with (allow_enabled a).
      change (min_display_time (show_countdown a _ _))
        with (min_display_time a).
      change (elapsed_ms (show_countdown a _ _) now) with (elapsed_ms a now).
      destruct (allow_enabled a) eqn:A; cbn [negb andb].
      * cbn. rewrite A. tauto.
      * destruct (min_display_time a <=? elapsed_ms a now) eqn:M.
        -- apply Z.leb_le in M. cbn. split; [discriminate|].
           split; [|reflexivity].
           intros _. right. now exists now.
        -- cbn. rewrite A. split; [discriminate|]. split; [discriminate|auto].
Qed.

Lemma elapsed_same (a b : ConfirmWindow) (now : Z) :
  same_setup a b ->
  elapsed_ms b now = elapsed_ms a now /\ expired b now = expired a now.
Proof.
  unfold same_setup, elapsed_ms, expired, elapsed_ms.
  intros (S & T & _). now rewrite S, T.
Qed.

Lemma same_setup_run (w : ConfirmWindow) (ins : list Input) :
  same_setup w (fst (run_inputs w ins)).
Proof.
  revert w. induction ins as [|i ins IH]; intros w; cbn [run_inputs].
  - apply same_setup_refl.
  - pose proof (same_setup_handle w i) as H.
    destruct (handle w i) as [w1 c1]. specialize (IH w1).
    destruct (run_inputs w1 ins) as [w2 c2]. cbn [fst] in *.
    eapply same_setup_trans; eauto.
Qed.

(** The flag after a sequence of inputs. *)
Lemma run_allow_flag (ins : list Input) :
  forall w : ConfirmWindow,
    (allow_enabled w = true ->
     allow_enabled (fst (run_inputs w ins)) = true) /\
    (allow_enabled (fst (run_inputs w ins)) = true ->
     allow_enabled w = true \/
     exists now, In (TimerTick now) ins /\
                 min_display_time w <= elapsed_ms w now) /\
    (allow_button_sensitive w = allow_enabled w ->
     allow_button_sensitive (fst (run_inputs w ins))
     = allow_enabled (fst (run_inputs w ins))).
Proof.
  induction ins as [|i ins IH]; intros w; cbn [run_inputs].
  - cbn. tauto.
  - destruct (handle_allow_flag w i) as (M1 & M2 & M3).
    pose proof (same_setup_handle w i) as SS.
    destruct (handle w i) as [w1 c1]. cbn [fst] in *.
    destruct (IH w1) as (I1 & I2 & I3).
    destruct (run_inputs w1 ins) as [w2 c2]. cbn [fst] in *.
    split; [auto|]. split; [|auto].
    intros E. destruct (I2 E) as [E1|[now [Hin Hm]]].
    + destruct (M2 E1) as [?|[now [-> Hm]]]; [now left|].
      right. exists now. split; [now left|exact Hm].
    + right. exists now. split; [now right|].
      destruct (elapsed_same w w1 now SS) as [Ee _].
      destruct SS as (_ & _ & Em & _). rewrite Ee, Em in Hm. exact Hm.
Qed.

(** An Allow among the results comes from an accept, at or after the
    minimum display time, with the flag set when it arrived. *)
Lemma run_allow_source (ins : list Input) :
  forall w : ConfirmWindow,
    In Allow (snd (run_inputs w ins)) ->
    exists pre now post,
      ins = pre ++ AllowClicked now :: post /\
      min_display_time w <= elapsed_ms w now /\
      allow_enabled (fst (run_inputs w pre)) = true.
Proof.
  induction ins as [|i ins IH]; intros w; cbn [run_inputs]; [intros []|].
  pose proof (handle_result_kind w i Allow) as K.
  pose proof (same_setup_handle w i) as SS.
  destruct (handle w i) as [w1 c1] eqn:E. cbn [fst snd] in *.
  specialize (IH w1).
  destruct (run_inputs w1 ins) as [w2 c2] eqn:R. cbn [snd] in *.
  intros H. apply in_app_or in H as [H|H].
  - specialize (K H). destruct i as [now| |keyval| |now];
      try discriminate K; try (destruct K; discriminate).
    destruct K as (_ & A & M). exists [], now, ins. now cbn.
  - destruct (IH H) as (pre & now & post & -> & M & A).
    exists (i :: pre), now, post. split; [reflexivity|].
    destruct (elapsed_same w w1 now SS) as [Ee _].
    destruct SS as (_ & _ & Em & _).
    split; [rewrite <- Ee, <- Em; exact M|].
    cbn [run_inputs]. rewrite E.
    destruct (run_inputs w1 pre). exact A.
Qed.

End GateFacts.

(** X8.  No sequence of inputs makes a dialog hand Allow to the callback
    unless it holds an accept at or after the minimum display time; and when
    the dialog has a countdown, a timer tick at or after the minimum display
    time comes before that accept. *)
Theorem X8_allow_needs_time (params : Confirm.WindowParams) (cb : bool)
    (now0 : Z) (rnd : bool) (ins : list Confirm.Input) :
  let w0 := Confirm.confirm_window_new params cb now0 rnd in
  In Confirm.Allow (snd (Confirm.run_inputs w0 ins)) ->
  exists pre now post,
    ins = pre ++ Confirm.AllowClicked now :: post /\
    Confirm.wp_min_display_time params <= Confirm.elapsed_ms w0 now /\
    (0 < Confirm.wp_timeout params ->
     exists tick,
       In (Confirm.TimerTick tick) pre /\
       Confirm.wp_min_display_time params <= Confirm.elapsed_ms w0 tick).
Proof.
  intros w0 H.
  destruct (run_allow_source ins w0 H) as (pre & now & post & E & M & A).
  exists pre, now, post. split; [exact E|]. split; [exact M|].
  intros T. destruct (run_allow_flag pre w0) as (_ & F & _).
  destruct (F A) as [A0|X]; [|exact X].
  subst w0. unfold Confirm.confirm_window_new in A0. cbn in A0.
  apply Z.ltb_lt in T. rewrite T in A0. discriminate.
Qed.

Lemma X8_allow_needs_time_witness :
  exists pre now post,
    [Confirm.TimerTick 500000; Confirm.AllowClicked 600000]
    = pre ++ Confirm.AllowClicked now :: post /\
    500 <= Confirm.elapsed_ms
             (Confirm.confirm_window_new Confirm.default_params true 0 false)
             now /\
    (0 < 30 ->
     exists tick,
       In (Confirm.TimerTick tick) pre /\
       500 <= Confirm.elapsed_ms
                (Confirm.confirm_window_new Confirm.default_params true 0 false)
                tick).
Proof.
  apply (X8_allow_needs_time Confirm.default_params true 0 false
           [Confirm.TimerTick 500000; Confirm.AllowClicked 600000]).
  vm_compute. auto.
Defined.

(** X9.  On every dialog made by [confirm_window_new], whatever inputs it
    got: the allow button is sensitive exactly when the allow flag is set,
    and a flag that is set stays set under any further inputs. *)
Theorem X9_allow_flag_kept (params : Confirm.WindowParams) (cb : bool)
    (now0 : Z) (rnd : bool) (ins later : list Confirm.Input) :
  let w := fst (Confirm.run_inputs
                  (Confirm.confirm_window_new params cb now0 rnd) ins) in
  Confirm.allow_button_sensitive w = Confirm.allow_enabled w /\
  (Confirm.allow_enabled w = true ->
   Confirm.allow_enabled (fst (Confirm.run_inputs w later)) = true).
Proof.
  intros w. split.
  - subst w. apply run_allow_flag. reflexivity.
  - apply run_allow_flag.
Qed.

Lemma X9_allow_flag_kept_witness :
  Confirm.allow_enabled
    (fst (Confirm.run_inputs
            (fst (Confirm.run_inputs
                    (Confirm.confirm_window_new Confirm.default_params true 0
                                                false)
                    [Confirm.TimerTick 500000]))
            [Confirm.TimerTick 600000; Confirm.KeyPressed 32])) = true.
Proof.
  exact (proj2 (X9_allow_flag_kept Confirm.default_params true 0 false
                  [Confirm.TimerTick 500000]
                  [Confirm.TimerTick 600000; Confirm.KeyPressed 32]) eq_refl).
Defined.

Section CountdownFacts.
Import Confirm.

Lemma existsb_same {A : Type} (f g : A -> bool) (l : list A) :
  (forall x, f x = g x) -> existsb f l = existsb g l.
Proof.
  intros E. induction l as [|x l IH]; cbn; [reflexivity|].
  now rewrite E, IH.
Qed.

(** Ticks alone: the first expired one sends Timeout, the others nothing. *)
Lemma run_ticks (times : list Z) :
  forall w : ConfirmWindow,
    result_sent w = false -> on_result w = true ->
    snd (run_inputs w (map TimerTick times))
    = if existsb (expired w) times then [Timeout] else [].
Proof.
  induction times as [|now times IH]; intros w U C; [reflexivity|].
  cbn [map run_inputs existsb].
  pose proof (same_setup_handle w (TimerTick now)) as SS.
  pose proof (handle_silent w (TimerTick now) U C) as Q.
  assert (E : expired w now = true ->
              snd (handle w (TimerTick now)) = [Timeout]).
  { intros X. cbn [handle]. unfold on_timer_tick. unfold expired in X.
    rewrite X. pose proof (send_result_fresh w Timeout U C) as F.
    now destruct (send_result w Timeout). }
  assert (N : expired w now = false -> snd (handle w (TimerTick now)) = []).
  { intros X. cbn [handle]. unfold on_timer_tick. unfold expired in X.
    now rewrite X. }
  destruct (handle_calls w (TimerTick now)) as [_|[r [_ [_ R]]]];
    destruct (expired w now) eqn:X.
  - rewrite (E eq_refl) in Q.
    destruct (handle_calls w (TimerTick now)) as [Y|[r [_ [_ R]]]];
      [rewrite (E eq_refl) in Y; discriminate|].
    destruct (run_inputs_decided _ (map TimerTick times) R) as [Z0 _].
    specialize (E eq_refl).
    destruct (handle w (TimerTick now)) as [w1 c1]. cbn [fst snd] in *.
    destruct (run_inputs w1 (map TimerTick times)). cbn [snd] in *.
    now subst.
  - specialize (N eq_refl). specialize (Q N).
    assert (X' : forall t, expired (fst (handle w (TimerTick now))) t
                           = expired w t)
      by (intros t; apply (elapsed_same _ _ t SS)).
    destruct SS as (_ & _ & _ & K).
    destruct (handle w (TimerTick now)) as [w1 c1]. cbn [fst snd] in *.
    specialize (IH w1 Q ltac:(congruence)).
    destruct (run_inputs w1 (map TimerTick times)). cbn [snd] in *.
    subst. cbn [app orb]. rewrite (existsb_same _ _ _ X'). reflexivity.
  - destruct (run_inputs_decided _ (map TimerTick times) R) as [Z0 _].
    specialize (E eq_refl).
    destruct (handle w (TimerTick now)) as [w1 c1]. cbn [fst snd] in *.
    destruct (run_inputs w1 (map TimerTick times)). cbn [snd] in *.
    now subst.
  - specialize (N eq_refl). specialize (Q N). congruence.
Qed.

End CountdownFacts.

(** X10.  A dialog that gets timer ticks only hands Timeout to the callback
    exactly once when some tick comes with the countdown expired, and
    nothing when no tick is that late.  For a clock that did not go back, the
    countdown has expired exactly when [timeout] seconds have passed since
    the window was made. *)
Theorem X10_countdown_expiry (params : Confirm.WindowParams) (now0 : Z)
    (rnd : bool) (times : list Z) (now : Z) :
  let w0 := Confirm.confirm_window_new params true now0 rnd in
  snd (Confirm.run_inputs w0 (map Confirm.TimerTick times))
  = (if existsb (Confirm.expired w0) times then [Confirm.Timeout] else []) /\
  (now0 <= now ->
   (Confirm.expired w0 now = true <->
    Confirm.wp_timeout params * 1000000 <= now - now0)).
Proof.
  intros w0. split; [now apply run_ticks|].
  intros L. subst w0. unfold Confirm.expired, Confirm.elapsed_ms. cbn.
  rewrite Z.leb_le.
  rewrite !Z.quot_div_nonneg by
    (try lia; apply Z.div_pos || (rewrite Z.quot_div_nonneg by lia;
                                  apply Z.div_pos); lia).
  pose proof (Z.div_div (now - now0) 1000 1000 ltac:(lia) ltac:(lia)) as D.
  rewrite D. change (1000 * 1000) with 1000000.
  pose proof (Z.mul_div_le (now - now0) 1000000 ltac:(lia)).
  pose proof (Z.mul_succ_div_gt (now - now0) 1000000 ltac:(lia)).
  split; intros; nia.
Qed.

Lemma X10_countdown_expiry_witness :
  Confirm.expired
    (Confirm.confirm_window_new Confirm.default_params true 1000 false)
    30001000 = true <->
  30 * 1000000 <= 30001000 - 1000.
Proof.
  refine (proj2 (X10_countdown_expiry Confirm.default_params 1000 false []
                   30001000) _).
  lia.
Defined.

(** X11.  On an undecided dialog with a callback, a click on Deny, the
    Escape key and a close request each hand Deny to the callback, set the
    latch and destroy the window; any other key changes nothing. *)
Theorem X11_deny_inputs (a : Confirm.ConfirmWindow) (keyval : Z)
    (i : Confirm.Input) :
  Confirm.result_sent a = false -> Confirm.on_result a = true ->
  (i = Confirm.DenyClicked \/ i = Confirm.KeyPressed Confirm.GDK_KEY_Escape
   \/ i = Confirm.CloseRequest ->
   snd (Confirm.handle a i) = [Confirm.Deny] /\
   Confirm.result_sent (fst (Confirm.handle a i)) = true /\
   Confirm.destroyed (fst (Confirm.handle a i)) = true) /\
  (keyval <> Confirm.GDK_KEY_Escape ->
   Confirm.handle a (Confirm.KeyPressed keyval) = (a, [])).
Proof.
  intros U C.
  assert (S : Confirm.send_result a Confirm.Deny
              = (Confirm.gtk_window_destroy (Confirm.set_result_sent a true),
                 [Confirm.Deny])).
  { rewrite send_result_eq. now rewrite U, C. }
  assert (D : forall b, Confirm.destroyed (Confirm.gtk_window_destroy b) = true).
  { intros b. unfold Confirm.gtk_window_destroy. reflexivity. }
  split.
  - intros [ -> | [ -> | -> ] ]; cbn [Confirm.handle].
    + unfold Confirm.on_deny_clicked. rewrite S. cbn [fst snd].
      rewrite result_sent_destroy, D. now cbn.
    + unfold Confirm.on_key_pressed. rewrite Z.eqb_refl, S. cbn [fst snd].
      rewrite result_sent_destroy, D. now cbn.
    + rewrite on_close_request_eq, U, S. cbn [fst snd].
      rewrite !result_sent_destroy, D. now cbn.
  - intros K. cbn [Confirm.handle]. unfold Confirm.on_key_pressed.
    apply Z.eqb_neq in K. now rewrite K.
Qed.

Lemma X11_deny_inputs_witness :
  snd (Confirm.handle
         (Confirm.confirm_window_new Confirm.default_params true 0 false)
         Confirm.CloseRequest) = [Confirm.Deny].
Proof.
  exact (proj1 (proj1 (X11_deny_inputs
           (Confirm.confirm_window_new Confirm.default_params true 0 false)
           0 Confirm.CloseRequest eq_refl eq_refl)
           (or_intror (or_intror eq_refl)))).
Defined.

(** * More on the helper process *)

Section ExitFacts.
Import Confirm.
Import Helper.

Lemma last_default (calls : list Result) (d d' : Result) :
  calls <> [] -> last calls d = last calls d'.
Proof.
  induction calls as [|r calls IH]; [congruence|]. intros _.
  destruct calls as [|r' calls]; [reflexivity|].
  change (last (r' :: calls) d = last (r' :: calls) d').
  apply IH. discriminate.
Qed.

Lemma fold_on_result_result (calls : list Result) (s : AppState) :
  result (fold_left on_result calls s) = last calls (result s).
Proof.
  revert s. induction calls as [|r calls IH]; intros s; [reflexivity|].
  cbn [fold_left]. rewrite IH.
  assert (E : result (on_result s r) = r).
  { unfold on_result. cbn [session_lock set_result].
    destruct (Wayland.is_locked (session_lock s)); cbn;
      destruct (app s); reflexivity. }
  rewrite E. destruct calls as [|r0 calls]; [reflexivity|].
  change (last (r :: r0 :: calls) (result s))
    with (last (r0 :: calls) (result s)).
  apply last_default. discriminate.
Qed.

Lemma last_in (calls : list Result) (d : Result) :
  calls <> [] -> In (last calls d) calls.
Proof.
  induction calls as [|r calls IH]; [congruence|]. intros _.
  destruct calls as [|r' calls]; [now left|].
  right. apply IH. discriminate.
Qed.

(** Only a click on Allow makes the stored result Allow. *)
Lemma dispatch_result_allow (s : AppState) (e : Event) :
  result (dispatch s e) = Allow ->
  result s = Allow \/ exists now, e = WindowInput (AllowClicked now).
Proof.
  destruct e as [ | | |monitor now rnd|i]; cbn [dispatch].
  - destruct (_ && _); cbn; auto.
  - destruct (_ && _); cbn; auto.
    destruct (Wayland.failed_callback_ (session_lock s)); cbn; auto.
    discriminate.
  - destruct (_ && _); cbn; auto.
    destruct (Wayland.unlocked_callback_ (session_lock s)); cbn; auto.
  - destruct (_ && _); cbn; auto.
    unfold Wayland.on_monitor_signal, monitor_callback.
    destruct (Wayland.monitor_callback_ (session_lock s)); cbn; auto.
    destruct (first_monitor s); cbn; auto.
  - destruct (dialog s) as [w|]; auto.
    destruct (handle w i) as [w' calls] eqn:H.
    rewrite fold_on_result_result. cbn [result set_dialog].
    destruct calls as [|r calls]; [auto|].
    intros L. right.
    assert (I : In Allow (snd (handle w i))).
    { rewrite H. cbn [snd]. rewrite <- L. apply last_in. discriminate. }
    apply handle_result_kind in I.
    destruct i as [now| |keyval| |now]; try (destruct I; discriminate);
      try discriminate.
    now exists now.
Qed.

Lemma main_loop_result_allow (evs : list Event) :
  forall s s' : AppState,
    main_loop s evs = Some s' -> result s' = Allow ->
    result s = Allow \/ exists now, In (WindowInput (AllowClicked now)) evs.
Proof.
  induction evs as [|e evs IH]; intros s s' M R; cbn [main_loop] in M.
  - destruct (quit s); [|discriminate]. injection M as <-. auto.
  - destruct (quit s); [injection M as <-; auto|].
    destruct (IH _ _ M R) as [A|[now A]].
    + destruct (dispatch_result_allow s e A) as [B|[now B]]; [auto|].
      right. exists now. left. now rewrite B.
    + right. exists now. now right.
Qed.

Lemma on_activate_result (env : Env) (config : AppConfig) :
  result (on_activate env (initial_state config)) = Deny.
Proof.
  unfold on_activate, on_activate_with_lock, on_activate_without_lock.
  destruct (_ && _).
  - destruct (Wayland.lock _ _ _ _) as [l []]; reflexivity.
  - destruct (use_session_lock _); reflexivity.
Qed.

(** What [main] leaves on stdout: nothing, or the token of a result. *)
Lemma main_exit (env : Env) (evs : list Event) (ex : Exit) :
  main env evs = Some ex ->
  (stdout ex = [] /\ started env = false) \/
  (exists s config,
     parse_args env = Some config /\
     g_application_run env (initial_state config) evs = Some s /\
     ex = exit_of (result s)).
Proof.
  unfold main, started.
  destruct (parse_args env) as [config|].
  - destruct (WAYLAND_DISPLAY env) as [[|c d]|].
    + intros M. injection M as <-. now left.
    + destruct (g_application_run _ _ _) as [s|] eqn:G; [|discriminate].
      intros M. injection M as <-. right. now exists s, config.
    + intros M. injection M as <-. now left.
  - intros M. injection M as <-. now left.
Qed.

Lemma token_first_line (r : Result) :
  first_line (firstn 15 (token_line r)) = bytes "ALLOW" <-> r = Allow.
Proof. destruct r; cbn; split; intros H; try reflexivity; discriminate. Qed.

End ExitFacts.

(** X12.  The helper and the parent, end to end.  Whatever the helper's
    surroundings and events, when it ends it has printed nothing or one token
    line, and the parent that reads this output returns success exactly when
    [select] reported the pipe readable, the read did not fail and the
    helper ended with the result Allow (token ALLOW, exit status 0).  A
    helper that ends before the dialog, after --help or without a display,
    prints nothing, and the parent returns an authentication failure even
    though the exit status after --help is 0. *)
Theorem X12_decision_round_trip (env : Helper.Env) (evs : list Helper.Event)
    (ex : Helper.Exit) (os : Pam.Os) (cfg : Pam.confirm_config_t)
    (user service : string) :
  Helper.main env evs = Some ex ->
  let sel := Pam.select_ os (Pam.wrap_int (Pam.timeout cfg + 5)) 0 in
  let r := Pam.run_helper_parent os cfg user service (Helper.stdout ex) in
  (Helper.stdout ex = [] \/ exists res, ex = exit_of res) /\
  (snd r = Pam.PAM_SUCCESS <->
   0 < sel /\ Pam.read_error os = false /\ ex = exit_of Confirm.Allow) /\
  (started env = false ->
   Helper.stdout ex = [] /\ snd r = Pam.PAM_AUTH_ERR).
Proof.
  intros M sel r.
  destruct (parent_verdict os cfg user service (Helper.stdout ex))
    as (V & T & D & _). fold sel r in V, T, D.
  assert (N : Helper.stdout ex = [] -> ex <> exit_of Confirm.Allow).
  { intros E X. rewrite X in E. discriminate. }
  destruct (main_exit env evs ex M) as [[E S]|(s & config & P & G & E)].
  - split; [now left|]. split.
    + rewrite V. rewrite E. cbn. split; intros (A & B & C);
        [discriminate|]. now apply N in E.
    + intros _. split; [exact E|]. apply D. auto.
  - split; [right; now exists (Helper.result s)|]. split.
    + rewrite V. rewrite E.
      change (Helper.stdout (exit_of (Helper.result s)))
        with (token_line (Helper.result s)).
      rewrite token_first_line.
      split; intros (A & B & C); repeat split; auto.
      * now rewrite C.
      * now destruct (Helper.result s).
    + intros S. unfold started in S. rewrite P in S.
      unfold Helper.main in M. rewrite P in M.
      destruct (Helper.WAYLAND_DISPLAY env) as [[|c d]|]; try discriminate;
        injection M as <-; (split; [reflexivity|]); apply D; auto.
Qed.

Lemma X12_decision_round_trip_witness :
  snd (Pam.run_helper_parent
         (example_os (Some "wayland-0") (Some alice) true true true true
                     (Some 2000000))
         Pam.default_config "alice" "sudo"
         (Helper.stdout (exit_of Confirm.Allow))) = Pam.PAM_SUCCESS.
Proof.
  refine (proj2 (proj1 (proj2 (X12_decision_round_trip
            (Helper.mkEnv (Some (Helper.mkConfig Confirm.default_params false))
                          (Some "wayland-0") false false false 0 false)
            [Helper.WindowInput (Confirm.TimerTick 600000);
             Helper.WindowInput (Confirm.AllowClicked 700000)]
            (exit_of Confirm.Allow)
            (example_os (Some "wayland-0") (Some alice) true true true true
                        (Some 2000000))
            Pam.default_config "alice" "sudo" eq_refl))) _).
  repeat split; reflexivity.
Defined.

(** X13.  The helper prints ALLOW only after a click on the Allow button:
    whatever the surroundings and the events, a process that ends with the
    line ALLOW on stdout, or with exit status 0 after the display check, got
    a click on Allow among its events. *)
Theorem X13_allow_needs_click (env : Helper.Env) (evs : list Helper.Event)
    (ex : Helper.Exit) :
  Helper.main env evs = Some ex ->
  Helper.stdout ex = token_line Confirm.Allow \/
  (started env = true /\ Helper.status ex = Helper.EXIT_SUCCESS) ->
  exists now, In (Helper.WindowInput (Confirm.AllowClicked now)) evs.
Proof.
  intros M H.
  destruct (main_exit env evs ex M) as [[E S]|(s & config & P & G & E)].
  - destruct H as [H|[H _]]; [rewrite E in H; discriminate|congruence].
  - assert (R : Helper.result s = Confirm.Allow).
    { subst ex. destruct (Helper.result s); try reflexivity;
        destruct H as [H|[_ H]]; discriminate. }
    unfold Helper.g_application_run in G.
    destruct (main_loop_result_allow evs _ _ G R) as [A|A]; [|exact A].
    rewrite on_activate_result in A. discriminate.
Qed.

Lemma X13_allow_needs_click_witness :
  exists now,
    In (Helper.WindowInput (Confirm.AllowClicked now))
       [Helper.WindowInput (Confirm.TimerTick 600000);
        Helper.WindowInput (Confirm.AllowClicked 700000)].
Proof.
  exact (X13_allow_needs_click
           (Helper.mkEnv (Some (Helper.mkConfig Confirm.default_params false))
                         (Some "wayland-0") false false false 0 false)
           [Helper.WindowInput (Confirm.TimerTick 600000);
            Helper.WindowInput (Confirm.AllowClicked 700000)]
           (exit_of Confirm.Allow) eq_refl (or_introl eq_refl)).
Defined.

Section UnlockFacts.
Import Confirm.
Import Wayland.
Import Helper.


Lemma on_result_released (s : AppState) (r : Result) :
  lock_tracked s -> lock_released (on_result s r).
Proof.
  unfold lock_tracked, lock_released, on_result, is_locked, unlock.
  destruct s as [c r0 l a f q d asg p e]. cbn [session_lock set_result].
  destruct l as [i st c1 c2 c3 c4 h1 h2 h3 h4 locked]. cbn.
  destruct locked.
  - intros T. destruct (T eq_refl) as [-> ->]. cbn. now destruct a.
  - intros _. destruct st; cbn; rewrite ?andb_false_r; now destruct a.
Qed.

Lemma released_tracked (s : AppState) : lock_released s -> lock_tracked s.
Proof. unfold lock_released, lock_tracked. congruence. Qed.

Lemma fold_on_result_released (calls : list Result) (s : AppState) :
  calls <> [] -> lock_tracked s -> lock_released (fold_left on_result calls s).
Proof.
  revert s. induction calls as [|r calls IH]; [congruence|].
  intros s _ T. cbn [fold_left].
  pose proof (on_result_released s r T) as R.
  destruct calls as [|r' calls]; [exact R|].
  apply IH; [discriminate|now apply released_tracked].
Qed.

(** One dispatch: the flag stays lock_tracked, a dispatch that requests the quit
    leaves the lock lock_released, and only "locked" sets the flag; "failed" is
    taken with the lock lock_released. *)
Lemma dispatch_released (s : AppState) (e : Event) :
  lock_tracked s -> quit s = false ->
  (e = FailedSignal -> lock_released s) ->
  lock_tracked (dispatch s e) /\
  (quit (dispatch s e) = true -> lock_released (dispatch s e)) /\
  (e <> LockedSignal -> lock_released s -> lock_released (dispatch s e)).
Proof.
  intros T Q F. unfold lock_tracked, lock_released in *.
  destruct s as [c r0 l a f q d asg p err].
  destruct l as [i st c1 c2 c3 c4 h1 h2 h3 h4 locked]. cbn in T, Q, F.
  subst q.
  destruct e as [ | | |monitor now rnd|j]; cbn [dispatch session_lock].
  - destruct i; cbn; [destruct (h1 =? 0)|]; cbn;
      intuition (auto; congruence).
  - specialize (F eq_refl). subst locked.
    destruct i; cbn; [destruct (h2 =? 0)|]; cbn; [| |];
      try destruct c2; cbn; intuition (auto; congruence).
  - destruct i; cbn; [destruct (h3 =? 0)|]; cbn; [| |];
      try destruct c3; cbn; intuition (auto; congruence).
  - destruct i; cbn; [destruct (h4 =? 0)|]; cbn; [| |];
      try (unfold on_monitor_signal, monitor_callback;
           destruct c4; cbn; [destruct f|]; cbn);
      intuition (auto; congruence).
  - cbn [dialog].
    destruct d as [w|]; [|cbn; intuition (auto; congruence)].
    destruct (handle w j) as [w' calls].
    destruct calls as [|r calls].
    + cbn. intuition (auto; congruence).
    + assert (R : instance_is_locked
                    (session_lock
                       (fold_left on_result (r :: calls)
                          (set_dialog
                             (mkState c r0
                                (mkLock i st c1 c2 c3 c4 h1 h2 h3 h4 locked)
                                a f false (Some w) asg p err) w')))
                  = false).
      { apply fold_on_result_released; [discriminate|exact T]. }
      intuition (auto; congruence).
Qed.

Lemma main_loop_released (evs : list Event) :
  forall s s' : AppState,
    lock_tracked s -> (quit s = true -> lock_released s) ->
    (forall pre post, evs = pre ++ FailedSignal :: post ->
                      ~ In LockedSignal pre /\ lock_released s) ->
    main_loop s evs = Some s' -> lock_released s'.
Proof.
  induction evs as [|e evs IH]; intros s s' T J P M; cbn [main_loop] in M.
  - destruct (quit s); [|discriminate]. injection M as <-. now apply J.
  - destruct (quit s) eqn:Q; [injection M as <-; now apply J|].
    assert (F : e = FailedSignal -> lock_released s).
    { intros ->. now destruct (P [] evs eq_refl). }
    destruct (dispatch_released s e T Q F) as (T' & J' & K).
    apply (IH (dispatch s e) s' T' J'); [|exact M].
    intros pre post E.
    destruct (P (e :: pre) post) as [N R]; [now rewrite E|].
    split; [intros X; apply N; now right|].
    apply K; [|exact R]. intros ->. apply N. now left.
Qed.

Lemma on_activate_released (env : Env) (config : AppConfig) :
  lock_released (on_activate env (initial_state config)).
Proof.
  unfold lock_released, on_activate, on_activate_with_lock,
    on_activate_without_lock, lock.
  destruct (_ && _); cbn.
  - destruct (gtk_session_lock_is_supported env); cbn; [|reflexivity].
    destruct (gtk_session_lock_instance_new env); cbn; [|reflexivity].
    destruct (gtk_session_lock_instance_lock env); reflexivity.
  - destruct (use_session_lock config); reflexivity.
Qed.

End UnlockFacts.

(** X14.  The session is unlocked before the token is printed.  Whatever
    the surroundings and the events, as long as no "failed" signal comes
    after a "locked" signal: when the main loop ends, the lock instance is
    not locked.  The dialog's result unlocks it in [on_result] before the
    quit is requested, the "unlocked" signal finds it unlocked, and a failed
    lock attempt never locked it. *)
Theorem X14_unlocked_at_exit (env : Helper.Env) (config : Helper.AppConfig)
    (evs : list Helper.Event) (s : Helper.AppState) :
  (forall pre post, evs = pre ++ Helper.FailedSignal :: post ->
                    ~ In Helper.LockedSignal pre) ->
  Helper.g_application_run env (Helper.initial_state config) evs = Some s ->
  Wayland.instance_is_locked (Helper.session_lock s) = false.
Proof.
  intros P M. unfold Helper.g_application_run in M.
  pose proof (on_activate_released env config) as R.
  apply (main_loop_released evs
           (Helper.on_activate env (Helper.initial_state config)) s);
    [unfold lock_tracked, lock_released in *; congruence|auto| |exact M].
  intros pre post E. split; [now apply (P pre post)|exact R].
Qed.

Lemma X14_unlocked_at_exit_witness :
  exists s,
    Helper.g_application_run (example_env true)
      (Helper.initial_state (Helper.mkConfig Confirm.default_params true))
      [Helper.LockedSignal; Helper.MonitorSignal 0 0 false;
       Helper.WindowInput Confirm.DenyClicked] = Some s /\
    Wayland.is_locked (Helper.session_lock s) = true /\
    Wayland.instance_is_locked (Helper.session_lock s) = false.
Proof.
  eexists. split; [vm_compute; reflexivity|].
  split; [vm_compute; reflexivity|].
  refine (X14_unlocked_at_exit (example_env true)
            (Helper.mkConfig Confirm.default_params true)
            [Helper.LockedSignal; Helper.MonitorSignal 0 0 false;
             Helper.WindowInput Confirm.DenyClicked] _ _ _).
  - intros [|e1 [|e2 [|e3 [|e4 pre]]]] post E; discriminate.
  - vm_compute. reflexivity.
Defined.

(** * More on the session lock *)

(** X15.  [SessionLock::lock] succeeds exactly when the compositor supports
    the lock, the object holds no locked instance, a new instance could be
    made and the lock call was accepted.  After a success the object holds
    an instance in the state Locking with its four handlers connected;
    "not supported" and "already locked" leave the object as it was; and
    after any other failure the object is not in the state Locked, and
    holds an instance exactly when one could be made.  The stored callbacks are never changed. *)
Theorem X15_lock_outcome (supported new_ok lock_ok : bool)
    (self : Wayland.SessionLock) :
  let l := fst (Wayland.lock supported new_ok lock_ok self) in
  let r := snd (Wayland.lock supported new_ok lock_ok self) in
  (r = Wayland.LockResult.Success <->
   supported = true /\
   (Wayland.instance_ self && Wayland.instance_is_locked self) = false /\
   new_ok = true /\ lock_ok = true) /\
  (r = Wayland.LockResult.Success ->
   Wayland.instance_ l = true /\
   Wayland.state_ l = Wayland.LockState.Locking /\
   Wayland.instance_is_locked l = false /\
   Wayland.locked_handler_id_ l <> 0 /\ Wayland.failed_handler_id_ l <> 0 /\
   Wayland.unlocked_handler_id_ l <> 0 /\ Wayland.monitor_handler_id_ l <> 0) /\
  (r = Wayland.LockResult.NotSupported \/
   r = Wayland.LockResult.AlreadyLocked -> l = self) /\
  (r = Wayland.LockResult.Failed ->
   Wayland.is_locked l = false /\ Wayland.instance_ l = new_ok) /\
  Wayland.locked_callback_ l = Wayland.locked_callback_ self /\
  Wayland.failed_callback_ l = Wayland.failed_callback_ self /\
  Wayland.unlocked_callback_ l = Wayland.unlocked_callback_ self /\
  Wayland.monitor_callback_ l = Wayland.monitor_callback_ self.
Proof.
  destruct self as [i st c1 c2 c3 c4 h1 h2 h3 h4 locked].
  unfold Wayland.lock. cbn [Wayland.instance_ Wayland.instance_is_locked].
  destruct supported; cbn [negb].
  - destruct (i && locked) eqn:B.
    + cbn. intuition congruence.
    + destruct new_ok; cbn [negb].
      * destruct lock_ok; cbn; rewrite ?B; intuition congruence.
      * cbn. rewrite ?B. intuition congruence.
  - cbn. intuition congruence.
Qed.

Lemma X15_lock_outcome_witness :
  Wayland.state_
    (fst (Wayland.lock true true true Wayland.SessionLock_new))
  = Wayland.LockState.Locking.
Proof.
  exact (proj1 (proj2 (proj1 (proj2 (X15_lock_outcome true true true
                                       Wayland.SessionLock_new)) eq_refl))).
Defined.

(** X16.  [SessionLock::unlock] releases the instance but leaves [state_]
    alone, so [is_locked()] still answers as before until the "unlocked"
    signal arrives; a second [unlock] does nothing.  [cleanup] leaves no
    instance, the state Unlocked and, when there was an instance, no
    connected handler and no lock held; it is idempotent, and a [lock]
    attempted after it is never refused as "already locked". *)
Theorem X16_unlock_cleanup (self : Wayland.SessionLock)
    (supported new_ok lock_ok : bool) :
  Wayland.is_locked (Wayland.unlock self) = Wayland.is_locked self /\
  Wayland.unlock (Wayland.unlock self) = Wayland.unlock self /\
  (Wayland.instance_ self = true ->
   Wayland.instance_is_locked (Wayland.unlock self) = false) /\
  Wayland.cleanup (Wayland.cleanup self) = Wayland.cleanup self /\
  Wayland.instance_ (Wayland.cleanup self) = false /\
  Wayland.is_locked (Wayland.cleanup self) = false /\
  (Wayland.instance_ self = true ->
   Wayland.instance_is_locked (Wayland.cleanup self) = false /\
   Wayland.locked_handler_id_ (Wayland.cleanup self) = 0 /\
   Wayland.failed_handler_id_ (Wayland.cleanup self) = 0 /\
   Wayland.unlocked_handler_id_ (Wayland.cleanup self) = 0 /\
   Wayland.monitor_handler_id_ (Wayland.cleanup self) = 0) /\
  snd (Wayland.lock supported new_ok lock_ok (Wayland.cleanup self))
  <> Wayland.LockResult.AlreadyLocked.
Proof.
  destruct self as [i st c1 c2 c3 c4 h1 h2 h3 h4 locked].
  unfold Wayland.unlock, Wayland.cleanup, Wayland.is_locked, Wayland.lock.
  cbn.
  split; [destruct (i && locked); reflexivity|].
  split; [destruct i, locked; reflexivity|].
  split; [intros ->; destruct locked; reflexivity|].
  split; [reflexivity|].
  split; [reflexivity|].
  split; [reflexivity|].
  split; [intros ->; now cbn|].
  destruct supported, new_ok, lock_ok; cbn; discriminate.
Qed.

Lemma X16_unlock_cleanup_witness :
  Wayland.instance_is_locked
    (Wayland.unlock
       (Wayland.set_instance_is_locked
          (fst (Wayland.lock true true true Wayland.SessionLock_new)) true))
  = false.
Proof.
  exact (proj1 (proj2 (proj2 (X16_unlock_cleanup
           (Wayland.set_instance_is_locked
              (fst (Wayland.lock true true true Wayland.SessionLock_new)) true)
           true true true))) eq_refl).
Defined.

(** * More on [run_helper] *)

Section SpawnFacts.
Import Pam.

(** What reaches the pipe from the child side. *)
Lemma child_channel (os : Os) (cfg : confirm_config_t) (user : string)
    (fm fs : string) :
  let tr := child os cfg user fm fs in
  (child_reaches_helper os user = true ->
   channel_content os tr = pipe_at_read os) /\
  (child_reaches_helper os user = false ->
   channel_content os tr = [] \/
   channel_content os tr = token_line Confirm.Deny).
Proof.
  intros tr. subst tr. unfold child_reaches_helper.
  child_cases os user; cbn; rewrite ?Egroups, ?Egid, ?Egid', ?Euid; cbn;
    (split; [try discriminate; intros _; reflexivity|]);
    try discriminate; intros _;
    unfold channel_content; cbn; destruct (write_ok os); auto.
Qed.

Lemma filter_logged (f : call -> bool) (cfg : confirm_config_t) (c : call) :
  f c = false -> filter f (logged cfg c) = [].
Proof.
  intros F. unfold logged. destruct (_ =? _); cbn; [reflexivity|].
  now rewrite F.
Qed.

End SpawnFacts.

(** X17.  [run_helper] is fail closed.  It returns success exactly when the
    pipe and the fork worked, every identity call the child issues, [dup2]
    and [execv] succeeded in the child, [select] reported the read end
    readable, the read did not fail, and the first line of the at most 15
    bytes that the one read finds in the pipe, written there by the exec'ed
    helper, is ALLOW.  What the child itself writes never leads to
    success. *)
Theorem X17_run_helper_success (os : Pam.Os) (cfg : Pam.confirm_config_t)
    (user service : string) :
  Pam.ret (Pam.run_helper os cfg user service) = Pam.PAM_SUCCESS <->
  Pam.pipe_ok os = true /\ 0 <= Pam.fork_pid os /\
  child_reaches_helper os user = true /\
  0 < Pam.select_ os (Pam.wrap_int (Pam.timeout cfg + 5)) 0 /\
  Pam.read_error os = false /\
  first_line (firstn 15 (Pam.pipe_at_read os)) = bytes "ALLOW".
Proof.
  destruct (Pam.pipe_ok os) eqn:P.
  - destruct (Z.ltb_spec (Pam.fork_pid os) 0) as [F|F].
    + unfold Pam.run_helper. rewrite P. cbn [negb].
      apply Z.ltb_lt in F. rewrite F. cbn.
      apply Z.ltb_lt in F. split; [discriminate|]. intros (_ & G & _). lia.
    + destruct (run_helper_forked os cfg user service P F)
        as (fm & fs & _ & ->).
      destruct (child_channel os cfg user fm fs) as [A B].
      destruct (parent_verdict os cfg user service
                  (Pam.channel_content os (Pam.child os cfg user fm fs)))
        as (V & _ & D & _).
      destruct (child_reaches_helper os user) eqn:R.
      * rewrite V, (A eq_refl). tauto.
      * split; [|intros (_ & _ & X & _); discriminate].
        intros S. rewrite D in S; [discriminate|].
        destruct (B eq_refl) as [E|E]; auto.
  - unfold Pam.run_helper. rewrite P. cbn.
    split; [discriminate|]. intros (X & _). discriminate.
Qed.

(** X18.  [run_helper] returns a system error exactly when [pipe] or [fork]
    failed, and then no child ran and the parent neither waited nor read.
    After a failed [fork] both ends of the pipe are closed; after a failed
    [pipe] there was no [fork] and there is nothing to close.  In every
    other case the value is success or an authentication failure. *)
Theorem X18_run_helper_system_error (os : Pam.Os) (cfg : Pam.confirm_config_t)
    (user service : string) :
  let r := Pam.run_helper os cfg user service in
  (Pam.ret r = Pam.PAM_SYSTEM_ERR <->
   Pam.pipe_ok os = false \/ Pam.fork_pid os < 0) /\
  (Pam.ret r = Pam.PAM_SYSTEM_ERR ->
   Pam.child_calls r = [] /\
   existsb is_read (Pam.parent_calls r) = false /\
   existsb is_waitpid (Pam.parent_calls r) = false /\
   existsb is_kill (Pam.parent_calls r) = false) /\
  (Pam.pipe_ok os = false ->
   existsb Pam.is_spawn (Pam.parent_calls r) = false /\
   count (is_close Pam.pipefd0) (Pam.parent_calls r) = 0%nat /\
   count (is_close Pam.pipefd1) (Pam.parent_calls r) = 0%nat) /\
  (Pam.pipe_ok os = true -> Pam.fork_pid os < 0 ->
   count (is_close Pam.pipefd0) (Pam.parent_calls r) = 1%nat /\
   count (is_close Pam.pipefd1) (Pam.parent_calls r) = 1%nat) /\
  (Pam.ret r = Pam.PAM_SYSTEM_ERR \/ Pam.ret r = Pam.PAM_SUCCESS \/
   Pam.ret r = Pam.PAM_AUTH_ERR).
Proof.
  intros r. subst r. unfold Pam.run_helper.
  destruct (Pam.pipe_ok os) eqn:P; cbn [negb].
  - destruct (Z.ltb_spec (Pam.fork_pid os) 0) as [F|F].
    + cbn. repeat split; auto; intros; try lia; discriminate.
    + destruct (parent_verdict os cfg user service
         (Pam.channel_content os
            (Pam.child os cfg user
               (Pam.format_message (Pam.message cfg) 512 user service
                  (Pam.process_name os))
               (Pam.format_message (Pam.secondary cfg) 512 user service
                  (Pam.process_name os))))) as (_ & T & _).
      destruct (Pam.run_helper_parent _ _ _ _ _) as [p c].
      cbn [snd] in T. cbn [Pam.ret Pam.parent_calls Pam.child_calls].
      split; [split; [intros E|intros [E|E]];
              [destruct T; congruence|discriminate|lia]|].
      split; [intros E; destruct T; congruence|].
      split; [discriminate|]. split; [intros; lia|]. tauto.
  - cbn. repeat split; auto; intros; discriminate.
Qed.

Lemma X18_run_helper_system_error_witness :
  Pam.child_calls
    (Pam.run_helper
       (Pam.mkOs "/usr/lib/sentinel/sentinel-helper"
          (Pam.PAM_SUCCESS, Some "alice") (Pam.PAM_SUCCESS, Some "sudo")
          (fun _ => Pam.default_config) (Some "wayland-0") None None None
          (fun _ => 0) 0 0 (fun _ => None) (fun _ => None) (fun _ => None)
          "sudo" "/usr/bin/sudo" true (-1) (fun _ _ => true) (fun _ => true)
          (fun _ => true) true true true [] None false false [])
       Pam.default_config "alice" "sudo") = [] /\
  count (is_close Pam.pipefd0)
    (Pam.parent_calls
       (Pam.run_helper
          (Pam.mkOs "/usr/lib/sentinel/sentinel-helper"
             (Pam.PAM_SUCCESS, Some "alice") (Pam.PAM_SUCCESS, Some "sudo")
             (fun _ => Pam.default_config) (Some "wayland-0") None None None
             (fun _ => 0) 0 0 (fun _ => None) (fun _ => None) (fun _ => None)
             "sudo" "/usr/bin/sudo" true (-1) (fun _ _ => true) (fun _ => true)
             (fun _ => true) true true true [] None false false [])
          Pam.default_config "alice" "sudo")) = 1%nat.
Proof.
  pose proof (X18_run_helper_system_error
    (Pam.mkOs "/usr/lib/sentinel/sentinel-helper"
       (Pam.PAM_SUCCESS, Some "alice") (Pam.PAM_SUCCESS, Some "sudo")
       (fun _ => Pam.default_config) (Some "wayland-0") None None None
       (fun _ => 0) 0 0 (fun _ => None) (fun _ => None) (fun _ => None)
       "sudo" "/usr/bin/sudo" true (-1) (fun _ _ => true) (fun _ => true)
       (fun _ => true) true true true [] None false false [])
    Pam.default_config "alice" "sudo") as (_ & A & _ & B & _).
  split.
  - exact (proj1 (A eq_refl)).
  - exact (proj1 (B eq_refl ltac:(cbn; lia))).
Defined.

(** X19.  The parent after the fork, in every case: it closes the write
    end first, closes the read end once, and reaps the child exactly once,
    with the pid [fork] returned.  It kills the child exactly when [select]
    did not report the read end readable, and reads exactly when it did;
    it never does both. *)
Theorem X19_parent_cleanup (os : Pam.Os) (cfg : Pam.confirm_config_t)
    (user service : string) (content : list ascii) :
  let sel := Pam.select_ os (Pam.wrap_int (Pam.timeout cfg + 5)) 0 in
  let calls := fst (Pam.run_helper_parent os cfg user service content) in
  hd_error calls = Some (Pam.Close Pam.pipefd1) /\
  count (is_close Pam.pipefd1) calls = 1%nat /\
  count (is_close Pam.pipefd0) calls = 1%nat /\
  filter is_waitpid calls = [Pam.Waitpid (Pam.fork_pid os)] /\
  (filter is_kill calls
   = if sel <=? 0 then [Pam.Kill (Pam.fork_pid os) Pam.SIGKILL] else []) /\
  (filter is_read calls = if sel <=? 0 then [] else [Pam.Read 15]) /\
  existsb Pam.is_spawn calls = false.
Proof.
  intros sel calls. subst calls. unfold Pam.run_helper_parent. fold sel.
  unfold count.
  destruct (sel <=? 0).
  - cbn [fst]. rewrite !filter_app, existsb_app.
    rewrite !filter_logged by reflexivity.
    unfold Pam.logged. destruct (_ =? _); cbn; auto 10.
  - destruct (Pam.read_ os content 15) as [n data].
    destruct (n <=? 0); [|destruct (Pam.str_equal _ _)]; cbn [fst];
      rewrite !filter_app, existsb_app;
      rewrite !filter_logged by reflexivity;
      unfold Pam.logged; destruct (_ =? _); cbn; auto 10.
Qed.

Section ChildShape.
Import Pam.

(** The calls before the last one of a trace. *)
Lemma child_shape (os : Os) (cfg : confirm_config_t) (user : string)
    (fm fs : string) :
  let tr := child os cfg user fm fs in
  hd_error tr = Some (Close pipefd0) /\
  (exists pre,
     existsb is_exit pre = false /\
     (tr = pre ++ [Exit 1] \/
      (tr = pre ++ [Execv (HELPER_PATH os) (helper_args os cfg fm fs)] /\
       execv_ok os = true /\ existsb is_write pre = false))) /\
  (count is_execv tr <= 1)%nat /\
  (forall pre post data,
     tr = pre ++ Write data :: post ->
     data = token_line Confirm.Deny /\ post = [Exit 1] /\
     exists pre', pre = pre' ++ [Dup2; Close pipefd1;
                                 Execv (HELPER_PATH os)
                                       (helper_args os cfg fm fs)]) /\
  (existsb is_setenv tr = true ->
   exists pw, getpwuid os (fst (target_identity os user)) = Some pw /\
              filter is_setenv tr
              = [Setenv "HOME" (pw_dir pw); Setenv "USER" (pw_name pw);
                 Setenv "LOGNAME" (pw_name pw)]).
Proof.
  intros tr. subst tr.
  assert (W : forall (l : list call) pre post data,
             existsb is_write l = false -> l <> pre ++ Write data :: post).
  { intros l pre post data N E. rewrite E in N.
    rewrite existsb_app in N. cbn in N. now rewrite orb_true_r in N. }
  unfold count, child, attempt, exec_helper.
  destruct (target_identity os user) as [uid gid]. cbn [fst].
  destruct (getpwuid os uid) as [pw|];
    try destruct (initgroups_ok os (pw_name pw) (pw_gid pw));
    try destruct (setgid_ok os (pw_gid pw));
    try destruct (setgid_ok os gid);
    destruct (setuid_ok os uid); destruct (dup2_ok os);
    destruct (execv_ok os).
  all: split; [reflexivity|].
  all: split;
    [match goal with
     | |- exists pre, _ /\ (?tr = _ \/ _) => exists (removelast tr)
     end;
     cbn; split;
     [reflexivity
     |first [left; reflexivity | right; repeat split; reflexivity]]|].
  all: split; [cbn; lia|].
  all: split;
    [|cbn; first [discriminate | intros _; eexists; split; reflexivity]].
  all: intros pre post data E.
  all: try (exfalso; revert E; apply W; reflexivity).
  all: repeat (destruct pre as [|? pre];
               [try discriminate E|
                injection E as <- E]);
    try (destruct pre; discriminate E).
  all: injection E as <- <-.
  all: split; [reflexivity|split; [reflexivity|]].
  all: first [now exists [] | now eexists [_] | now eexists [_; _]
             | now eexists [_; _; _] | now eexists [_; _; _; _]
             | now eexists [_; _; _; _; _] | now eexists [_; _; _; _; _; _]
             | now eexists [_; _; _; _; _; _; _]].
Qed.

End ChildShape.

(** X20.  The spawned child never returns into the calling program: its
    calls start with closing the read end and end either with [_exit(1)] or
    with an [execv] that succeeded, and nothing follows an [_exit].  It
    calls [execv] at most once.  The only thing it ever writes is the line
    DENY, after [dup2] made the pipe its stdout and [execv] failed, right
    before [_exit(1)].  It sets HOME, USER and LOGNAME, in this order and
    from the password entry of the target uid, exactly when it sets any
    variable at all. *)
Theorem X20_child_ends (os : Pam.Os) (cfg : Pam.confirm_config_t)
    (user service : string) :
  Pam.pipe_ok os = true -> 0 <= Pam.fork_pid os ->
  let tr := Pam.child_calls (Pam.run_helper os cfg user service) in
  hd_error tr = Some (Pam.Close Pam.pipefd0) /\
  (exists pre,
     existsb Pam.is_exit pre = false /\
     (tr = pre ++ [Pam.Exit 1] \/
      exists args,
        tr = pre ++ [Pam.Execv (Pam.HELPER_PATH os) args] /\
        Pam.execv_ok os = true /\ existsb Pam.is_write pre = false)) /\
  (count Pam.is_execv tr <= 1)%nat /\
  (forall pre post data,
     tr = pre ++ Pam.Write data :: post ->
     data = token_line Confirm.Deny /\ post = [Pam.Exit 1] /\
     exists pre' args,
       pre = pre' ++ [Pam.Dup2; Pam.Close Pam.pipefd1;
                      Pam.Execv (Pam.HELPER_PATH os) args]) /\
  (existsb is_setenv tr = true ->
   exists pw,
     Pam.getpwuid os (fst (Pam.target_identity os user)) = Some pw /\
     filter is_setenv tr
     = [Pam.Setenv "HOME" (Pam.pw_dir pw); Pam.Setenv "USER" (Pam.pw_name pw);
        Pam.Setenv "LOGNAME" (Pam.pw_name pw)]).
Proof.
  intros P F tr. subst tr.
  destruct (run_helper_forked os cfg user service P F) as (fm & fs & -> & _).
  destruct (child_shape os cfg user fm fs) as (A & (pre & N & B) & C & D & E).
  split; [exact A|]. split.
  - exists pre. split; [exact N|].
    destruct B as [B|(B1 & B2 & B3)]; [now left|right].
    now exists (Pam.helper_args os cfg fm fs).
  - split; [exact C|]. split; [|exact E].
    intros pre0 post data T.
    destruct (D pre0 post data T) as (X & Y & pre' & Z).
    split; [exact X|]. split; [exact Y|].
    now exists pre', (Pam.helper_args os cfg fm fs).
Qed.

Lemma X20_child_ends_witness :
  hd_error
    (Pam.child_calls
       (Pam.run_helper
          (example_os (Some "wayland-0") (Some alice) true true true true
                      (Some 1000000))
          Pam.default_config "alice" "sudo"))
  = Some (Pam.Close Pam.pipefd0).
Proof.
  exact (proj1 (X20_child_ends
                  (example_os (Some "wayland-0") (Some alice) true true true
                              true (Some 1000000))
                  Pam.default_config "alice" "sudo" eq_refl
                  ltac:(cbn; lia))).
Defined.

(** * Display detection *)

(** X21.  [find_wayland_display] reports a display exactly when
    WAYLAND_DISPLAY is set and not empty, or the runtime directory of the uid
    can be read and holds an entry whose name starts with wayland- and does
    not contain .lock.  It changes the environment only in the second case:
    WAYLAND_DISPLAY is set to the first such entry, and XDG_RUNTIME_DIR to
    the runtime directory only when it was not set.  Without a display, and
    with WAYLAND_DISPLAY already set, it sets nothing. *)
Theorem X21_find_wayland_display (os : Pam.Os) (uid : Z) :
  let r := Pam.find_wayland_display os uid in
  let preset := exists c d, Pam.getenv_WAYLAND_DISPLAY os = Some (String c d) in
  (fst r = true <->
   preset \/
   exists entries d_name,
     Pam.readdir_run_user os uid = Some entries /\
     In d_name entries /\ is_socket_name d_name = true) /\
  (fst r = false -> snd r = []) /\
  (preset -> snd r = []) /\
  (forall name value,
     In (Pam.Setenv name value) (snd r) ->
     ~ preset /\
     ((name = "WAYLAND_DISPLAY" /\
       exists entries,
         Pam.readdir_run_user os uid = Some entries /\
         find is_socket_name entries = Some value) \/
      (name = "XDG_RUNTIME_DIR" /\ Pam.getenv_XDG_RUNTIME_DIR os = None /\
       value = ("/run/user/" ++ Pam.int_to_string (Pam.wrap_int uid))%string))) /\
  (forall c, In c (snd r) -> is_setenv c = true) /\
  (snd r <> [] ->
   exists d_name, hd_error (snd r) = Some (Pam.Setenv "WAYLAND_DISPLAY" d_name)).
Proof.
  intros r preset. subst r preset. unfold Pam.find_wayland_display.
  change (fun d_name : string =>
            String.prefix "wayland-" d_name && negb (Pam.strstr d_name ".lock"))
    with is_socket_name.
  destruct (Pam.getenv_WAYLAND_DISPLAY os) as [[|c d]|] eqn:W.
  2: { cbn. repeat split; auto; try tauto; try (intros; contradiction).
       left. now exists c, d. }
  all: assert (NP : ~ exists c d, @None string = Some (String c d))
         by (intros (c & d & X); discriminate).
  all: assert (NP' : ~ exists c d, Some EmptyString = Some (String c d))
         by (intros (c & d & X); discriminate).
  all: destruct (Pam.readdir_run_user os uid) as [entries|] eqn:R;
    [destruct (find is_socket_name entries) as [d_name|] eqn:Fd|].
  all: cbn [fst snd].
  all: try (split;
            [split; [discriminate|];
             intros [H|(en & dn & E1 & E2 & E3)]; [tauto| ];
             try discriminate;
             injection E1 as <-;
             pose proof (find_none _ _ Fd dn E2); congruence|];
            repeat split; auto; try tauto; try (intros; contradiction);
            try (intros _; discriminate)).
  all: destruct (find_some _ _ Fd) as [I S].
  all: split; [split; [intros _; right; now exists entries, d_name|reflexivity]|].
  all: split; [discriminate|].
  all: split; [intros H; tauto|].
  all: split.
  all: try (split; [|intros _; now exists d_name]).
  all: try (intros cc [<-|H]; [reflexivity|];
            destruct (Pam.getenv_XDG_RUNTIME_DIR os);
            [contradiction|destruct H as [<-|[]]; reflexivity]).
  all: intros name value [H|H].
  all: try (injection H as <- <-; split; [assumption|left];
            split; [reflexivity|now exists entries]).
  all: destruct (Pam.getenv_XDG_RUNTIME_DIR os) eqn:X; [contradiction|].
  all: destruct H as [H|[]]; injection H as <- <-.
  all: split; [assumption|right]; repeat split; reflexivity.
Qed.

Lemma X21_find_wayland_display_witness :
  snd (Pam.find_wayland_display
         (example_os (Some "wayland-1") (Some alice) true true true true None)
         1000) = [].
Proof.
  refine (proj1 (proj2 (proj2 (X21_find_wayland_display
            (example_os (Some "wayland-1") (Some alice) true true true true
                        None) 1000))) _).
  now exists "w"%char, "ayland-1".
Defined.

(** X22.  The argument vector built for [execv] starts with the path of the
    helper and has between 11 and 14 entries, so with its terminating null
    pointer it fits the 20 slots of [args].  It holds --randomize as its
    twelfth entry when buttons are randomized and --process-exe with the
    path of the caller as its last two entries when process information is
    shown. *)
Theorem X22_helper_args_fit (os : Pam.Os) (cfg : Pam.confirm_config_t)
    (fm fs : string) :
  let args := Pam.helper_args os cfg fm fs in
  hd_error args = Some (Pam.HELPER_PATH os) /\
  (11 <= List.length args <= 14)%nat /\
  (List.length args + 1 <= 20)%nat /\
  List.length args
  = (11 + (if (Pam.randomize_buttons cfg =? 0)%Z then 0 else 1)
     + (if (Pam.show_process_info cfg =? 0)%Z then 0 else 2))%nat /\
  (Pam.show_process_info cfg <> 0 ->
   exists pre, args = pre ++ ["--process-exe"; Pam.process_exe os]) /\
  (Pam.randomize_buttons cfg <> 0 ->
   nth_error args 11 = Some "--randomize").
Proof.
  intros args. subst args. unfold Pam.helper_args.
  destruct (Z.eqb_spec (Pam.randomize_buttons cfg) 0) as [R|R];
    destruct (Z.eqb_spec (Pam.show_process_info cfg) 0) as [S|S]; cbn;
    repeat split; try lia; try reflexivity; try (intros; contradiction);
    intros _;
    first [now eexists [_; _; _; _; _; _; _; _; _; _; _]
          |now eexists [_; _; _; _; _; _; _; _; _; _; _; _]].
Qed.

Lemma X22_helper_args_fit_witness :
  nth_error
    (Pam.helper_args
       (example_os (Some "wayland-0") (Some alice) true true true true None)
       Pam.default_config "m" "s") 11 = Some "--randomize".
Proof.
  exact (proj2 (proj2 (proj2 (proj2 (proj2 (X22_helper_args_fit
           (example_os (Some "wayland-0") (Some alice) true true true true None)
           Pam.default_config "m" "s")))))
           ltac:(cbn; lia)).
Defined.

(** * The entry point *)

Section EntryFacts.
Import Pam.

Lemma run_helper_ret (os : Os) (cfg : confirm_config_t) (user service : string) :
  let r := run_helper os cfg user service in
  (ret r = PAM_SYSTEM_ERR \/ ret r = PAM_SUCCESS \/ ret r = PAM_AUTH_ERR) /\
  (existsb is_spawn (parent_calls r) = pipe_ok os) /\
  existsb is_setenv (parent_calls r) = false.
Proof.
  intros r. subst r. unfold run_helper.
  destruct (pipe_ok os); cbn [negb]; [|cbn; auto].
  destruct (fork_pid os <? 0); [cbn; auto|].
  match goal with
  | |- context [run_helper_parent ?o ?c ?u ?s ?x] =>
      destruct (parent_verdict o c u s x) as (_ & T & _);
      pose proof (X := fun f => filter_logged f c);
      unfold run_helper_parent in *;
      destruct (select_ o _ _ <=? 0);
      [|destruct (read_ o x 15) as [n data];
        destruct (n <=? 0); [|destruct (str_equal _ _)]]
  end; cbn [ret parent_calls snd] in *;
    (split; [tauto|]); cbn [existsb is_spawn is_setenv orb];
    rewrite ?existsb_app; unfold logged;
    destruct (log_attempts cfg =? 0); cbn; auto.
Qed.

Lemma has_display_calls (os : Os) (uid : Z) :
  (fst (has_display os uid) = false -> snd (has_display os uid) = []) /\
  existsb is_spawn (snd (has_display os uid)) = false.
Proof.
  unfold has_display, find_wayland_display.
  destruct (getenv_WAYLAND_DISPLAY os) as [[|]|]; cbn; auto;
    (destruct (readdir_run_user os uid); cbn; auto;
     destruct (find _ _); cbn; [|auto];
     (split; [discriminate|]);
     destruct (getenv_XDG_RUNTIME_DIR os); reflexivity).
Qed.

Lemma authenticate_unnamed (os : Os) :
  (forall user, pam_get_user os <> (PAM_SUCCESS, Some user)) ->
  pam_sm_authenticate os
  = {| ret := PAM_USER_UNKNOWN;
       parent_calls := [Syslog LOG_ERR "pam_sentinel: cannot get username"];
       child_calls := [] |}.
Proof.
  intros H. unfold pam_sm_authenticate.
  destruct (pam_get_user os) as [[] [u|]]; try reflexivity.
  exfalso. now apply (H u).
Qed.

End EntryFacts.

(** X23.  [pam_sm_authenticate], outcome by outcome.  It returns "user
    unknown" exactly when PAM gave no user name, and then does nothing but
    log.  For a service the module is disabled for it returns PAM_IGNORE
    without spawning anything or setting a variable.  It returns success exactly when the user
    name was obtained, the module is enabled, and either no display was
    found and [headless_action] is "allow", or a display was found and
    [run_helper] returned success.  It spawns a process only with a user
    name, the module enabled, a display found and a pipe made. *)
Theorem X23_authenticate_outcome (os : Pam.Os) :
  let r := Pam.pam_sm_authenticate os in
  let cfg := Pam.load_config os (Pam.service_name os) in
  let named := exists user, Pam.pam_get_user os = (Pam.PAM_SUCCESS, Some user) in
  (Pam.ret r = Pam.PAM_USER_UNKNOWN <-> ~ named) /\
  (~ named ->
   Pam.child_calls r = [] /\
   Pam.parent_calls r
   = [Pam.Syslog Pam.LOG_ERR "pam_sentinel: cannot get username"]) /\
  (named -> Pam.enabled cfg = 0 ->
   Pam.ret r = Pam.PAM_IGNORE /\ Pam.child_calls r = [] /\
   existsb Pam.is_spawn (Pam.parent_calls r) = false /\
   existsb is_setenv (Pam.parent_calls r) = false) /\
  (Pam.ret r = Pam.PAM_SUCCESS <->
   exists user,
     Pam.pam_get_user os = (Pam.PAM_SUCCESS, Some user) /\
     Pam.enabled cfg <> 0 /\
     ((fst (Pam.has_display os (Pam.display_uid os user)) = false /\
       Pam.headless_action cfg = "allow") \/
      (fst (Pam.has_display os (Pam.display_uid os user)) = true /\
       Pam.ret (Pam.run_helper os cfg user (Pam.service_name os))
       = Pam.PAM_SUCCESS))) /\
  (existsb Pam.is_spawn (Pam.parent_calls r) = true ->
   exists user,
     Pam.pam_get_user os = (Pam.PAM_SUCCESS, Some user) /\
     Pam.enabled cfg <> 0 /\
     fst (Pam.has_display os (Pam.display_uid os user)) = true /\
     Pam.pipe_ok os = true).
Proof.
  intros r cfg named. subst r cfg named.
  destruct (Pam.pam_get_user os) as [code o] eqn:G.
  assert (K : (exists user, (code, o) = (Pam.PAM_SUCCESS, Some user)) \/
              (forall user, Pam.pam_get_user os <> (Pam.PAM_SUCCESS, Some user))).
  { rewrite G. destruct code, o as [u|];
      try (right; intros user; discriminate). left. now exists u. }
  destruct K as [(user & K)|K].
  2: { rewrite (authenticate_unnamed os K). cbn.
       assert (N : ~ exists user, (code, o) = (Pam.PAM_SUCCESS, Some user)).
       { intros (u & X). apply (K u). congruence. }
       split; [tauto|]. split; [auto|]. split; [tauto|].
       split; [split; [discriminate|]|discriminate].
       intros (u & X & _). exfalso. apply N. now exists u. }
  injection K as -> ->.
  assert (N : exists u, (Pam.PAM_SUCCESS, Some user) = (Pam.PAM_SUCCESS, Some u))
    by now exists user.
  unfold Pam.pam_sm_authenticate. rewrite G.
  set (service := Pam.service_name os).
  set (cfg := Pam.load_config os service).
  destruct (Z.eqb_spec (Pam.enabled cfg) 0) as [E|E].
  - cbn. split; [split; [discriminate|tauto]|].
    split; [tauto|]. split; [auto|].
    split; [split; [discriminate|intros (u & _ & X & _); contradiction]|].
    discriminate.
  - destruct (has_display_calls os (Pam.display_uid os user)) as [C Sd].
    destruct (Pam.has_display os (Pam.display_uid os user)) as [found envc]
      eqn:D.
    cbn [fst snd] in C, Sd.
    destruct (run_helper_ret os cfg user service) as (T & Sp & Se).
    destruct found; cbn [negb].
    + cbn [Pam.ret Pam.parent_calls Pam.child_calls].
      split; [split; [intros X; rewrite X in T;
                      destruct T as [T|[T|T]]; discriminate|tauto]|].
      split; [tauto|]. split; [intros _ X; contradiction|].
      split.
      * split.
        -- intros X. exists user. rewrite D. cbn [fst]. auto.
        -- intros (u & X & _ & Y). injection X as <-.
           rewrite D in Y. cbn [fst] in Y.
           destruct Y as [[Y _]|[_ Y]]; [discriminate|exact Y].
      * rewrite existsb_app, Sd, Sp. cbn [orb]. intros P.
        exists user. rewrite D. cbn [fst]. auto.
    + rewrite (C eq_refl).
      assert (F : (exists u,
                    (Pam.PAM_SUCCESS, Some user) = (Pam.PAM_SUCCESS, Some u) /\
                    Pam.enabled cfg <> 0 /\
                    ((fst (Pam.has_display os (Pam.display_uid os u)) = false /\
                      Pam.headless_action cfg = "allow") \/
                     (fst (Pam.has_display os (Pam.display_uid os u)) = true /\
                      Pam.ret (Pam.run_helper os cfg u service)
                      = Pam.PAM_SUCCESS))) <-> Pam.headless_action cfg = "allow").
      { split.
        - intros (u & X & _ & Y). injection X as <-.
          rewrite D in Y. cbn [fst] in Y.
          destruct Y as [[_ Y]|[Y _]]; [exact Y|discriminate].
        - intros A. exists user. rewrite D. cbn [fst]. auto. }
      destruct (String.eqb_spec (Pam.headless_action cfg) "allow") as [A|A];
        [|destruct (String.eqb (Pam.headless_action cfg) "deny")];
        cbn [Pam.ret Pam.parent_calls Pam.child_calls app existsb Pam.is_spawn
             orb];
        (split; [split; [discriminate|tauto]|]);
        (split; [tauto|]); (split; [intros _ X; contradiction|]);
        (split; [|discriminate]); rewrite F;
        (split; [intros X; first [exact A|discriminate X]
                |intros X; first [reflexivity|contradiction]]).
Qed.

Lemma X23_authenticate_outcome_witness :
  exists user,
    Pam.pam_get_user
      (example_os (Some "wayland-0") (Some alice) true true true true
                  (Some 1000000))
    = (Pam.PAM_SUCCESS, Some user) /\
    Pam.enabled Pam.default_config <> 0 /\
    fst (Pam.has_display
           (example_os (Some "wayland-0") (Some alice) true true true true
                       (Some 1000000))
           (Pam.display_uid
              (example_os (Some "wayland-0") (Some alice) true true true true
                          (Some 1000000)) user)) = true /\
    true = true.
Proof.
  refine (proj2 (proj2 (proj2 (proj2 (X23_authenticate_outcome
            (example_os (Some "wayland-0") (Some alice) true true true true
                        (Some 1000000)))))) _).
  vm_compute. reflexivity.
Defined.

(** * The configuration file *)

Section StripFacts.
Import Pam.
Import Config.

Lemma skip_blanks_split (s : list ascii) :
  exists pre, s = pre ++ skip_blanks s /\ forallb is_blank pre = true.
Proof.
  induction s as [|c s (pre & E & B)]; [now exists []|].
  cbn [skip_blanks]. destruct (is_blank c) eqn:K.
  - exists (c :: pre). cbn [forallb app]. rewrite K, B.
    split; [now f_equal|reflexivity].
  - now exists [].
Qed.

Lemma skip_blanks_head (s : list ascii) (c : ascii) (rest : list ascii) :
  skip_blanks s = c :: rest -> is_blank c = false.
Proof.
  induction s as [|x s IH]; [discriminate|]. cbn [skip_blanks].
  destruct (is_blank x) eqn:K; [exact IH|]. intros E. now injection E as <- _.
Qed.

Lemma skip_blanks_fixed (c : ascii) (rest : list ascii) :
  is_blank c = false -> skip_blanks (c :: rest) = c :: rest.
Proof. intros K. cbn [skip_blanks]. now rewrite K. Qed.

Lemma drop_trailing_split (s : list ascii) :
  exists post, s = drop_trailing s ++ post /\ forallb is_trailing post = true.
Proof.
  induction s as [|c s (post & E & B)]; [now exists []|].
  cbn [drop_trailing]. destruct (drop_trailing s) as [|k kept] eqn:D.
  - destruct (is_trailing c) eqn:K.
    + exists (c :: post). cbn [forallb app] in *. rewrite K, B.
      split; [now f_equal|reflexivity].
    + exists post. cbn [forallb app] in *. split; [now f_equal|exact B].
  - exists post. split; [|exact B]. cbn. now f_equal.
Qed.

Lemma drop_trailing_last (s : list ascii) (d : ascii) :
  drop_trailing s <> [] -> is_trailing (last (drop_trailing s) d) = false.
Proof.
  induction s as [|c s IH]; [intros X; now contradiction X|].
  cbn [drop_trailing]. destruct (drop_trailing s) as [|k kept] eqn:D.
  - destruct (is_trailing c) eqn:K; [intros X; now contradiction X|].
    intros _. exact K.
  - intros _. change (last (c :: k :: kept) d) with (last (k :: kept) d).
    apply IH. discriminate.
Qed.

Lemma drop_trailing_idem (s : list ascii) :
  drop_trailing (drop_trailing s) = drop_trailing s.
Proof.
  induction s as [|c s IH]; [reflexivity|].
  cbn [drop_trailing]. destruct (drop_trailing s) as [|k kept] eqn:D.
  - destruct (is_trailing c) eqn:K; [reflexivity|].
    cbn [drop_trailing]. now rewrite K.
  - cbn [drop_trailing] in *. now rewrite IH.
Qed.

Lemma strip_empty (s : list ascii) :
  strip s = [] <-> forallb is_blank s = true.
Proof.
  unfold strip. induction s as [|c s IH]; [cbn [skip_blanks forallb]; tauto|].
  cbn [skip_blanks forallb]. destruct (is_blank c); cbn [andb]; [exact IH|].
  split; discriminate.
Qed.

End StripFacts.

(** X24.  [strip] returns a part of its argument: what it leaves out in
    front are spaces and tabs only, and what it cuts at the end are spaces,
    tabs, line feeds and carriage returns only.  The result does not start
    with a space or a tab, and when it has more than one character it does
    not end with one of the four.  Its first character is never cut, so the
    result is empty exactly when the argument holds spaces and tabs only, and
    a lone line feed stays.  Stripping twice changes nothing more. *)
Theorem X24_strip (s : list ascii) :
  let t := Config.strip s in
  (exists pre post,
     s = pre ++ t ++ post /\
     forallb Config.is_blank pre = true /\
     forallb Config.is_trailing post = true) /\
  (forall c rest, t = c :: rest -> Config.is_blank c = false) /\
  (forall d, (2 <= List.length t)%nat -> Config.is_trailing (last t d) = false) /\
  (t = [] <-> forallb Config.is_blank s = true) /\
  (forall c, Config.is_blank c = false -> Config.strip [c] = [c]) /\
  Config.strip t = t.
Proof.
  intros t. subst t.
  destruct (skip_blanks_split s) as (pre & E & B).
  pose proof (skip_blanks_head s) as H.
  pose proof (strip_empty s) as Em.
  assert (One : forall c, Config.is_blank c = false -> Config.strip [c] = [c]).
  { intros c Bc. unfold Config.strip. cbn [Config.skip_blanks]. now rewrite Bc. }
  assert (T : Config.strip s
              = match Config.skip_blanks s with
                | [] => []
                | c :: rest => c :: Config.drop_trailing rest
                end) by reflexivity.
  destruct (Config.skip_blanks s) as [|c rest] eqn:K; rewrite T in *.
  - split; [exists pre, []; now rewrite app_nil_r in *|].
    split; [discriminate|]. split; [cbn; lia|]. split; [exact Em|].
    split; [exact One|reflexivity].
  - destruct (drop_trailing_split rest) as (post & E' & Tr).
    split; [exists pre, post; split; [|now split];
            rewrite E at 1; cbn [app]; now rewrite <- E'|].
    split; [intros c0 r0 X; injection X as <- _; now apply (H c rest)|].
    split.
    { intros d L. cbn [List.length] in L.
      destruct (Config.drop_trailing rest) as [|k kept] eqn:D; [cbn in L; lia|].
      change (last (c :: k :: kept) d) with (last (k :: kept) d).
      rewrite <- D. apply drop_trailing_last. rewrite D. discriminate. }
    split; [exact Em|].
    split; [exact One|].
    unfold Config.strip. rewrite skip_blanks_fixed by now apply (H c rest).
    now rewrite drop_trailing_idem.
Qed.

Lemma X24_strip_witness :
  Config.strip [LF] = [LF].
Proof.
  exact (proj1 (proj2 (proj2 (proj2 (proj2 (X24_strip [])))))
           LF eq_refl).
Defined.

Section ConfigFacts.
Import Pam.
Import Config.

Lemma parse_bool_flag (val : option (list ascii)) : is_flag (parse_bool val).
Proof.
  unfold parse_bool, is_flag. destruct val as [v|]; [|now left].
  destruct (_ || _); auto.
Qed.

Lemma snprintf_length (size : nat) (v : list ascii) :
  (String.length (string_of_list_ascii (snprintf_s size v)) <= size - 1)%nat.
Proof.
  rewrite string_length_of_list. unfold snprintf_s. apply firstn_le_length.
Qed.

Lemma default_fits : cfg_fits default_config.
Proof. unfold cfg_fits, is_flag. cbn. repeat split; auto; lia. Qed.

Lemma general_key_fits (c : confirm_config_t) (key val : list ascii) :
  cfg_fits c -> cfg_fits (general_key c key val).
Proof.
  unfold cfg_fits, general_key. intros (A & B & C & D & E & F & G & H).
  pose proof (parse_bool_flag (Some val)) as P.
  pose proof (snprintf_length 32 val) as L.
  repeat match goal with
         | |- context [if key_is ?k ?n then _ else _] => destruct (key_is k n)
         end; cbn; repeat split; auto.
Qed.

Lemma appearance_key_fits (c : confirm_config_t) (key val : list ascii) :
  cfg_fits c -> cfg_fits (appearance_key c key val).
Proof.
  unfold cfg_fits, appearance_key. intros (A & B & C & D & E & F & G & H).
  pose proof (snprintf_length 256 val) as L1.
  pose proof (snprintf_length 512 val) as L2.
  repeat match goal with
         | |- context [if key_is ?k ?n then _ else _] => destruct (key_is k n)
         end; cbn; repeat split; auto.
Qed.

Lemma process_line_fits (service : list ascii) (st : parser)
    (line : list ascii) :
  cfg_fits (cfg st) -> cfg_fits (cfg (process_line service st line)).
Proof.
  intros F. unfold process_line.
  destruct (strip (c_str line)) as [|first rest]; [exact F|].
  destruct (Ascii.eqb first "#"); [exact F|].
  destruct (Ascii.eqb first "[").
  - destruct (split_at _ _) as [[before after]|]; exact F.
  - destruct (split_at _ _) as [[before after]|]; [|exact F].
    destruct (key_is (section st) "general");
      [now apply general_key_fits|].
    destruct (key_is (section st) "services");
      [destruct (Libc.bytes_eqb _ _); exact F|].
    destruct (key_is (section st) "appearance");
      [now apply appearance_key_fits|exact F].
Qed.

Lemma lines_fit (service : list ascii) (lines : list (list ascii)) :
  forall st, cfg_fits (cfg st) ->
             cfg_fits (cfg (fold_left (process_line service) lines st)).
Proof.
  induction lines as [|l lines IH]; intros st F; [exact F|].
  cbn [fold_left]. apply IH. now apply process_line_fits.
Qed.

Lemma override_field_facts (c : confirm_config_t) (field : nat)
    (token : list ascii) :
  (cfg_fits c -> cfg_fits (override_field c field token)) /\
  same_but_service c (override_field c field token) /\
  ((3 <= field)%nat -> override_field c field token = c) /\
  (strip token = bytes "default" -> override_field c field token = c).
Proof.
  unfold override_field, cfg_fits, same_but_service.
  pose proof (parse_bool_flag (Some (strip token))) as P.
  destruct (Libc.bytes_eqb (strip token) (bytes "default")) eqn:D.
  - repeat split; auto; tauto.
  - split; [intros (A & B & C & E & F & G & H & I);
            destruct field as [|[|[|n]]]; cbn; repeat split; auto|].
    split; [destruct field as [|[|[|n]]]; cbn; repeat split; auto|].
    split; [intros L; destruct field as [|[|[|n]]]; try lia; reflexivity|].
    intros X. rewrite X in D. discriminate.
Qed.

Lemma same_but_service_trans (a b c : confirm_config_t) :
  same_but_service a b -> same_but_service b c -> same_but_service a c.
Proof. unfold same_but_service. intuition congruence. Qed.

Lemma override_fields_facts (tokens : list (list ascii)) :
  forall (c : confirm_config_t) (field : nat),
    (cfg_fits c -> cfg_fits (override_fields c field tokens)) /\
    same_but_service c (override_fields c field tokens) /\
    override_fields c field tokens
    = override_fields c field (firstn (3 - field) tokens).
Proof.
  induction tokens as [|t tokens IH]; intros c field.
  - cbn. rewrite firstn_nil. unfold same_but_service. auto 10.
  - cbn [override_fields].
    destruct (override_field_facts c field t) as (F & S & Late & _).
    destruct (IH (override_field c field t) (Datatypes.S field)) as (F' & S' & E).
    split; [auto|]. split; [eapply same_but_service_trans; eauto|].
    destruct (Nat.le_gt_cases 3 field) as [L|L].
    + replace (3 - field)%nat with 0%nat by lia. cbn [firstn override_fields].
      rewrite E. replace (3 - Datatypes.S field)%nat with 0%nat by lia.
      cbn [firstn override_fields]. now apply Late.
    + replace (3 - field)%nat with (Datatypes.S (3 - Datatypes.S field)) by lia.
      cbn [firstn override_fields]. exact E.
Qed.

End ConfigFacts.

(** X25.  Whatever the configuration file holds, and for every service,
    [load_config] leaves a configuration that fits its structure: the flags
    [enabled], [randomize_buttons], [show_process_info] and [log_attempts]
    are 0 or 1, and [headless_action], [title], [message] and [secondary]
    hold at most 31, 255, 511 and 511 bytes, one less than their arrays. *)
Theorem X25_load_config_fits (file : option (list ascii)) (strdup_ok : bool)
    (service : string) :
  cfg_fits (Config.load_config file strdup_ok service).
Proof.
  unfold Config.load_config. destruct file as [content|]; [|apply default_fits].
  unfold Config.apply_service.
  pose proof (lines_fit (bytes service) (Config.fgets_lines content [] 0)
                initial_parser default_fits) as F.
  unfold initial_parser in F.
  destruct (Config.service_cfg _); [exact F|].
  destruct (_ && _); [|exact F].
  now apply override_fields_facts.
Qed.

Section HeaderFacts.
Import Pam.
Import Config.

Lemma fgets_lines_chars (content : list ascii) :
  forall (cur : list ascii) (n : nat) (l : list ascii) (c : ascii),
    In l (fgets_lines content cur n) -> In c l -> In c content \/ In c cur.
Proof.
  induction content as [|x content IH]; intros cur n l c L I.
  - cbn in L. destruct cur; [contradiction|].
    destruct L as [<-|[]]. right. now apply in_rev.
  - cbn [fgets_lines] in L. destruct (_ || _).
    + destruct L as [<-|L].
      * apply in_rev in I. destruct I as [<-|I]; [left; now left|now right].
      * destruct (IH [] 0%nat l c L I) as [X|[]]. left. now right.
    + destruct (IH (x :: cur) (S n) l c L I) as [X|[<-|X]];
        [left; now right|left; now left|now right].
Qed.

Lemma take_until_chars (stop l : list ascii) (c : ascii) :
  In c (take_until stop l) -> In c l.
Proof.
  induction l as [|x l IH]; [intros []|]. cbn [take_until].
  destruct (ascii_in x stop); [intros []|].
  intros [<-|I]; [now left|right; now apply IH].
Qed.

Lemma strip_chars (s : list ascii) (c : ascii) : In c (strip s) -> In c s.
Proof.
  unfold strip. destruct (skip_blanks_split s) as (pre & E & _).
  destruct (skip_blanks s) as [|x rest]; [intros []|].
  destruct (drop_trailing_split rest) as (post & E' & _).
  intros I. rewrite E. apply in_or_app. right.
  destruct I as [<-|I]; [now left|right].
  rewrite E'. apply in_or_app. now left.
Qed.

(** Before any section header, a line without one changes nothing. *)
Lemma process_line_no_header (service : list ascii) (st : parser)
    (line : list ascii) :
  section st = [] -> ~ In "["%char line -> process_line service st line = st.
Proof.
  intros S N. unfold process_line.
  destruct (strip (c_str line)) as [|first rest] eqn:L; [reflexivity|].
  destruct (Ascii.eqb first "#"); [reflexivity|].
  destruct (Ascii.eqb_spec first "[") as [->|_].
  - exfalso. apply N. apply (take_until_chars [NUL]).
    apply strip_chars. fold (c_str line). rewrite L. now left.
  - destruct (split_at _ _) as [[before after]|]; [|reflexivity].
    rewrite S. reflexivity.
Qed.

Lemma lines_no_header (service : list ascii) (lines : list (list ascii)) :
  forall st, section st = [] ->
             (forall l, In l lines -> ~ In "["%char l) ->
             fold_left (process_line service) lines st = st.
Proof.
  induction lines as [|l lines IH]; intros st S N; [reflexivity|].
  cbn [fold_left]. rewrite process_line_no_header; auto.
  - apply IH; auto. intros l' I. apply N. now right.
  - apply N. now left.
Qed.

End HeaderFacts.

(** X27.  A configuration file takes effect through its sections only: a
    file that cannot be opened, and a file without any opening bracket,
    whatever else it holds, leave the defaults for every service. *)
Theorem X27_no_section_defaults (file : option (list ascii))
    (strdup_ok : bool) (service : string) :
  (forall content, file = Some content -> ~ In "["%char content) ->
  Config.load_config file strdup_ok service = Pam.default_config.
Proof.
  intros N. unfold Config.load_config. destruct file as [content|];
    [|reflexivity].
  rewrite lines_no_header; [reflexivity|reflexivity|].
  intros l I B.
  destruct (fgets_lines_chars content [] 0 l "["%char I B) as [X|[]].
  now apply (N content).
Qed.

Lemma X27_no_section_defaults_witness :
  Config.load_config (Some (bytes "timeout = 5")) true "sudo"
  = Pam.default_config.
Proof.
  refine (X27_no_section_defaults (Some (bytes "timeout = 5")) true "sudo" _).
  intros content E. injection E as <-.
  cbn. intuition discriminate.
Defined.

Section FileFacts.
Import Pam.
Import Config.

Lemma uint_chars (d : Decimal.uint) :
  forallb number_char (bytes (NilEmpty.string_of_uint d)) = true.
Proof.
  unfold bytes.
  induction d; cbn [NilEmpty.string_of_uint list_ascii_of_string forallb];
    [reflexivity|..]; rewrite IHd; reflexivity.
Qed.

Lemma int_chars (z : Z) :
  forallb number_char (bytes (int_to_string z)) = true /\
  bytes (int_to_string z) <> [].
Proof.
  unfold int_to_string.
  destruct (Z.to_int z) as [d|d]; cbn [NilZero.string_of_int].
  - pose proof (uint_chars d) as U.
    destruct d; cbn [NilZero.string_of_uint]; (split; [|discriminate]);
      first [reflexivity|exact U].
  - split; [|discriminate].
    pose proof (uint_chars d) as U.
    cbn [bytes list_ascii_of_string forallb].
    change (number_char "-") with true. cbn [andb].
    destruct d; cbn [NilZero.string_of_uint]; first [reflexivity|exact U].
Qed.

Lemma number_char_plain (c : ascii) :
  number_char c = true ->
  is_trailing c = false /\ is_blank c = false /\
  ascii_in c [NUL] = false /\ Ascii.eqb c LF = false.
Proof.
  destruct c as [[] [] [] [] [] [] [] []]; vm_compute; intros H;
    try discriminate H; auto.
Qed.

Lemma take_until_all (stop l : list ascii) :
  forallb (fun c => negb (ascii_in c stop)) l = true -> take_until stop l = l.
Proof.
  induction l as [|c l IH]; [reflexivity|]. cbn [forallb take_until].
  intros H. apply andb_prop in H as [A B].
  destruct (ascii_in c stop); [discriminate|]. now rewrite IH.
Qed.

Lemma drop_trailing_keep (a b : list ascii) :
  drop_trailing b <> [] -> drop_trailing (a ++ b) = a ++ drop_trailing b.
Proof.
  intros N. induction a as [|c a IH]; [reflexivity|].
  cbn [app drop_trailing]. rewrite IH.
  destruct (a ++ drop_trailing b) eqn:E; [|reflexivity].
  apply app_eq_nil in E. now destruct E.
Qed.

Lemma drop_trailing_number (ds t : list ascii) :
  forallb number_char ds = true ->
  drop_trailing (ds ++ t) = ds ++ drop_trailing t.
Proof.
  induction ds as [|c ds IH]; [reflexivity|]. cbn [forallb].
  intros H. apply andb_prop in H as [A B].
  cbn [app drop_trailing]. rewrite (IH B).
  destruct (ds ++ drop_trailing t); [|reflexivity].
  destruct (number_char_plain c A) as (T & _). now rewrite T.
Qed.

(** A line shorter than the buffer is read whole, newline included. *)
Lemma fgets_line (l : list ascii) :
  forall (rest cur : list ascii) (n : nat),
    forallb (fun c => negb (Ascii.eqb c LF)) l = true ->
    (n + List.length l + 1 < 1023)%nat ->
    fgets_lines (l ++ LF :: rest) cur n
    = (rev cur ++ l ++ [LF]) :: fgets_lines rest [] 0.
Proof.
  induction l as [|c l IH]; intros rest cur n F B.
  - cbn [app fgets_lines]. rewrite Ascii.eqb_refl. cbn [orb rev]. reflexivity.
  - cbn [forallb] in F. apply andb_prop in F as [A F].
    cbn [app fgets_lines List.length] in *.
    destruct (Ascii.eqb c LF); [discriminate|]. cbn [orb].
    destruct (Nat.eqb_spec (S n) 1023) as [E|_]; [lia|].
    rewrite IH by (auto; lia). cbn [rev]. now rewrite <- app_assoc.
Qed.

Lemma number_no_lf (ds : list ascii) :
  forallb number_char ds = true ->
  forallb (fun c => negb (Ascii.eqb c LF)) ds = true /\
  forallb (fun c => negb (ascii_in c [NUL])) ds = true.
Proof.
  induction ds as [|c ds IH]; [auto|]. cbn [forallb].
  intros H. apply andb_prop in H as [A B].
  destruct (number_char_plain c A) as (_ & _ & N & L).
  destruct (IH B) as [X Y]. now rewrite N, L, X, Y.
Qed.

Lemma timeout_line (service : list ascii) (st : parser) (ds : list ascii) :
  section st = bytes "general" ->
  forallb number_char ds = true -> ds <> [] ->
  process_line service st (bytes "timeout = " ++ ds ++ [LF])
  = with_cfg st (set_timeout (cfg st) (Libc.atoi_int ds)).
Proof.
  intros S F N. unfold process_line.
  destruct (number_no_lf ds F) as [_ NoNul].
  assert (C : c_str (bytes "timeout = " ++ ds ++ [LF])
              = bytes "timeout = " ++ ds ++ [LF]).
  { apply take_until_all. rewrite !forallb_app, NoNul. reflexivity. }
  rewrite C.
  assert (D : drop_trailing (ds ++ [LF]) = ds).
  { rewrite drop_trailing_number by exact F. cbn. apply app_nil_r. }
  assert (St : strip (bytes "timeout = " ++ ds ++ [LF])
               = bytes "timeout = " ++ ds).
  { unfold strip.
    change (bytes "timeout = " ++ ds ++ [LF])
      with ("t"%char :: bytes "imeout = " ++ ds ++ [LF]).
    cbn [skip_blanks]. change (is_blank "t") with false. cbv iota.
    rewrite drop_trailing_keep by (rewrite D; exact N).
    now rewrite D. }
  rewrite St.
  destruct ds as [|d ds]; [congruence|].
  cbn [forallb] in F. apply andb_prop in F as [Fd Fs].
  destruct (number_char_plain d Fd) as (_ & Bd & _).
  assert (V : strip (" "%char :: d :: ds) = d :: ds).
  { unfold strip. cbn [skip_blanks]. change (is_blank " ") with true.
    cbv iota. rewrite Bd.
    rewrite <- (app_nil_r ds) at 1.
    rewrite drop_trailing_number by exact Fs. cbn. now rewrite app_nil_r. }
  cbn [bytes list_ascii_of_string app].
  change (Ascii.eqb "t" "#") with false.
  change (Ascii.eqb "t" "[") with false. cbv iota.
  cbn [split_at Ascii.eqb Bool.eqb].
  rewrite V, S. reflexivity.
Qed.

(** The decimal text of a number has at most as many digits as the number
    has bits. *)
Lemma double_digits (d : Decimal.uint) :
  (Decimal.nb_digits (Decimal.Little.double d) <= S (Decimal.nb_digits d))%nat /\
  (Decimal.nb_digits (Decimal.Little.succ_double d)
   <= S (Decimal.nb_digits d))%nat.
Proof.
  induction d as [|d [A B]|d [A B]|d [A B]|d [A B]|d [A B]|d [A B]|d [A B]
                 |d [A B]|d [A B]|d [A B]];
    cbn [Decimal.Little.double Decimal.Little.succ_double Decimal.nb_digits];
    split; lia.
Qed.

Lemma little_uint_digits (p : positive) :
  (Decimal.nb_digits (Pos.to_little_uint p) <= Pos.size_nat p)%nat.
Proof.
  induction p as [p IH|p IH|]; cbn [Pos.to_little_uint Pos.size_nat].
  - pose proof (proj2 (double_digits (Pos.to_little_uint p))). lia.
  - pose proof (proj1 (double_digits (Pos.to_little_uint p))). lia.
  - cbn. lia.
Qed.

Lemma uint_string_length (d : Decimal.uint) :
  String.length (NilEmpty.string_of_uint d) = Decimal.nb_digits d.
Proof.
  induction d; cbn [NilEmpty.string_of_uint String.length Decimal.nb_digits];
    congruence.
Qed.

Lemma pos_text_short (p : positive) :
  Zpos p <= 2147483648 ->
  (String.length (NilZero.string_of_uint (Pos.to_uint p)) <= 33)%nat.
Proof.
  intros R.
  assert (L : (String.length (NilEmpty.string_of_uint (Pos.to_uint p)) <= 33)%nat).
  { rewrite uint_string_length. unfold Pos.to_uint.
    rewrite DecimalFacts.nb_digits_rev.
    pose proof (little_uint_digits p) as D.
    assert (Lt : (p < 4294967296)%positive).
    { apply Pos.lt_nle. intros H. apply Pos2Z.pos_le_pos in H. lia. }
    pose proof (Pos.size_nat_monotone p 4294967296 Lt) as Sz.
    change (Pos.size_nat 4294967296) with 33%nat in Sz.
    exact (Nat.le_trans _ _ _ D Sz). }
  destruct (Pos.to_uint p); cbn [NilZero.string_of_uint]; try exact L.
  cbn. lia.
Qed.

Lemma int_text_short (z : Z) :
  INT_MIN <= z <= INT_MAX -> (String.length (int_to_string z) <= 34)%nat.
Proof.
  unfold INT_MIN, INT_MAX, int_to_string. intros R.
  destruct z as [|p|p]; cbn [Z.to_int NilZero.string_of_int String.length].
  - cbn. lia.
  - pose proof (pos_text_short p ltac:(lia)). lia.
  - pose proof (pos_text_short p ltac:(lia)). lia.
Qed.

(** The text of an [int] is read back as itself. *)
Lemma atoi_int_text (z : Z) :
  INT_MIN <= z <= INT_MAX -> Libc.atoi_int (bytes (int_to_string z)) = z.
Proof.
  intros R. unfold Libc.atoi_int, Libc.strtol.
  fold (Libc.atoi (int_to_string z)). rewrite atoi_int_to_string.
  unfold INT_MIN, INT_MAX, Libc.LONG_MIN, Libc.LONG_MAX in *.
  rewrite Z.min_r, Z.max_r by lia.
  apply wrap_int_small. unfold INT_MIN, INT_MAX. lia.
Qed.

End FileFacts.

(** X28.  A timeout written to the file is the timeout used.  For every
    [int] [z]: a file made of the header of the general section and the line
    [timeout = z], with [z] in decimal, gives, for every service, the default
    configuration with its timeout replaced by [z]. *)
Theorem X28_timeout_from_file (z : Z) (strdup_ok : bool) (service : string) :
  Pam.INT_MIN <= z <= Pam.INT_MAX ->
  Config.load_config (Some (timeout_file z)) strdup_ok service
  = Config.set_timeout Pam.default_config z.
Proof.
  intros R. unfold Config.load_config, timeout_file.
  pose proof (int_text_short z R) as L.
  destruct (int_chars z) as [F N].
  destruct (number_no_lf _ F) as [NoLf _].
  rewrite (fgets_line (bytes "[general]"))
    by first [reflexivity | apply Nat.ltb_lt; reflexivity].
  change (bytes "timeout = " ++ bytes (Pam.int_to_string z) ++ [LF])
    with ((bytes "timeout = " ++ bytes (Pam.int_to_string z)) ++ LF :: []).
  rewrite fgets_line.
  - cbn [Config.fgets_lines fold_left rev app].
    rewrite <- app_assoc.
    rewrite timeout_line; [|reflexivity|exact F|exact N].
    unfold Config.apply_service. cbn.
    now rewrite atoi_int_text.
  - rewrite forallb_app, NoLf. reflexivity.
  - rewrite length_app, !bytes_length.
    change (String.length "timeout = ") with 10%nat. lia.
Qed.

Lemma X28_timeout_from_file_witness :
  Config.load_config (Some (timeout_file 45)) true "sudo"
  = Config.set_timeout Pam.default_config 45.
Proof.
  refine (X28_timeout_from_file 45 true "sudo" _).
  unfold Pam.INT_MIN, Pam.INT_MAX. lia.
Defined.

Section BoolFacts.
Import Libc.

Lemma tolower_idem (c : ascii) : tolower (tolower c) = tolower c.
Proof. destruct c as [[] [] [] [] [] [] [] []]; vm_compute; reflexivity. Qed.

Lemma map_tolower_idem (v : list ascii) :
  map tolower (map tolower v) = map tolower v.
Proof.
  induction v as [|c v IH]; [reflexivity|]. cbn [map].
  now rewrite tolower_idem, IH.
Qed.

Lemma bytes_eqb_eq (a b : list ascii) : bytes_eqb a b = true <-> a = b.
Proof.
  revert b. induction a as [|x a IH]; intros [|y b]; cbn [bytes_eqb];
    try (split; [discriminate|congruence]); [tauto|].
  rewrite andb_true_iff, Ascii.eqb_eq, IH.
  split; [intros [-> ->]; reflexivity|intros E; now injection E].
Qed.

End BoolFacts.

(** X29.  [parse_bool] gives 1 exactly for the words yes, true and 1 in any
    mix of upper and lower case, and 0 for everything else, a missing value
    included; so it does not depend on the case of the letters, and words
    like on are read as 0. *)
Theorem X29_parse_bool (v : list ascii) :
  (Config.parse_bool (Some v) = 1 <->
   map Libc.tolower v = bytes "yes" \/ map Libc.tolower v = bytes "true" \/
   map Libc.tolower v = bytes "1") /\
  (Config.parse_bool (Some v) = 0 \/ Config.parse_bool (Some v) = 1) /\
  Config.parse_bool (Some (map Libc.tolower v)) = Config.parse_bool (Some v) /\
  Config.parse_bool None = 0 /\
  Config.parse_bool (Some (bytes "on")) = 0.
Proof.
  unfold Config.parse_bool, Libc.strcasecmp_eq.
  rewrite !map_tolower_idem.
  change (map Libc.tolower (bytes "yes")) with (bytes "yes").
  change (map Libc.tolower (bytes "true")) with (bytes "true").
  change (map Libc.tolower (bytes "1")) with (bytes "1").
  split; [|split; [|split; [reflexivity|split; reflexivity]]].
  - rewrite <- !bytes_eqb_eq.
    destruct (Libc.bytes_eqb (map Libc.tolower v) (bytes "yes"));
      destruct (Libc.bytes_eqb (map Libc.tolower v) (bytes "true"));
      destruct (Libc.bytes_eqb (map Libc.tolower v) (bytes "1")); cbn;
      intuition discriminate.
  - destruct (_ || _); auto.
Qed.

(** X30.  What the parent logs.  With [log_attempts] off it logs nothing;
    with it on it logs exactly one line, as its last call.  The line is the
    result line, at priority LOG_INFO, exactly when [select] reported the
    read end readable, the read did not fail and the channel held data, and
    it then shows the first line of the at most 15 bytes read; for a
    channel holding the token line of a result this is the token the helper
    printed. *)
Theorem X30_parent_log (os : Pam.Os) (cfg : Pam.confirm_config_t)
    (user service : string) (content : list ascii) (res : Confirm.Result) :
  let sel := Pam.select_ os (Pam.wrap_int (Pam.timeout cfg + 5)) 0 in
  let calls := fst (Pam.run_helper_parent os cfg user service content) in
  let read_ok := 0 < sel /\ Pam.read_error os = false /\ content <> [] in
  (Pam.log_attempts cfg = 0 -> filter is_syslog calls = []) /\
  (Pam.log_attempts cfg <> 0 ->
   exists p msg,
     filter is_syslog calls = [Pam.Syslog p msg] /\
     last calls Pam.Pipe = Pam.Syslog p msg /\
     (p = Pam.LOG_INFO <-> read_ok) /\
     (read_ok ->
      Pam.Syslog p msg
      = result_log os user service
          (string_of_list_ascii (first_line (firstn 15 content))))) /\
  (Pam.log_attempts cfg <> 0 -> 0 < sel -> Pam.read_error os = false ->
   content = token_line res ->
   In (result_log os user service (Confirm.to_string res)) calls).
Proof.
  intros sel calls read_ok.
  assert (A : Pam.log_attempts cfg = 0 -> filter is_syslog calls = []).
  { intros Z0. subst calls. unfold Pam.run_helper_parent, Pam.logged.
    rewrite Z0. cbn [Z.eqb].
    destruct (_ <=? 0); [reflexivity|].
    destruct (Pam.read_ os content 15) as [n data].
    destruct (n <=? 0); [reflexivity|].
    destruct (Pam.str_equal _ _); reflexivity. }
  assert (B : Pam.log_attempts cfg <> 0 ->
   exists p msg,
     filter is_syslog calls = [Pam.Syslog p msg] /\
     last calls Pam.Pipe = Pam.Syslog p msg /\
     (p = Pam.LOG_INFO <-> read_ok) /\
     (read_ok ->
      Pam.Syslog p msg
      = result_log os user service
          (string_of_list_ascii (first_line (firstn 15 content))))).
  { intros NZ. apply Z.eqb_neq in NZ. subst calls read_ok.
    unfold Pam.run_helper_parent, Pam.logged. fold sel. rewrite NZ.
    destruct (Z.leb_spec sel 0) as [S|S].
    - do 2 eexists. cbn. split; [reflexivity|]. split; [reflexivity|].
      split; [split; [discriminate|intros (X & _); lia]|intros (X & _); lia].
    - unfold Pam.read_. destruct (Pam.read_error os) eqn:R.
      + cbn. do 2 eexists. split; [reflexivity|]. split; [reflexivity|].
        split; [split; [discriminate|intros (_ & X & _); discriminate]
               |intros (_ & X & _); discriminate].
      + change (Z.to_nat 15) with 15%nat.
        destruct content as [|c content].
        * cbn. do 2 eexists. split; [reflexivity|]. split; [reflexivity|].
          split; [split; [discriminate|intros (_ & _ & X); congruence]
                 |intros (_ & _ & X); congruence].
        * assert (P : (Z.of_nat (List.length (firstn 15 (c :: content))) <=? 0)
                      = false).
          { apply Z.leb_gt. cbn [firstn List.length]. lia. }
          rewrite P.
          pose proof (parse_result_line os (firstn 15 (c :: content))) as Q.
          rewrite length_firstn in Q. rewrite Q by lia.
          destruct (Pam.str_equal _ _); cbn [fst];
            do 2 eexists;
            (split; [reflexivity|]); (split; [reflexivity|]);
            (split; [split; [intros _; repeat split; auto; discriminate
                            |reflexivity]
                    |intros _; reflexivity]). }
  split; [exact A|]. split; [exact B|].
  intros NZ S R E.
  destruct (B NZ) as (p & msg & F & L & _ & M).
  assert (RO : read_ok).
  { subst read_ok. repeat split; auto. rewrite E. now destruct res. }
  specialize (M RO).
  assert (T : string_of_list_ascii (first_line (firstn 15 content))
              = Confirm.to_string res).
  { rewrite E. now destruct res. }
  rewrite T in M. rewrite <- M.
  assert (I : In (Pam.Syslog p msg) (filter is_syslog calls))
    by (rewrite F; now left).
  now apply filter_In in I.
Qed.

Lemma X30_parent_log_witness :
  In (result_log
        (example_os (Some "wayland-0") (Some alice) true true true true
                    (Some 2000000))
        "alice" "sudo" "TIMEOUT")
     (fst (Pam.run_helper_parent
             (example_os (Some "wayland-0") (Some alice) true true true true
                         (Some 2000000))
             Pam.default_config "alice" "sudo"
             (token_line Confirm.Timeout))).
Proof.
  refine (proj2 (proj2 (X30_parent_log
            (example_os (Some "wayland-0") (Some alice) true true true true
                        (Some 2000000))
            Pam.default_config "alice" "sudo" (token_line Confirm.Timeout)
            Confirm.Timeout)) _ _ _ _); try reflexivity.
  cbn. discriminate.
Defined.

(** * The deadline at the end of the range of [int] *)

(** C8.  The code at an input where it misses the deadline the claim
    describes.  The configuration file sets the timeout to 2147483647, the
    largest [int]; the helper has written ALLOW and the read end of the pipe
    is readable from the start.  The sum [timeout + 5] does not fit an [int]:
    [tv_sec] is -2147483644, [select] fails, and the parent kills the child
    at once, without reading, and returns an authentication failure, although
    the deadline of [timeout + 5] seconds is far away. *)
Theorem C8_deadline_overflow :
  Pam.timeout (Config.load_config (Some (timeout_file 2147483647)) true "sudo")
  = 2147483647 /\
  Pam.ready_at
    (example_os (Some "wayland-0") (Some alice) true true true true (Some 0))
  = Some 0 /\
  firstn 5
    (fst (Pam.run_helper_parent
            (example_os (Some "wayland-0") (Some alice) true true true true
                        (Some 0))
            (Config.load_config (Some (timeout_file 2147483647)) true "sudo")
            "alice" "sudo" (token_line Confirm.Allow)))
  = [Pam.Close Pam.pipefd1; Pam.Select (-2147483644) 0;
     Pam.Kill 4242 Pam.SIGKILL; Pam.Waitpid 4242; Pam.Close Pam.pipefd0] /\
  existsb is_read
    (fst (Pam.run_helper_parent
            (example_os (Some "wayland-0") (Some alice) true true true true
                        (Some 0))
            (Config.load_config (Some (timeout_file 2147483647)) true "sudo")
            "alice" "sudo" (token_line Confirm.Allow))) = false /\
  snd (Pam.run_helper_parent
         (example_os (Some "wayland-0") (Some alice) true true true true
                     (Some 0))
         (Config.load_config (Some (timeout_file 2147483647)) true "sudo")
         "alice" "sudo" (token_line Confirm.Allow)) = Pam.PAM_AUTH_ERR.
Proof. vm_compute. auto 10. Qed.

(** * A failed exec, seen from the parent *)

Section ExecFacts.
Import Pam.

(** [run_helper] once the pipe and the fork succeeded: the calls of the
    parent are those of [run_helper_parent] on what the child side left. *)
Lemma run_helper_forked_calls (os : Os) (cfg : confirm_config_t)
    (user service : string) :
  pipe_ok os = true -> 0 <= fork_pid os ->
  exists fm fs,
    child_calls (run_helper os cfg user service) = child os cfg user fm fs /\
    parent_calls (run_helper os cfg user service)
    = Pipe :: Fork ::
        fst (run_helper_parent os cfg user service
               (channel_content os (child os cfg user fm fs))) /\
    ret (run_helper os cfg user service)
    = snd (run_helper_parent os cfg user service
             (channel_content os (child os cfg user fm fs))).
Proof.
  intros P F. unfold run_helper. rewrite P. cbn [negb].
  apply Z.ltb_ge in F. rewrite F.
  do 2 eexists.
  destruct (run_helper_parent _ _ _ _ _) as [p r] eqn:E.
  cbn [child_calls parent_calls ret]. rewrite E. cbn [fst snd].
  repeat split; reflexivity.
Qed.

(** The parent on a pipe that holds the line DENY. *)
Lemma parent_reads_deny (os : Os) (cfg : confirm_config_t)
    (user service : string) :
  0 < select_ os (wrap_int (timeout cfg + 5)) 0 -> read_error os = false ->
  run_helper_parent os cfg user service (token_line Confirm.Deny)
  = ([Close pipefd1; Select (wrap_int (timeout cfg + 5)) 0; Read 15;
      Close pipefd0; Waitpid (fork_pid os)]
     ++ logged cfg (result_log os user service "DENY"),
     PAM_AUTH_ERR).
Proof.
  intros S R. unfold run_helper_parent.
  apply Z.leb_gt in S. rewrite S.
  unfold read_. rewrite R.
  change (firstn (Z.to_nat 15) (token_line Confirm.Deny))
    with (token_line Confirm.Deny).
  change (Z.of_nat (List.length (token_line Confirm.Deny)) <=? 0) with false.
  cbv iota.
  pose proof (parse_result_line os (token_line Confirm.Deny)) as Q.
  unfold str_equal. rewrite Q by (cbn; lia).
  reflexivity.
Qed.

(** The parent when [select] does not report the read end readable. *)
Lemma parent_kills (os : Os) (cfg : confirm_config_t)
    (user service : string) (content : list ascii) :
  select_ os (wrap_int (timeout cfg + 5)) 0 <= 0 ->
  existsb is_read (fst (run_helper_parent os cfg user service content))
  = false /\
  firstn 5 (fst (run_helper_parent os cfg user service content))
  = [Close pipefd1; Select (wrap_int (timeout cfg + 5)) 0;
     Kill (fork_pid os) SIGKILL; Waitpid (fork_pid os); Close pipefd0].
Proof.
  intros S. unfold run_helper_parent. apply Z.leb_le in S. rewrite S.
  cbn [fst]. rewrite existsb_app. unfold logged.
  destruct (log_attempts cfg =? 0); split; reflexivity.
Qed.

End ExecFacts.

(** C10, as amended.  When the child called [execv] (so the privilege drop
    and the redirection of stdout succeeded) and [execv] failed, the child
    writes the line DENY to the pipe and exits with status 1, and the parent
    returns an authentication failure in every case.  The parent observes
    the token when the write succeeded, [select] reported the read end
    readable and the read did not fail: its calls are then the close of the
    write end, the [select], one read of 15 bytes, the close of the read
    end, the [waitpid] and, with logging on, the result line that shows
    DENY.  When [select] fails or times out the parent does not read: it
    kills and reaps the child. *)
Theorem C10_exec_failure (os : Pam.Os) (cfg : Pam.confirm_config_t)
    (user service : string) :
  Pam.pipe_ok os = true -> 0 <= Pam.fork_pid os ->
  let r := Pam.run_helper os cfg user service in
  let sel := Pam.select_ os (Pam.wrap_int (Pam.timeout cfg + 5)) 0 in
  existsb Pam.is_execv (Pam.child_calls r) = true ->
  Pam.execv_ok os = false ->
  (exists args,
     ends_with (Pam.child_calls r)
       [Pam.Execv (Pam.HELPER_PATH os) args;
        Pam.Write (token_line Confirm.Deny); Pam.Exit 1]) /\
  Pam.ret r = Pam.PAM_AUTH_ERR /\
  (Pam.write_ok os = true ->
   Pam.channel_content os (Pam.child_calls r) = token_line Confirm.Deny) /\
  (Pam.write_ok os = true -> 0 < sel -> Pam.read_error os = false ->
   Pam.parent_calls r
   = [Pam.Pipe; Pam.Fork; Pam.Close Pam.pipefd1;
      Pam.Select (Pam.wrap_int (Pam.timeout cfg + 5)) 0; Pam.Read 15;
      Pam.Close Pam.pipefd0; Pam.Waitpid (Pam.fork_pid os)]
     ++ Pam.logged cfg (result_log os user service "DENY")) /\
  (sel <= 0 ->
   existsb is_read (Pam.parent_calls r) = false /\
   firstn 7 (Pam.parent_calls r)
   = [Pam.Pipe; Pam.Fork; Pam.Close Pam.pipefd1;
      Pam.Select (Pam.wrap_int (Pam.timeout cfg + 5)) 0;
      Pam.Kill (Pam.fork_pid os) Pam.SIGKILL; Pam.Waitpid (Pam.fork_pid os);
      Pam.Close Pam.pipefd0]).
Proof.
  intros P F r sel. subst r sel.
  destruct (run_helper_forked_calls os cfg user service P F)
    as (fm & fs & -> & -> & ->).
  intros E X.
  destruct (child_exec_failed os cfg user fm fs E X) as (A & B & C).
  split; [now exists (Pam.helper_args os cfg fm fs)|]. split.
  - destruct (Pam.write_ok os).
    + rewrite B by reflexivity. apply parent_deny.
    + rewrite C by reflexivity. apply parent_empty_channel.
  - split; [exact B|]. split.
    + intros W S R. rewrite (B W).
      now rewrite (parent_reads_deny os cfg user service S R).
    + intros S.
      destruct (parent_kills os cfg user service
                  (Pam.channel_content os (Pam.child os cfg user fm fs)) S)
        as [K1 K2].
      split; [exact K1|].
      change (firstn 7 (Pam.Pipe :: Pam.Fork :: ?l))
        with (Pam.Pipe :: Pam.Fork :: firstn 5 l).
      cbn [firstn]. f_equal. f_equal. exact K2.
Qed.

Lemma C10_exec_failure_witness :
  Pam.parent_calls
    (Pam.run_helper
       (example_os (Some "wayland-0") (Some alice) true true true false
                   (Some 1000000))
       Pam.default_config "alice" "sudo")
  = [Pam.Pipe; Pam.Fork; Pam.Close Pam.pipefd1; Pam.Select 35 0; Pam.Read 15;
     Pam.Close Pam.pipefd0; Pam.Waitpid 4242;
     result_log
       (example_os (Some "wayland-0") (Some alice) true true true false
                   (Some 1000000))
       "alice" "sudo" "DENY"].
Proof.
  exact (proj1 (proj2 (proj2 (proj2 (C10_exec_failure
           (example_os (Some "wayland-0") (Some alice) true true true false
                       (Some 1000000))
           Pam.default_config "alice" "sudo" eq_refl
           ltac:(vm_compute; discriminate) eq_refl eq_refl))))
           eq_refl eq_refl eq_refl).
Defined.

(** C10 as stated fails: [execv] fails after the privilege drop succeeded,
    the child writes the line DENY to the pipe and exits with status 1, but
    [select] in the parent fails (a signal interrupts it): the parent kills
    and reaps the child and never reads, so it does not observe the token
    that is in the pipe.  It returns an authentication failure all the
    same. *)
Lemma C10_counterexample :
  Pam.channel_content
    (with_select_error
       (example_os (Some "wayland-0") (Some alice) true true true false
                   (Some 0)))
    (Pam.child_calls
       (Pam.run_helper
          (with_select_error
             (example_os (Some "wayland-0") (Some alice) true true true false
                         (Some 0)))
          Pam.default_config "alice" "sudo"))
  = token_line Confirm.Deny /\
  existsb is_read
    (Pam.parent_calls
       (Pam.run_helper
          (with_select_error
             (example_os (Some "wayland-0") (Some alice) true true true false
                         (Some 0)))
          Pam.default_config "alice" "sudo")) = false /\
  existsb is_kill
    (Pam.parent_calls
       (Pam.run_helper
          (with_select_error
             (example_os (Some "wayland-0") (Some alice) true true true false
                         (Some 0)))
          Pam.default_config "alice" "sudo")) = true /\
  Pam.ret
    (Pam.run_helper
       (with_select_error
          (example_os (Some "wayland-0") (Some alice) true true true false
                      (Some 0)))
       Pam.default_config "alice" "sudo") = Pam.PAM_AUTH_ERR.
Proof. vm_compute. auto. Qed.

(** * The line of a service *)

Section ServiceFacts.
Import Pam.
Import Config.





End ServiceFacts.


